(** * Narrow compilation and anchor pagination (zerver/lib/narrow.py)

    A shallow embedding of the server-side narrow compiler
    ([NarrowBuilder], [add_narrow_conditions]), the history policy
    ([ok_to_include_history]), the [with]-operator rewrite, the anchor
    parser and the window/post-processing code of [fetch_messages],
    together with the properties the specification states about them.

    Python integers are [Z]; Python strings are [string]; a raised
    exception is the [Err] branch of [Result]; the mutable fields of a
    [NarrowBuilder] are threaded explicitly as a [BuilderState]. *)

From Stdlib Require Import ZArith List String Ascii Bool Lia Sorted Permutation.
Import ListNotations.

Open Scope string_scope.
Open Scope list_scope.
Open Scope Z_scope.

(* ================================================================== *)
(** ** Python values and exceptions *)
(* ================================================================== *)

(** The exception classes the module raises.  [BadNarrowOperatorError]
    and [InvalidOperatorCombinationError] are the two subclasses of
    [JsonableError] declared in the file; [AssertionError] is a failed
    [assert]; [TypeError] stands for an operand whose Python type the
    handler's annotation excludes (ruled out by
    [NarrowParameter.validate_terms]); [ValueError] is the error of
    the builtins [int] and [str] where the module does not catch it. *)
Inductive Error : Type :=
| JsonableError (msg : string)
| BadNarrowOperatorError (desc : string)
| InvalidOperatorCombinationError (desc : string)
| AssertionError
| TypeError
| ValueError.

Inductive Result (A : Type) : Type :=
| Ok (a : A)
| Err (e : Error).
Arguments Ok {A} a.
Arguments Err {A} e.

Definition is_ok {A} (r : Result A) : bool :=
  match r with Ok _ => true | Err _ => false end.

(** [l[start:]] for a Python list. *)
Definition py_slice_from {A} (start : Z) (l : list A) : list A :=
  let n := Z.of_nat (List.length l) in
  let i := if start <? 0 then Z.max (start + n) 0 else Z.min start n in
  skipn (Z.to_nat i) l.

(** [l[:stop]] for a Python list. *)
Definition py_slice_to {A} (stop : Z) (l : list A) : list A :=
  let n := Z.of_nat (List.length l) in
  let i := if stop <? 0 then Z.max (stop + n) 0 else Z.min stop n in
  firstn (Z.to_nat i) l.

(** [len(l)] as a Python integer. *)
Definition len {A} (l : list A) : Z := Z.of_nat (List.length l).

(** A Python [bool] used as an integer. *)
Definition int_of_bool (b : bool) : Z := if b then 1 else 0.

(* ------------------------------------------------------------------ *)
(** *** [int(s)] on ASCII text *)
(* ------------------------------------------------------------------ *)

(** The whitespace of the regular expression class [\s] on ASCII text,
    used by the search tokenizer. *)
Definition is_space (c : ascii) : bool :=
  let n := nat_of_ascii c in
  (((9 <=? n)%nat && (n <=? 13)%nat) || ((28 <=? n)%nat && (n <=? 32)%nat))%bool.

(** The whitespace the builtin [int] strips from ASCII text: tab to
    carriage return, and the space. *)
Definition is_int_space (c : ascii) : bool :=
  let n := nat_of_ascii c in
  (((9 <=? n)%nat && (n <=? 13)%nat) || (n =? 32)%nat)%bool.

(** [sys.int_info.default_max_str_digits]: with the interpreter's
    default setting, [int] of a string with more decimal digits and
    [str] of an integer with more decimal digits raise [ValueError]. *)
Definition MAX_STR_DIGITS : Z := 4300.

Definition digit_value (c : ascii) : option Z :=
  let n := nat_of_ascii c in
  if ((48 <=? n)%nat && (n <=? 57)%nat)%bool then Some (Z.of_nat (n - 48)) else None.

Fixpoint lstrip (s : string) : string :=
  match s with
  | String c s' => if is_int_space c then lstrip s' else s
  | EmptyString => EmptyString
  end.

(** The value of a numeral of [count] digits, leading zeros counted. *)
Definition int_result (acc count : Z) : option Z :=
  if count >? MAX_STR_DIGITS then None else Some acc.

(** The builtin [int] applied to a [str] of ASCII characters:
    surrounding whitespace is stripped, one sign is allowed, then
    decimal digits, single underscores allowed between digits, at most
    [MAX_STR_DIGITS] digits in all.  [None] is [ValueError].

    Digits after the first one: [count] digits were read so far, and
    [prev_us] records that the previous character was an underscore,
    which must be followed by a digit. *)
Fixpoint int_digits (acc count : Z) (prev_us : bool) (s : string) : option Z :=
  match s with
  | EmptyString => if prev_us then None else int_result acc count
  | String c s' =>
      match digit_value c with
      | Some d => int_digits (10 * acc + d) (count + 1) false s'
      | None =>
          if Ascii.eqb c "_" then
            if prev_us then None else int_digits acc count true s'
          else if is_int_space c then
            if prev_us then None
            else match lstrip s' with
                 | EmptyString => int_result acc count
                 | _ => None
                 end
          else None
      end
  end.

Definition int_unsigned (s : string) : option Z :=
  match s with
  | String c s' =>
      match digit_value c with
      | Some d => int_digits d 1 false s'
      | None => None
      end
  | EmptyString => None
  end.

Definition py_int (s : string) : option Z :=
  match lstrip s with
  | String "-" s' => option_map Z.opp (int_unsigned s')
  | String "+" s' => int_unsigned s'
  | s' => int_unsigned s'
  end.

(** [s.isdigit()] on ASCII text. *)
Fixpoint all_digits (s : string) : bool :=
  match s with
  | EmptyString => true
  | String c s' => match digit_value c with Some _ => all_digits s' | None => false end
  end.

Definition isdigit (s : string) : bool :=
  match s with EmptyString => false | _ => all_digits s end.

(* ================================================================== *)
(** ** Anchor parsing *)
(* ================================================================== *)

Definition LARGER_THAN_MAX_MESSAGE_ID : Z := 10000000000000000.


(* ================================================================== *)
(** ** Terms, rows, conditions and queries *)
(* ================================================================== *)

(** A validated operand: [str], [int] or [list[int]]
    ([check_string], [check_string_or_int], [check_string_or_int_list]). *)
Inductive Operand : Type :=
| OStr (s : string)
| OInt (n : Z)
| OIntList (ns : list Z).

(** [class NarrowParameter(BaseModel)]. *)
Record NarrowParameter : Type := mkTerm {
  operator : string;
  operand : Operand;
  negated : bool
}.

(** The two-argument constructor call [NarrowParameter(operator=..,
    operand=..)]: [negated] takes its default. *)
Definition NarrowParameter_ (op : string) (operand : Operand) : NarrowParameter :=
  mkTerm op operand false.

(** Not in this file: [zerver.lib.narrow_predicate]. *)
Definition channel_operators : list string := ["channel"; "stream"].
Definition channels_operators : list string := ["channels"; "streams"].

Definition str_in (s : string) (l : list string) : bool :=
  existsb (String.eqb s) l.

Definition operand_eq_str (o : Operand) (s : string) : bool :=
  match o with OStr s' => String.eqb s' s | _ => false end.

(** [str(n)] for an integer, and [str(operand)].  [str_of_int] and
    [str_of_operand] give the text for integers of at most
    [MAX_STR_DIGITS] digits; [py_str] below also has the [ValueError]
    of a longer one. *)
Definition digit_char (d : Z) : ascii := ascii_of_nat (48 + Z.to_nat d).

Fixpoint str_of_pos_fuel (fuel : nat) (n : Z) (acc : string) : string :=
  match fuel with
  | O => acc
  | S fuel' =>
      let acc' := String (digit_char (n mod 10)) acc in
      if n / 10 =? 0 then acc' else str_of_pos_fuel fuel' (n / 10) acc'
  end.

Definition str_of_int (n : Z) : string :=
  if n <? 0 then String "-" (str_of_pos_fuel (S (Z.to_nat (Z.log2 (- n)))) (- n) EmptyString)
  else str_of_pos_fuel (S (Z.to_nat (Z.log2 n))) n EmptyString.

Fixpoint join (sep : string) (l : list string) : string :=
  match l with
  | [] => EmptyString
  | [s] => s
  | s :: rest => (s ++ sep ++ join sep rest)%string
  end.

Definition str_of_operand (o : Operand) : string :=
  match o with
  | OStr s => s
  | OInt n => str_of_int n
  | OIntList ns => ("[" ++ join ", " (map str_of_int ns) ++ "]")%string
  end.

(** An integer of more than [MAX_STR_DIGITS] decimal digits. *)
Definition int_too_long (n : Z) : bool := 10 ^ MAX_STR_DIGITS <=? Z.abs n.
Arguments int_too_long : simpl never.

(** [str(operand)]; [None] is the [ValueError] of an integer too long
    to convert. *)
Definition py_str (o : Operand) : option string :=
  match o with
  | OStr s => Some s
  | OInt n => if int_too_long n then None else Some (str_of_int n)
  | OIntList ns => if existsb int_too_long ns then None else Some (str_of_operand o)
  end.

(** A row of the message relation as the queries see it (the joined
    [zerver_usermessage]/[zerver_message] row when the per-user join is
    present).  [r[0]] of a fetched row is [message_id]. *)
Record Row : Type := mkRow {
  message_id : Z;
  realm_id : Z;
  sender_id : Z;
  recipient_id : Z;
  flags : Z;
  has_attachment : bool;
  has_image : bool;
  has_link : bool;
  is_channel_message : bool;
  subject : string;
  content : string
}.

Definition int_column (name : string) (r : Row) : Z :=
  if str_in name ["id"; "message_id"; "zerver_message.id"; "zerver_usermessage.message_id"]
  then message_id r
  else if String.eqb name "realm_id" then realm_id r
  else if String.eqb name "sender_id" then sender_id r
  else if String.eqb name "recipient_id" then recipient_id r
  else if String.eqb name "flags" then flags r
  else 0.

Definition bool_column_value (name : string) (r : Row) : bool :=
  if String.eqb name "has_attachment" then has_attachment r
  else if String.eqb name "has_image" then has_image r
  else if String.eqb name "has_link" then has_link r
  else if String.eqb name "is_channel_message" then is_channel_message r
  else false.

(** SQLAlchemy clause elements built by the module. *)
#[warnings="-register-all"]
Inductive Cond : Type :=
| sa_true
| sa_false
| sa_not (c : Cond)
| and_ (cs : list Cond)
| or_ (cs : list Cond)
| bool_column (name : string)
| int_column_eq (name : string) (v : Z)
| int_column_le (name : string) (v : Z)
| int_column_ge (name : string) (v : Z)
| int_column_in (name : string) (vs : list Z)
| flags_and_ne0 (mask : Z)
| flags_and_eq0 (mask : Z)
| reaction_exists (check_col : string)
| topic_match_sa (topic_name : string)
| topic_ilike (pattern : string)
| content_ilike (pattern : string)
| get_resolved_topic_condition_sa
| get_followed_topic_condition_sa (user_id : Z)
| pgroonga_match (operand : string)
| tsvector_match (operand : string).

(** What the storage engine answers for the SQL fragments whose meaning
    is not fixed by this module. *)
Record Database : Type := mkDatabase {
  db_reaction_exists : Z -> bool;
  db_topic_match : string -> Row -> bool;
  db_ilike : string -> string -> bool;
  db_topic_resolved : Row -> bool;
  db_topic_followed : Z -> Row -> bool;
  db_pgroonga_match : string -> Row -> bool;
  db_tsvector_match : string -> Row -> bool;
  (** the rows of [zerver_message] *)
  db_zerver_message : list Row;
  (** the rows of the join and access filter that
      [get_base_query_for_search] builds over [zerver_usermessage]
      for a user *)
  db_usermessage_join : Z -> list Row
}.

Fixpoint eval_cond (db : Database) (c : Cond) (r : Row) {struct c} : bool :=
  match c with
  | sa_true => true
  | sa_false => false
  | sa_not c' => negb (eval_cond db c' r)
  | and_ cs => forallb (fun c' => eval_cond db c' r) cs
  | or_ cs => existsb (fun c' => eval_cond db c' r) cs
  | bool_column name => bool_column_value name r
  | int_column_eq name v => int_column name r =? v
  | int_column_le name v => int_column name r <=? v
  | int_column_ge name v => int_column name r >=? v
  | int_column_in name vs => existsb (Z.eqb (int_column name r)) vs
  | flags_and_ne0 mask => negb (Z.land (flags r) mask =? 0)
  | flags_and_eq0 mask => Z.land (flags r) mask =? 0
  | reaction_exists check_col => db_reaction_exists db (int_column check_col r)
  | topic_match_sa t => db_topic_match db t r
  | topic_ilike p => db_ilike db (subject r) p
  | content_ilike p => db_ilike db (content r) p
  | get_resolved_topic_condition_sa => db_topic_resolved db r
  | get_followed_topic_condition_sa u => db_topic_followed db u r
  | pgroonga_match o => db_pgroonga_match db o r
  | tsvector_match o => db_tsvector_match db o r
  end.

(** A [Select] before ordering and limiting: the FROM relation (table
    or join, one entry per candidate row), the conjoined WHERE clauses
    and the labels of the columns added to the select list. *)
Record Select : Type := mkSelect {
  from_rows : list Row;
  whereclause : list Cond;
  added_columns : list string
}.

(** [query.where(cond)] *)
Definition where_ (query : Select) (cond : Cond) : Select :=
  mkSelect (from_rows query) (whereclause query ++ [cond]) (added_columns query).

(** [query.add_columns(..)], by the labels of the new columns. *)
Definition add_columns (query : Select) (labels : list string) : Select :=
  mkSelect (from_rows query) (whereclause query) (added_columns query ++ labels).

Inductive Direction : Type := Asc | Desc.

(** The statements [limit_query_to_range] and [fetch_messages] hand to
    the connection. *)
Inductive SelectBase : Type :=
| sb_select (query : Select) (order_by : option (string * Direction)) (limit : option Z)
| sb_union_all (a b : SelectBase)
| sb_ordered_subquery (main_query : SelectBase) (order_by : string * Direction).

Definition run_select (db : Database) (query : Select) : list Row :=
  filter (fun r => forallb (fun c => eval_cond db c r) (whereclause query))
         (from_rows query).

Fixpoint insert_row (key : Row -> Z) (dir : Direction) (x : Row) (l : list Row) : list Row :=
  match l with
  | [] => [x]
  | y :: l' =>
      if (match dir with Asc => key x <=? key y | Desc => key x >=? key y end)
      then x :: l
      else y :: insert_row key dir x l'
  end.

Definition sort_rows (order_by : string * Direction) (l : list Row) : list Row :=
  fold_right (insert_row (int_column (fst order_by)) (snd order_by)) [] l.

Definition apply_order (order_by : option (string * Direction)) (l : list Row) : list Row :=
  match order_by with Some o => sort_rows o l | None => l end.

(** [LIMIT n]; the window planner only passes positive limits. *)
Definition apply_limit (limit : option Z) (l : list Row) : list Row :=
  match limit with Some n => firstn (Z.to_nat n) l | None => l end.

(** [list(sa_conn.execute(query).fetchall())] *)
Fixpoint execute (db : Database) (q : SelectBase) : list Row :=
  match q with
  | sb_select query order_by limit =>
      apply_limit limit (apply_order order_by (run_select db query))
  | sb_union_all a b => execute db a ++ execute db b
  | sb_ordered_subquery main order_by => sort_rows order_by (execute db main)
  end.

(* ================================================================== *)
(** ** Window planning and post-processing *)
(* ================================================================== *)

(** [limit_query_to_range].  The four planning variables are bound only
    in the branch that reads them; an unread one is given as [0]. *)
Definition limit_query_to_range (query : Select) (num_before num_after anchor : Z)
           (include_anchor anchored_to_left anchored_to_right : bool)
           (id_col : string) (first_visible_message_id : Z) : SelectBase :=
  let need_before_query := negb anchored_to_left && (num_before >? 0) in
  let need_after_query := negb anchored_to_right && (num_after >? 0) in
  let need_both_sides := need_before_query && need_after_query in
  let '(before_anchor, before_limit, after_anchor, after_limit) :=
    if need_both_sides then
      (anchor - 1, num_before, Z.max anchor first_visible_message_id, num_after + 1)
    else if need_before_query then
      (anchor - int_of_bool (negb include_anchor),
       (if negb anchored_to_right then num_before + int_of_bool include_anchor
        else num_before),
       0, 0)
    else if need_after_query then
      (0, 0,
       Z.max (anchor + int_of_bool (negb include_anchor)) first_visible_message_id,
       num_after + int_of_bool include_anchor)
    else (0, 0, 0, 0) in
  let before_query :=
    let before_query :=
      if negb anchored_to_right then where_ query (int_column_le id_col before_anchor)
      else query in
    sb_select before_query (Some (id_col, Desc)) (Some before_limit) in
  let after_query :=
    let after_query :=
      if negb anchored_to_left then where_ query (int_column_ge id_col after_anchor)
      else query in
    sb_select after_query (Some (id_col, Asc)) (Some after_limit) in
  if need_both_sides then sb_union_all before_query after_query
  else if need_before_query then before_query
  else if need_after_query then after_query
  else sb_select (where_ query (int_column_eq id_col anchor)) None None.

(** [class LimitedMessages(Generic[MessageRowT])] *)
Record LimitedMessages (MessageRowT : Type) : Type := mkLimitedMessages {
  rows : list MessageRowT;
  found_anchor : bool;
  found_newest : bool;
  found_oldest : bool;
  history_limited : bool
}.
Arguments mkLimitedMessages {MessageRowT}.
Arguments rows {MessageRowT}.
Arguments found_anchor {MessageRowT}.
Arguments found_newest {MessageRowT}.
Arguments found_oldest {MessageRowT}.
Arguments history_limited {MessageRowT}.

Section PostProcess.
Context {MessageRowT : Type}.
(** [r[0]] *)
Variable row0 : MessageRowT -> Z.

(** The rows at or above the visibility floor. *)
Definition visible_rows_of (rows : list MessageRowT) (first_visible_message_id : Z)
  : list MessageRowT :=
  if first_visible_message_id >? 0
  then filter (fun r => row0 r >=? first_visible_message_id) rows
  else rows.

(** [(before_rows, anchor_rows, after_rows)] before truncation. *)
Definition partition_rows (visible_rows : list MessageRowT) (anchor : Z)
           (anchored_to_right : bool)
  : list MessageRowT * list MessageRowT * list MessageRowT :=
  if anchored_to_right then (visible_rows, [], [])
  else (filter (fun r => row0 r <? anchor) visible_rows,
        filter (fun r => row0 r =? anchor) visible_rows,
        filter (fun r => row0 r >? anchor) visible_rows).

Definition post_process_limited_query (rows : list MessageRowT)
           (num_before num_after anchor : Z)
           (anchored_to_left anchored_to_right : bool)
           (first_visible_message_id : Z) : LimitedMessages MessageRowT :=
  let visible_rows := visible_rows_of rows first_visible_message_id in
  let rows_limited := negb (len visible_rows =? len rows) in
  let num_after := if anchored_to_right then 0 else num_after in
  let '(before_rows, anchor_rows, after_rows) :=
    partition_rows visible_rows anchor anchored_to_right in
  let before_rows :=
    if negb (num_before =? 0) then py_slice_from (-1 * num_before) before_rows
    else before_rows in
  let after_rows :=
    if negb (num_after =? 0) then py_slice_to num_after after_rows
    else after_rows in
  let limited_rows := before_rows ++ anchor_rows ++ after_rows in
  let found_anchor := len anchor_rows =? 1 in
  let found_oldest := anchored_to_left || (len before_rows <? num_before) in
  let found_newest := anchored_to_right || (len after_rows <? num_after) in
  let history_limited := rows_limited && found_oldest in
  mkLimitedMessages limited_rows found_anchor found_newest found_oldest history_limited.
End PostProcess.

(* ================================================================== *)
(** ** Collaborators of the narrow compiler *)
(* ================================================================== *)

Record Realm : Type := mkRealm {
  realm_pk : Z;
  is_zephyr_mirror_realm : bool
}.

Record Stream : Type := mkStream {
  stream_pk : Z;
  stream_name : string;
  stream_recipient_id : option Z;
  is_web_public : bool;
  stream_is_public : bool
}.

Record UserProfile : Type := mkUserProfile {
  user_pk : Z;
  user_recipient_id : Z;
  user_realm : Realm;
  can_access_public_streams : bool
}.

Inductive RecipientType : Type := PERSONAL | STREAM | DIRECT_MESSAGE_GROUP.

Record Recipient : Type := mkRecipient {
  recipient_pk : Z;
  recipient_type : RecipientType;
  type_id : Z
}.

(** What the rewrite of the [with] operator reads of a [Message]. *)
Record Message : Type := mkMessage {
  message_recipient : Recipient;
  message_topic_name : string
}.

(** [UserProfile | AnonymousUser] *)
Inductive MaybeUser : Type :=
| Authenticated (u : UserProfile)
| AnonymousUser.

(** The exceptions the [try] blocks of the module catch from a callee. *)
Inductive Exc : Type := exc_JsonableError | exc_ValidationError | exc_DoesNotExist.

Inductive Outcome (A : Type) : Type :=
| Returned (a : A)
| Raised (x : Exc).
Arguments Returned {A} a.
Arguments Raised {A} x.

(** [UserMessage.flags.<name>.mask] *)
Record FlagMasks : Type := mkFlagMasks {
  mask_read : Z;
  mask_starred : Z;
  mask_mentioned : Z;
  mask_stream_wildcard_mentioned : Z;
  mask_topic_wildcard_mentioned : Z;
  mask_group_mentioned : Z;
  mask_has_alert_word : Z;
  mask_is_private : Z
}.

(** Functions and settings imported from the rest of the server.  A
    lookup answering [None] raised its model's [DoesNotExist]. *)
Record Collaborators : Type := mkCollaborators {
  get_stream_by_narrow_operand_access_unchecked : Operand -> Realm -> option Stream;
  get_public_streams_recipient_ids : Realm -> list Z;
  get_web_public_streams_recipient_ids : Realm -> list Z;
  (** [get_active_streams(realm).filter(name__iregex=..)] of the Zephyr
      branch of [by_channel], with the base name and its escaping *)
  zephyr_matching_recipient_ids : Realm -> Stream -> list Z;
  get_user_including_cross_realm : string -> Realm -> option UserProfile;
  get_user_by_id_in_realm_including_cross_realm : Operand -> Realm -> option UserProfile;
  get_user_profiles : list string -> Realm -> Outcome (list UserProfile);
  get_user_profiles_by_ids : Operand -> Realm -> Outcome (list UserProfile);
  recipient_for_user_profiles : list UserProfile -> UserProfile -> Outcome Recipient;
  (** [recipient_id]s of the direct-message-group subscriptions of a user *)
  direct_message_group_subscriptions : UserProfile -> list Z;
  exclude_stream_and_topic_mutes : list Cond -> UserProfile -> option Z -> list Cond;
  can_access_stream_history_by_name : UserProfile -> string -> bool;
  can_access_stream_history_by_id : UserProfile -> Operand -> bool;
  prep_for_like_query : string -> string;
  (** [None]: the call raised [JsonableError] *)
  access_message : UserProfile -> Z -> option Message;
  (** [None]: the call raised [MissingAuthenticationError] *)
  access_web_public_message : Realm -> Z -> option Message;
  get_direct_message_group_user_ids : Recipient -> list Z;
  maybe_rename_general_chat_to_empty_topic : Operand -> Operand;
  get_first_visible_message_id : Realm -> Z;
  USING_PGROONGA : bool;
  MAX_POSSIBLE_MESSAGE_ID : Z;
  flag_masks : FlagMasks
}.

(* ------------------------------------------------------------------ *)
(** *** String helpers of the handlers *)
(* ------------------------------------------------------------------ *)

(** [s.split(sep)] for a one-character separator *)
Fixpoint split_on (sep : ascii) (s : string) : list string :=
  match s with
  | EmptyString => [EmptyString]
  | String c s' =>
      if Ascii.eqb c sep then EmptyString :: split_on sep s'
      else match split_on sep s' with
           | w :: ws => String c w :: ws
           | [] => [String c EmptyString]
           end
  end.

(** Group 1 of the case-insensitive search for a lazy prefix followed
    by repeated [.d] in [by_topic].  The dot of the pattern does not
    match a line feed and its [$] matches at the end and before a final
    line feed: the search fails ([None]) when the operand has a line
    feed before its last character, and otherwise gives the operand
    without a final line feed and without its trailing [.d]s. *)
Fixpoint strip_dot_d_rev (l : list ascii) : list ascii :=
  match l with
  | d :: rest =>
      match rest with
      | dot :: rest' =>
          if ((Ascii.eqb d "d" || Ascii.eqb d "D") && Ascii.eqb dot ".")%bool
          then strip_dot_d_rev rest' else l
      | [] => l
      end
  | [] => []
  end.

Definition line_feed : ascii := ascii_of_nat 10.

Definition zephyr_base_topic (operand : string) : option string :=
  let reversed := rev (list_ascii_of_string operand) in
  let body :=
    match reversed with
    | c :: rest => if Ascii.eqb c line_feed then rest else reversed
    | [] => reversed
    end in
  if existsb (Ascii.eqb line_feed) body then None
  else Some (string_of_list_ascii (rev (strip_dot_d_rev body))).

(** The [re.findall] of [_by_search_tsearch]: a double-quoted run of
    one or more non-quote characters, else a run of non-whitespace. *)
Definition dquote : ascii := ascii_of_nat 34.

Fixpoint take_until_quote (s : string) : option (string * string) :=
  match s with
  | EmptyString => None
  | String c s' =>
      if Ascii.eqb c dquote then Some (EmptyString, s')
      else match take_until_quote s' with
           | Some (inner, rest) => Some (String c inner, rest)
           | None => None
           end
  end.

Fixpoint take_nonspace (s : string) : string * string :=
  match s with
  | EmptyString => (EmptyString, EmptyString)
  | String c s' =>
      if is_space c then (EmptyString, s)
      else let '(w, rest) := take_nonspace s' in (String c w, rest)
  end.

Fixpoint findall_terms (fuel : nat) (s : string) : list string :=
  match fuel with
  | O => []
  | S fuel' =>
      match s with
      | EmptyString => []
      | String c s' =>
          if is_space c then findall_terms fuel' s'
          else
            let word := let '(w, rest) := take_nonspace s in w :: findall_terms fuel' rest in
            if Ascii.eqb c dquote then
              match take_until_quote s' with
              | Some (String i inner, rest) =>
                  (String dquote (String i inner) ++ String dquote EmptyString)%string
                    :: findall_terms fuel' rest
              | _ => word
              end
            else word
      end
  end.

Definition re_findall_terms (operand : string) : list string :=
  findall_terms (String.length operand) operand.

Definition first_char (s : string) : option ascii :=
  match s with String c _ => Some c | EmptyString => None end.

Fixpoint last_char (s : string) : option ascii :=
  match s with
  | EmptyString => None
  | String c EmptyString => Some c
  | String _ s' => last_char s'
  end.

Fixpoint drop_last (s : string) : string :=
  match s with
  | EmptyString => EmptyString
  | String _ EmptyString => EmptyString
  | String c s' => String c (drop_last s')
  end.

(** [term[1:-1]] *)
Definition strip_ends (s : string) : string :=
  match s with String _ s' => drop_last s' | EmptyString => EmptyString end.

Definition is_quote (c : option ascii) : bool :=
  match c with Some c => Ascii.eqb c dquote | None => false end.

(* ================================================================== *)
(** ** NarrowBuilder *)
(* ================================================================== *)

(** The two mutable fields of a builder. *)
Record BuilderState : Type := mkBuilderState {
  is_channel_narrow : bool;
  is_dm_narrow : bool
}.

(** A builder method: reads and writes the fields, returns or raises. *)
Definition Builder (A : Type) : Type := BuilderState -> Result (A * BuilderState).

Definition ret {A} (a : A) : Builder A := fun st => Ok (a, st).

Definition raise {A} (e : Error) : Builder A := fun _ => Err e.

Definition bind {A B} (m : Builder A) (k : A -> Builder B) : Builder B :=
  fun st => match m st with
            | Ok (a, st') => k a st'
            | Err e => Err e
            end.

Notation "x <- m ;; k" := (bind m (fun x => k))
  (at level 61, m at next level, right associativity).
Notation "m ;;; k" := (bind m (fun _ => k))
  (at level 61, right associativity).

(** [assert cond] *)
Definition assert_ (cond : bool) : Builder unit :=
  if cond then ret tt else raise AssertionError.

(** [ConditionTransform]: the builder passes either [not_] itself or a
    fresh identity lambda, and tests which with [maybe_negate is not_]. *)
Inductive ConditionTransform : Type := not_ | identity_lambda.

Definition is_not_ (maybe_negate : ConditionTransform) : bool :=
  match maybe_negate with not_ => true | identity_lambda => false end.

Definition apply_transform (maybe_negate : ConditionTransform) (cond : Cond) : Cond :=
  match maybe_negate with not_ => sa_not cond | identity_lambda => cond end.

Definition both_channel_and_dm_message : string :=
  "No message can be both a channel message and direct message".

Definition check_not_both_channel_and_dm_narrow (maybe_negate : ConditionTransform)
           (is_dm_narrow_arg is_channel_narrow_arg : bool) : Builder unit :=
  fun self =>
    if is_not_ maybe_negate then Ok (tt, self)
    else
      let self := if is_dm_narrow_arg
                  then mkBuilderState (is_channel_narrow self) true else self in
      let self := if is_channel_narrow_arg
                  then mkBuilderState true (is_dm_narrow self) else self in
      if is_channel_narrow self && is_dm_narrow self
      then Err (BadNarrowOperatorError both_channel_and_dm_message)
      else Ok (tt, self).

Inductive Method : Type :=
| m_by_has | m_by_in | m_by_is | m_by_channel | m_by_channels | m_by_topic
| m_by_sender | m_by_near | m_by_id | m_by_search | m_by_dm
| m_by_dm_including | m_by_group_pm_with.

Definition by_method_map : list (string * Method) :=
  [ ("has", m_by_has); ("in", m_by_in); ("is", m_by_is);
    ("channel", m_by_channel); ("stream", m_by_channel);
    ("channels", m_by_channels); ("streams", m_by_channels);
    ("topic", m_by_topic); ("sender", m_by_sender); ("near", m_by_near);
    ("id", m_by_id); ("search", m_by_search);
    ("dm", m_by_dm); ("pm-with", m_by_dm);
    ("dm-including", m_by_dm_including);
    ("group-pm-with", m_by_group_pm_with);
    ("pm_with", m_by_dm); ("group_pm_with", m_by_group_pm_with) ].

Fixpoint lookup {A} (key : string) (m : list (string * A)) : option A :=
  match m with
  | [] => None
  | (k, v) :: m' => if String.eqb key k then Some v else lookup key m'
  end.

(** [get_channel_from_narrow_access_unchecked] *)
Fixpoint get_channel_from_narrow_terms (env : Collaborators)
         (narrow : list NarrowParameter) (realm : Realm) : Outcome (option Stream) :=
  match narrow with
  | [] => Returned None
  | term :: narrow' =>
      if str_in (operator term) channel_operators then
        match get_stream_by_narrow_operand_access_unchecked env (operand term) realm with
        | Some channel => Returned (Some channel)
        | None => Raised exc_DoesNotExist
        end
      else get_channel_from_narrow_terms env narrow' realm
  end.

Definition get_channel_from_narrow_access_unchecked (env : Collaborators)
           (narrow : option (list NarrowParameter)) (realm : Realm)
  : Outcome (option Stream) :=
  match narrow with
  | Some narrow => get_channel_from_narrow_terms env narrow realm
  | None => Returned None
  end.

Definition exclude_muting_conditions (env : Collaborators) (user_profile : UserProfile)
           (narrow : option (list NarrowParameter)) : list Cond :=
  let conditions : list Cond := [] in
  let channel_id :=
    match get_channel_from_narrow_access_unchecked env narrow (user_realm user_profile) with
    | Returned (Some channel) => Some (stream_pk channel)
    | Returned None => None
    | Raised _ => None
    end in
  exclude_stream_and_topic_mutes env conditions user_profile channel_id.

(** The constructor arguments of a builder, fixed for its lifetime. *)
Record NarrowBuilder : Type := mkNarrowBuilder {
  user_profile : option UserProfile;
  msg_id_column : string;
  realm : Realm;
  is_web_public_query : bool
}.

(** [int(operand)] for a string or an integer; [None] is the
    [ValueError] of a string [int] rejects. *)
Definition int_of_operand (o : Operand) : option Z :=
  match o with
  | OStr s => py_int s
  | OInt n => Some n
  | OIntList _ => None
  end.

Section Handlers.
Variable env : Collaborators.
Variable self : NarrowBuilder.

(** The pair of asserts opening the handlers that need a user. *)
Definition assert_user : Builder UserProfile :=
  assert_ (negb (is_web_public_query self)) ;;;
  match user_profile self with
  | Some u => ret u
  | None => raise AssertionError
  end.

Definition is_private_cond : Cond := flags_and_ne0 (mask_is_private (flag_masks env)).

Definition by_has (query : Select) (operand : Operand)
           (maybe_negate : ConditionTransform) : Builder Select :=
  match operand with
  | OStr operand =>
      if negb (str_in operand ["attachment"; "image"; "link"; "reaction"]) then
        raise (BadNarrowOperatorError ("unknown 'has' operand " ++ operand))
      else if String.eqb operand "reaction" then
        let check_col :=
          if String.eqb (msg_id_column self) "message_id"
          then "zerver_usermessage.message_id" else "zerver_message.id" in
        let exists_cond := reaction_exists check_col in
        ret (where_ query (apply_transform maybe_negate exists_cond))
      else
        let col_name := ("has_" ++ operand)%string in
        let cond := bool_column col_name in
        ret (where_ query (apply_transform maybe_negate cond))
  | _ => raise TypeError
  end.

Definition by_in (query : Select) (operand : Operand)
           (maybe_negate : ConditionTransform) : Builder Select :=
  user <- assert_user ;;
  match operand with
  | OStr operand =>
      if String.eqb operand "home" then
        let conditions :=
          exclude_muting_conditions env user (Some [NarrowParameter_ "in" (OStr "home")]) in
        match conditions with
        | _ :: _ => ret (where_ query (apply_transform maybe_negate (and_ conditions)))
        | [] => ret (where_ query (apply_transform maybe_negate sa_true))
        end
      else if String.eqb operand "all" then ret query
      else raise (BadNarrowOperatorError ("unknown 'in' operand " ++ operand))
  | _ => raise TypeError
  end.

Definition by_is (query : Select) (operand : Operand)
           (maybe_negate : ConditionTransform) : Builder Select :=
  if operand_eq_str operand "resolved" then
    let cond := get_resolved_topic_condition_sa in
    ret (where_ query (apply_transform maybe_negate cond))
  else
    user <- assert_user ;;
    match operand with
    | OStr operand =>
        let masks := flag_masks env in
        if str_in operand ["dm"; "private"] then
          (if is_not_ maybe_negate
           then check_not_both_channel_and_dm_narrow identity_lambda false true
           else check_not_both_channel_and_dm_narrow maybe_negate true false) ;;;
          ret (where_ query (apply_transform maybe_negate is_private_cond))
        else if String.eqb operand "starred" then
          ret (where_ query (apply_transform maybe_negate
                               (flags_and_ne0 (mask_starred masks))))
        else if String.eqb operand "unread" then
          ret (where_ query (apply_transform maybe_negate
                               (flags_and_eq0 (mask_read masks))))
        else if String.eqb operand "mentioned" then
          let mention_flags_mask :=
            Z.lor (Z.lor (Z.lor (mask_mentioned masks)
                                (mask_stream_wildcard_mentioned masks))
                         (mask_topic_wildcard_mentioned masks))
                  (mask_group_mentioned masks) in
          ret (where_ query (apply_transform maybe_negate
                               (flags_and_ne0 mention_flags_mask)))
        else if String.eqb operand "alerted" then
          ret (where_ query (apply_transform maybe_negate
                               (flags_and_ne0 (mask_has_alert_word masks))))
        else if String.eqb operand "followed" then
          ret (where_ query (apply_transform maybe_negate
                               (get_followed_topic_condition_sa (user_pk user))))
        else if String.eqb operand "muted" then
          let conditions :=
            exclude_muting_conditions env user
              (Some [NarrowParameter_ "is" (OStr "muted")]) in
          match conditions with
          | _ :: _ =>
              ret (where_ query (apply_transform maybe_negate (sa_not (and_ conditions))))
          | [] => ret (where_ query (apply_transform maybe_negate sa_false))
          end
        else raise (BadNarrowOperatorError ("unknown 'is' operand " ++ operand))
    | _ => raise TypeError
    end.

Definition by_channel (query : Select) (operand : Operand)
           (maybe_negate : ConditionTransform) : Builder Select :=
  check_not_both_channel_and_dm_narrow maybe_negate false true ;;;
  match get_stream_by_narrow_operand_access_unchecked env operand (realm self) with
  | None => raise (BadNarrowOperatorError ("unknown channel " ++ str_of_operand operand))
  | Some channel =>
      if is_web_public_query self && negb (is_web_public channel) then
        raise (BadNarrowOperatorError
                 ("unknown web-public channel " ++ str_of_operand operand))
      else if is_zephyr_mirror_realm (realm self) then
        assert_ (negb (stream_is_public channel)) ;;;
        let recipient_ids := zephyr_matching_recipient_ids env (realm self) channel in
        let cond := int_column_in "recipient_id" recipient_ids in
        ret (where_ query (apply_transform maybe_negate cond))
      else
        match stream_recipient_id channel with
        | None => raise AssertionError
        | Some recipient_id =>
            let cond := int_column_eq "recipient_id" recipient_id in
            ret (where_ query (apply_transform maybe_negate cond))
        end
  end.

Definition by_channels (query : Select) (operand : Operand)
           (maybe_negate : ConditionTransform) : Builder Select :=
  check_not_both_channel_and_dm_narrow maybe_negate false true ;;;
  match operand with
  | OStr operand =>
      if String.eqb operand "public" then
        let recipient_ids := get_public_streams_recipient_ids env (realm self) in
        ret (where_ query (apply_transform maybe_negate
                             (int_column_in "recipient_id" recipient_ids)))
      else if String.eqb operand "web-public" then
        let recipient_ids := get_web_public_streams_recipient_ids env (realm self) in
        ret (where_ query (apply_transform maybe_negate
                             (int_column_in "recipient_id" recipient_ids)))
      else raise (BadNarrowOperatorError ("unknown channels operand " ++ operand))
  | _ => raise TypeError
  end.

(** The topic spelled [(instance ] two double quotes [)]. *)
Definition instance_empty : string :=
  ("(instance " ++ String dquote (String dquote ")"))%string.

Definition with_dot_d (base : string) : list Cond :=
  [ topic_match_sa base;
    topic_match_sa (base ++ ".d");
    topic_match_sa (base ++ ".d.d");
    topic_match_sa (base ++ ".d.d.d");
    topic_match_sa (base ++ ".d.d.d.d") ].

Definition by_topic (query : Select) (operand : Operand)
           (maybe_negate : ConditionTransform) : Builder Select :=
  check_not_both_channel_and_dm_narrow maybe_negate false true ;;;
  match operand with
  | OStr operand =>
      if is_zephyr_mirror_realm (realm self) then
        match zephyr_base_topic operand with
        | None => raise AssertionError
        | Some base_topic =>
            let cond :=
              if str_in base_topic [EmptyString; "personal"; instance_empty]
              then or_ (with_dot_d EmptyString ++ with_dot_d "personal"
                            ++ with_dot_d instance_empty)
              else or_ (with_dot_d base_topic) in
            ret (where_ query (apply_transform maybe_negate cond))
        end
      else
        let cond := topic_match_sa operand in
        ret (where_ query (apply_transform maybe_negate cond))
  | _ => raise TypeError
  end.

Definition by_sender (query : Select) (operand : Operand)
           (maybe_negate : ConditionTransform) : Builder Select :=
  let found :=
    match operand with
    | OStr s => get_user_including_cross_realm env s (realm self)
    | _ => get_user_by_id_in_realm_including_cross_realm env operand (realm self)
    end in
  match found with
  | None => raise (BadNarrowOperatorError ("unknown user " ++ str_of_operand operand))
  | Some sender =>
      let cond := int_column_eq "sender_id" (user_pk sender) in
      ret (where_ query (apply_transform maybe_negate cond))
  end.

Definition by_near (query : Select) (operand : Operand)
           (maybe_negate : ConditionTransform) : Builder Select :=
  ret query.

(** [by_id]: neither [str(operand)] nor [int(operand)] is inside a
    [try], so their [ValueError] leaves the handler. *)
Definition by_id (query : Select) (operand : Operand)
           (maybe_negate : ConditionTransform) : Builder Select :=
  match py_str operand with
  | None => raise ValueError
  | Some text =>
      if negb (isdigit text) then
        raise (BadNarrowOperatorError "Invalid message ID")
      else
        match operand with
        | OIntList _ => raise TypeError
        | _ =>
            match int_of_operand operand with
            | None => raise ValueError
            | Some n =>
                if n >? MAX_POSSIBLE_MESSAGE_ID env then
                  raise (BadNarrowOperatorError "Invalid message ID")
                else
                  let cond := int_column_eq (msg_id_column self) n in
                  ret (where_ query (apply_transform maybe_negate cond))
            end
        end
  end.

(** The value of [other_participant] after the loop over
    [user_profiles]: the last user who is not the requester. *)
Definition find_other_participant (me : UserProfile) (user_profiles : list UserProfile)
  : option UserProfile :=
  fold_left (fun other user => if negb (user_pk user =? user_pk me) then Some user else other)
            user_profiles None.

(** The part of [by_dm] after the recipient is known. *)
Definition by_dm_recipient (me : UserProfile) (query : Select)
           (user_profiles : list UserProfile) (recipient : Recipient)
           (maybe_negate : ConditionTransform) : Select :=
  match recipient_type recipient with
  | DIRECT_MESSAGE_GROUP =>
      let cond := int_column_eq "recipient_id" (recipient_pk recipient) in
      where_ query (apply_transform maybe_negate cond)
  | _ =>
      match find_other_participant me user_profiles with
      | Some other_participant =>
          let self_recipient_id := user_recipient_id me in
          let cond :=
            and_ [ is_private_cond;
                     int_column_eq "realm_id" (realm_pk (realm self));
                     or_ [ and_ [ int_column_eq "sender_id" (user_pk other_participant);
                                      int_column_eq "recipient_id" self_recipient_id ];
                             and_ [ int_column_eq "sender_id" (user_pk me);
                                      int_column_eq "recipient_id" (recipient_pk recipient) ] ] ] in
          where_ query (apply_transform maybe_negate cond)
      | None =>
          let cond :=
            and_ [ is_private_cond;
                     int_column_eq "realm_id" (realm_pk (realm self));
                     int_column_eq "sender_id" (user_pk me);
                     int_column_eq "recipient_id" (recipient_pk recipient) ] in
          where_ query (apply_transform maybe_negate cond)
      end
  end.

(** What the [except] clauses of [by_dm] do with a raised exception. *)
Definition by_dm_except (query : Select) (operand : Operand)
           (maybe_negate : ConditionTransform) (x : Exc) : Builder Select :=
  match x with
  | exc_JsonableError | exc_ValidationError =>
      raise (BadNarrowOperatorError ("unknown user in " ++ str_of_operand operand))
  | exc_DoesNotExist => ret (where_ query (apply_transform maybe_negate sa_false))
  end.

Definition by_dm (query : Select) (operand : Operand)
           (maybe_negate : ConditionTransform) : Builder Select :=
  me <- assert_user ;;
  check_not_both_channel_and_dm_narrow maybe_negate true false ;;;
  let looked_up :=
    match operand with
    | OStr s =>
        let email_list := split_on "," s in
        get_user_profiles env email_list (realm self)
    | _ => get_user_profiles_by_ids env operand (realm self)
    end in
  match looked_up with
  | Raised x => by_dm_except query operand maybe_negate x
  | Returned [] => ret (where_ query (apply_transform maybe_negate sa_false))
  | Returned user_profiles =>
      match recipient_for_user_profiles env user_profiles me with
      | Raised x => by_dm_except query operand maybe_negate x
      | Returned recipient =>
          ret (by_dm_recipient me query user_profiles recipient maybe_negate)
      end
  end.

(** [set(self_recipient_ids) & set(narrow_recipient_ids)] *)
Definition _get_direct_message_group_recipients (me other_user : UserProfile) : list Z :=
  let self_recipient_ids := direct_message_group_subscriptions env me in
  let narrow_recipient_ids := direct_message_group_subscriptions env other_user in
  filter (fun rid => existsb (Z.eqb rid) narrow_recipient_ids) self_recipient_ids.

Definition lookup_user (operand : Operand) : option UserProfile :=
  match operand with
  | OStr s => get_user_including_cross_realm env s (realm self)
  | _ => get_user_by_id_in_realm_including_cross_realm env operand (realm self)
  end.

Definition by_dm_including (query : Select) (operand : Operand)
           (maybe_negate : ConditionTransform) : Builder Select :=
  me <- assert_user ;;
  check_not_both_channel_and_dm_narrow maybe_negate true false ;;;
  match lookup_user operand with
  | None => raise (BadNarrowOperatorError ("unknown user " ++ str_of_operand operand))
  | Some narrow_user_profile =>
      if user_pk narrow_user_profile =? user_pk me then
        ret (where_ query (apply_transform maybe_negate is_private_cond))
      else
        let direct_message_group_recipient_ids :=
          _get_direct_message_group_recipients me narrow_user_profile in
        let self_recipient_id := user_recipient_id me in
        let cond :=
          and_ [ is_private_cond;
                   int_column_eq "realm_id" (realm_pk (realm self));
                   or_ [ and_ [ int_column_eq "sender_id" (user_pk narrow_user_profile);
                                    int_column_eq "recipient_id" self_recipient_id ];
                           and_ [ int_column_eq "sender_id" (user_pk me);
                                    int_column_eq "recipient_id"
                                      (user_recipient_id narrow_user_profile) ];
                           and_ [ int_column_in "recipient_id"
                                      direct_message_group_recipient_ids ] ] ] in
        ret (where_ query (apply_transform maybe_negate cond))
  end.

Definition by_group_pm_with (query : Select) (operand : Operand)
           (maybe_negate : ConditionTransform) : Builder Select :=
  me <- assert_user ;;
  check_not_both_channel_and_dm_narrow maybe_negate true false ;;;
  match lookup_user operand with
  | None => raise (BadNarrowOperatorError ("unknown user " ++ str_of_operand operand))
  | Some narrow_profile =>
      let recipient_ids := _get_direct_message_group_recipients me narrow_profile in
      let cond :=
        and_ [ is_private_cond;
                 int_column_eq "realm_id" (realm_pk (realm self));
                 int_column_in "recipient_id" recipient_ids ] in
      ret (where_ query (apply_transform maybe_negate cond))
  end.

Definition _by_search_pgroonga (query : Select) (operand : string)
           (maybe_negate : ConditionTransform) : Select :=
  let query := add_columns query ["content_matches"; "topic_matches"] in
  let condition := pgroonga_match operand in
  where_ query (apply_transform maybe_negate condition).

(** The loop of [_by_search_tsearch] over the quoted phrases. *)
Definition add_quoted_term (maybe_negate : ConditionTransform)
           (query : Select) (term : string) : Select :=
  if is_quote (first_char term) && is_quote (last_char term) then
    let term := strip_ends term in
    let term := ("%" ++ prep_for_like_query env term ++ "%")%string in
    let cond := or_ [ content_ilike term;
                        and_ [ topic_ilike term; bool_column "is_channel_message" ] ] in
    where_ query (apply_transform maybe_negate cond)
  else query.

Definition _by_search_tsearch (query : Select) (operand : string)
           (maybe_negate : ConditionTransform) : Select :=
  let query := add_columns query ["content_matches"; "topic_matches"] in
  let query := fold_left (add_quoted_term maybe_negate) (re_findall_terms operand) query in
  let cond := tsvector_match operand in
  where_ query (apply_transform maybe_negate cond).

Definition by_search (query : Select) (operand : Operand)
           (maybe_negate : ConditionTransform) : Builder Select :=
  match operand with
  | OStr operand =>
      if USING_PGROONGA env then ret (_by_search_pgroonga query operand maybe_negate)
      else ret (_by_search_tsearch query operand maybe_negate)
  | _ => raise TypeError
  end.

Definition call_method (method : Method)
  : Select -> Operand -> ConditionTransform -> Builder Select :=
  match method with
  | m_by_has => by_has
  | m_by_in => by_in
  | m_by_is => by_is
  | m_by_channel => by_channel
  | m_by_channels => by_channels
  | m_by_topic => by_topic
  | m_by_sender => by_sender
  | m_by_near => by_near
  | m_by_id => by_id
  | m_by_search => by_search
  | m_by_dm => by_dm
  | m_by_dm_including => by_dm_including
  | m_by_group_pm_with => by_group_pm_with
  end.

Definition add_term (query : Select) (term : NarrowParameter) : Builder Select :=
  let operator := operator term in
  let operand := operand term in
  let negated := negated term in
  match lookup operator by_method_map with
  | None => raise (BadNarrowOperatorError ("unknown operator " ++ operator))
  | Some method =>
      let maybe_negate := if negated then not_ else identity_lambda in
      call_method method query operand maybe_negate
  end.

(** The loop of [add_narrow_conditions]: [search] operands are set
    aside, every other term goes through [add_term]. *)
Fixpoint add_terms_loop (narrow : list NarrowParameter) (query : Select)
         (search_operands : list Operand) : Builder (Select * list Operand) :=
  match narrow with
  | [] => ret (query, search_operands)
  | term :: narrow' =>
      if String.eqb (operator term) "search" then
        add_terms_loop narrow' query (search_operands ++ [operand term])
      else
        query <- add_term query term ;;
        add_terms_loop narrow' query search_operands
  end.

(** [" ".join(search_operands)], a [TypeError] on a non-string. *)
Fixpoint strings_of_operands (l : list Operand) : option (list string) :=
  match l with
  | [] => Some []
  | OStr s :: l' => option_map (cons s) (strings_of_operands l')
  | _ :: _ => None
  end.
End Handlers.

(** [add_narrow_conditions]: the result is
    [(query, is_search, builder.is_dm_narrow)]. *)
Definition add_narrow_conditions (env : Collaborators) (user_profile : option UserProfile)
           (inner_msg_id_col : string) (query : Select)
           (narrow : option (list NarrowParameter)) (is_web_public_query : bool)
           (realm : Realm) : Result (Select * bool * bool) :=
  let is_search := false in
  match narrow with
  | None => Ok (query, is_search, false)
  | Some narrow =>
      let builder := mkNarrowBuilder user_profile inner_msg_id_col realm is_web_public_query in
      let compiled :=
        ( looped <- add_terms_loop env builder narrow query [] ;;
          let '(query, search_operands) := looped in
          match search_operands with
          | [] => ret (query, is_search)
          | _ :: _ =>
              let is_search := true in
              let query := add_columns query ["escaped_topic_name"; "rendered_content"] in
              match strings_of_operands search_operands with
              | None => raise TypeError
              | Some operands =>
                  let search_term := NarrowParameter_ "search" (OStr (join " " operands)) in
                  query <- add_term env builder query search_term ;;
                  ret (query, is_search)
              end
          end ) in
      match compiled (mkBuilderState false false) with
      | Ok ((query, is_search), builder_state) =>
          Ok (query, is_search, is_dm_narrow builder_state)
      | Err e => Err e
      end
  end.

(* ================================================================== *)
(** ** History policy *)
(* ================================================================== *)

Definition ok_to_include_history (env : Collaborators)
           (narrow : option (list NarrowParameter))
           (user_profile : option UserProfile) (is_web_public_query : bool) : Result bool :=
  if is_web_public_query then
    match user_profile with
    | None => Ok true
    | Some _ => Err AssertionError
    end
  else
    match user_profile with
    | None => Err AssertionError
    | Some user_profile =>
        let include_history := false in
        match narrow with
        | None => Ok include_history
        | Some narrow =>
            let include_history :=
              fold_left
                (fun include_history term =>
                   if str_in (operator term) channel_operators && negb (negated term) then
                     match operand term with
                     | OStr operand =>
                         can_access_stream_history_by_name env user_profile operand
                     | operand => can_access_stream_history_by_id env user_profile operand
                     end
                   else if str_in (operator term) channels_operators
                           && operand_eq_str (operand term) "public"
                           && negb (negated term)
                           && can_access_public_streams user_profile
                   then true
                   else include_history)
                narrow include_history in
            let include_history :=
              fold_left
                (fun include_history term =>
                   if String.eqb (operator term) "is"
                      && negb (operand_eq_str (operand term) "resolved")
                   then false else include_history)
                narrow include_history in
            Ok include_history
        end
    end.

(* ================================================================== *)
(** ** Narrow normalisation *)
(* ================================================================== *)

(** The loop of [can_narrow_define_conversation]. *)
Fixpoint can_narrow_define_conversation_loop (narrow : list NarrowParameter)
         (contains_channel_term contains_topic_term : bool) : bool :=
  match narrow with
  | [] => false
  | term :: narrow' =>
      if str_in (operator term) ["dm"; "pm-with"] then true
      else
        let contains_channel_term :=
          if str_in (operator term) ["stream"; "channel"] then true
          else contains_channel_term in
        let contains_topic_term :=
          if negb (str_in (operator term) ["stream"; "channel"])
             && String.eqb (operator term) "topic"
          then true else contains_topic_term in
        if contains_channel_term && contains_topic_term then true
        else can_narrow_define_conversation_loop narrow'
               contains_channel_term contains_topic_term
  end.

Definition can_narrow_define_conversation (narrow : list NarrowParameter) : bool :=
  can_narrow_define_conversation_loop narrow false false.

(** [update_narrow_terms_containing_empty_topic_fallback_name] on the
    list of terms: the first [topic] term has its operand renamed. *)
Fixpoint rename_first_topic (env : Collaborators) (narrow : list NarrowParameter)
  : list NarrowParameter :=
  match narrow with
  | [] => []
  | term :: narrow' =>
      if String.eqb (operator term) "topic" then
        mkTerm (operator term)
               (maybe_rename_general_chat_to_empty_topic env (operand term))
               (negated term) :: narrow'
      else term :: rename_first_topic env narrow'
  end.

Definition update_narrow_terms_containing_empty_topic_fallback_name
           (env : Collaborators) (narrow : option (list NarrowParameter))
  : option (list NarrowParameter) :=
  option_map (rename_first_topic env) narrow.

(** Field-wise equality of two terms, as [==] on the models. *)
Definition Operand_eqb (a b : Operand) : bool :=
  match a, b with
  | OStr s, OStr t => String.eqb s t
  | OInt n, OInt m => n =? m
  | OIntList l, OIntList k => if list_eq_dec Z.eq_dec l k then true else false
  | _, _ => false
  end.

Definition NarrowParameter_eqb (a b : NarrowParameter) : bool :=
  String.eqb (operator a) (operator b)
  && Operand_eqb (operand a) (operand b)
  && Bool.eqb (negated a) (negated b).

(** [narrow.remove(x)] when [x] occurs: the first term equal to it goes. *)
Fixpoint list_remove (x : NarrowParameter) (narrow : list NarrowParameter)
  : list NarrowParameter :=
  match narrow with
  | [] => []
  | term :: narrow' =>
      if NarrowParameter_eqb term x then narrow' else term :: list_remove x narrow'
  end.

Definition invalid_with_operator : Error :=
  BadNarrowOperatorError "Invalid 'with' operator".

Definition update_narrow_terms_containing_with_operator (env : Collaborators)
           (realm : Realm) (maybe_user_profile : MaybeUser)
           (narrow : option (list NarrowParameter))
  : Result (option (list NarrowParameter)) :=
  match narrow with
  | None => Ok None
  | Some narrow =>
      let with_operator_terms :=
        filter (fun term => String.eqb (operator term) "with") narrow in
      match with_operator_terms with
      | _ :: _ :: _ => Err (InvalidOperatorCombinationError "Duplicate 'with' operators.")
      | [] => Ok (Some narrow)
      | [with_term] =>
          let narrow := list_remove with_term narrow in
          match operand with_term with
          | OIntList _ => Err TypeError
          | with_operand =>
              match int_of_operand with_operand with
              | None => Err invalid_with_operator
              | Some message_id =>
                  let accessed :=
                    match maybe_user_profile with
                    | Authenticated user => access_message env user message_id
                    | AnonymousUser => access_web_public_message env realm message_id
                    end in
                  match accessed with
                  | None =>
                      if can_narrow_define_conversation narrow then Ok (Some narrow)
                      else Err invalid_with_operator
                  | Some message =>
                      let filtered_terms :=
                        filter (fun term =>
                                  negb (str_in (operator term)
                                          ["stream"; "channel"; "topic"; "dm"; "pm-with"]))
                               narrow in
                      let recipient := message_recipient message in
                      match recipient_type recipient with
                      | STREAM =>
                          let channel_id := type_id recipient in
                          let topic := message_topic_name message in
                          let channel_conversation_terms :=
                            [ NarrowParameter_ "channel" (OInt channel_id);
                              NarrowParameter_ "topic" (OStr topic) ] in
                          Ok (Some (channel_conversation_terms ++ filtered_terms))
                      | PERSONAL =>
                          let dm_conversation_terms :=
                            [ NarrowParameter_ "dm" (OIntList [type_id recipient]) ] in
                          Ok (Some (dm_conversation_terms ++ filtered_terms))
                      | DIRECT_MESSAGE_GROUP =>
                          let huddle_user_ids :=
                            get_direct_message_group_user_ids env recipient in
                          let dm_conversation_terms :=
                            [ NarrowParameter_ "dm" (OIntList huddle_user_ids) ] in
                          Ok (Some (dm_conversation_terms ++ filtered_terms))
                      end
                  end
              end
          end
      end
  end.

Definition clean_narrow_for_message_fetch (env : Collaborators)
           (narrow : option (list NarrowParameter)) (realm : Realm)
           (maybe_user_profile : MaybeUser) : Result (option (list NarrowParameter)) :=
  let narrow := update_narrow_terms_containing_empty_topic_fallback_name env narrow in
  update_narrow_terms_containing_with_operator env realm maybe_user_profile narrow.

(* ================================================================== *)
(** ** Base query, first-unread anchor and [fetch_messages] *)
(* ================================================================== *)

(** [get_base_query_for_search]: the query and the id column.  The
    joins and the access filter of the per-user branch are the FROM
    relation [db_usermessage_join]. *)
Definition get_base_query_for_search (db : Database) (realm_id : Z)
           (user_profile : option UserProfile) (need_user_message : bool)
  : Result (Select * string) :=
  if negb need_user_message then
    let query := mkSelect (db_zerver_message db) [int_column_eq "realm_id" realm_id] [] in
    Ok (query, "zerver_message.id")
  else
    match user_profile with
    | None => Err AssertionError
    | Some user_profile =>
        let query := mkSelect (db_usermessage_join db (user_pk user_profile)) [] [] in
        Ok (query, "message_id")
    end.

Definition find_first_unread_anchor (env : Collaborators) (db : Database)
           (user_profile : option UserProfile) (narrow : option (list NarrowParameter))
  : Result Z :=
  match user_profile with
  | None => Ok LARGER_THAN_MAX_MESSAGE_ID
  | Some user_profile =>
      let need_user_message := true in
      match get_base_query_for_search db (realm_pk (user_realm user_profile))
                                      (Some user_profile) need_user_message with
      | Err e => Err e
      | Ok (query, inner_msg_id_col) =>
          let query := add_columns query ["flags"] in
          match add_narrow_conditions env (Some user_profile) inner_msg_id_col query
                                      narrow false (user_realm user_profile) with
          | Err e => Err e
          | Ok (query, is_search, is_dm_narrow) =>
              let condition := flags_and_eq0 (mask_read (flag_masks env)) in
              let condition :=
                if negb is_dm_narrow then
                  match exclude_muting_conditions env user_profile narrow with
                  | (_ :: _) as muting_conditions => and_ (condition :: muting_conditions)
                  | [] => condition
                  end
                else condition in
              let first_unread_query := where_ query condition in
              let first_unread_result :=
                execute db (sb_select first_unread_query
                                      (Some (inner_msg_id_col, Asc)) (Some 1)) in
              match first_unread_result with
              | r :: _ => Ok (message_id r)
              | [] => Ok LARGER_THAN_MAX_MESSAGE_ID
              end
          end
      end
  end.

(** [class FetchedMessages(LimitedMessages[Row])] *)
Record FetchedMessages : Type := mkFetchedMessages {
  limited : LimitedMessages Row;
  anchor : option Z;
  include_history : bool;
  is_search : bool
}.

(** [anchored_to_right] and the [num_after] that [fetch_messages] goes
    on with once the anchor is known. *)
Definition fetch_anchored_to_right (anchor : Z) : bool :=
  anchor >=? LARGER_THAN_MAX_MESSAGE_ID.

Definition fetch_num_after (anchor num_after : Z) : Z :=
  if fetch_anchored_to_right anchor then 0 else num_after.

Definition fetch_messages (env : Collaborators) (db : Database)
           (narrow : option (list NarrowParameter))
           (user_profile : option UserProfile) (realm : Realm)
           (is_web_public_query : bool) (anchor : option Z) (include_anchor : bool)
           (num_before num_after : Z) (client_requested_message_ids : option (list Z))
  : Result FetchedMessages :=
  match ok_to_include_history env narrow user_profile is_web_public_query with
  | Err e => Err e
  | Ok include_history =>
      let need_user_message := negb include_history in
      match get_base_query_for_search db (realm_pk realm) user_profile need_user_message with
      | Err e => Err e
      | Ok (query, inner_msg_id_col) =>
          let query := if need_user_message then add_columns query ["flags"] else query in
          match add_narrow_conditions env user_profile inner_msg_id_col query narrow
                                      is_web_public_query realm with
          | Err e => Err e
          | Ok (query, is_search, _is_dm_narrow) =>
              let first_visible_message_id := get_first_visible_message_id env realm in
              match client_requested_message_ids with
              | Some ids =>
                  let query := where_ query (int_column_in inner_msg_id_col ids) in
                  let rows := execute db (sb_select query None None) in
                  let visible_rows := visible_rows_of message_id rows first_visible_message_id in
                  Ok (mkFetchedMessages
                        (mkLimitedMessages visible_rows false false false false)
                        None include_history is_search)
              | None =>
                  let resolved :=
                    match anchor with
                    | Some anchor => Ok anchor
                    | None => find_first_unread_anchor env db user_profile narrow
                    end in
                  match resolved with
                  | Err e => Err e
                  | Ok anchor =>
                      let anchored_to_left := anchor =? 0 in
                      let anchored_to_right := fetch_anchored_to_right anchor in
                      let num_after := fetch_num_after anchor num_after in
                      let query :=
                        limit_query_to_range query num_before num_after anchor
                          include_anchor anchored_to_left anchored_to_right
                          inner_msg_id_col first_visible_message_id in
                      let query := sb_ordered_subquery query ("message_id", Asc) in
                      let rows := execute db query in
                      let query_info :=
                        post_process_limited_query message_id rows num_before num_after
                          anchor anchored_to_left anchored_to_right
                          first_visible_message_id in
                      Ok (mkFetchedMessages query_info (Some anchor)
                                            include_history is_search)
                  end
              end
          end
      end
  end.

(* ================================================================== *)
(** ** Vocabulary of the statements and sample data *)
(* ================================================================== *)

(** Rows in ascending order of [r[0]]. *)
Definition row_le {MessageRowT : Type} (row0 : MessageRowT -> Z)
           (a b : MessageRowT) : Prop :=
  row0 a <= row0 b.

Definition ascending {MessageRowT : Type} (row0 : MessageRowT -> Z)
           (l : list MessageRowT) : Prop :=
  Sorted (row_le row0) l.

(** The last [n] entries of a list. *)
Definition last_n {A} (n : nat) (l : list A) : list A :=
  skipn (List.length l - n) l.

(** The rows the specification describes for a fetch that is not
    anchored to the right: the before-partition cut to its last
    [num_before] entries, the anchor rows, the after-partition cut to
    its first [num_after] entries. *)
Definition spec_limited_rows {MessageRowT : Type} (row0 : MessageRowT -> Z)
           (visible_rows : list MessageRowT) (num_before num_after anchor : Z)
  : list MessageRowT :=
  last_n (Z.to_nat num_before) (filter (fun r => row0 r <? anchor) visible_rows)
  ++ filter (fun r => row0 r =? anchor) visible_rows
  ++ firstn (Z.to_nat num_after) (filter (fun r => row0 r >? anchor) visible_rows).

(** A message row with the given id. *)
Definition example_row (i : Z) : Row :=
  mkRow i 1 1 1 0 false false false true "lunch" "where".

(** Insertion sort on keys, the image of [sort_rows] on the id column. *)
Fixpoint insert_key (dir : Direction) (x : Z) (l : list Z) : list Z :=
  match l with
  | [] => [x]
  | y :: l' =>
      if (match dir with Asc => x <=? y | Desc => x >=? y end)
      then x :: l
      else y :: insert_key dir x l'
  end.

Definition sort_keys (dir : Direction) (l : list Z) : list Z :=
  fold_right (insert_key dir) [] l.

Definition key_order (dir : Direction) (a b : Z) : Prop :=
  match dir with Asc => a <= b | Desc => a >= b end.






(** The two names [get_base_query_for_search] gives the id column. *)
Definition is_id_column (name : string) : Prop :=
  name = "message_id" \/ name = "zerver_message.id".

(** [query'] is [query] with more WHERE clauses and more selected
    columns over the same FROM relation. *)
Definition extends (query query' : Select) : Prop :=
  from_rows query' = from_rows query
  /\ (exists conds, whereclause query' = whereclause query ++ conds)
  /\ (exists labels, added_columns query' = added_columns query ++ labels).

(** Every row [query'] finds is found by [query]. *)
Definition result_subset (db : Database) (query' query : Select) : Prop :=
  forall r, In r (run_select db query') -> In r (run_select db query).

(** The handler a term is dispatched to. *)
Definition term_method (term : NarrowParameter) : option Method :=
  lookup (operator term) by_method_map.

(** The operands [dm] and [private] of [is]. *)
Definition is_dm_operand (operand : Operand) : bool :=
  match operand with
  | OStr s => str_in s ["dm"; "private"]
  | _ => false
  end.

(** Terms of the channel class ([channel], [channels], [topic] and
    their aliases) and of the direct-message class ([dm],
    [dm-including], [group-pm-with], their aliases, and [is:dm] /
    [is:private]). *)
Definition channel_scoped (term : NarrowParameter) : bool :=
  match term_method term with
  | Some m_by_channel | Some m_by_channels | Some m_by_topic => true
  | _ => false
  end.

Definition dm_scoped (term : NarrowParameter) : bool :=
  match term_method term with
  | Some m_by_dm | Some m_by_dm_including | Some m_by_group_pm_with => true
  | Some m_by_is => is_dm_operand (operand term)
  | _ => false
  end.

(** The terms after which the builder has [is_channel_narrow] set: the
    non-negated terms of the channel class and the negated [is:dm]. *)
Definition sets_channel_marker (term : NarrowParameter) : bool :=
  match term_method term with
  | Some m_by_channel | Some m_by_channels | Some m_by_topic => negb (negated term)
  | Some m_by_is => is_dm_operand (operand term) && negated term
  | _ => false
  end.

(** The terms after which the builder has [is_dm_narrow] set: the
    non-negated terms of the direct-message class. *)
Definition sets_dm_marker (term : NarrowParameter) : bool :=
  match term_method term with
  | Some m_by_dm | Some m_by_dm_including | Some m_by_group_pm_with =>
      negb (negated term)
  | Some m_by_is => is_dm_operand (operand term) && negb (negated term)
  | _ => false
  end.

Definition sets_marker (term : NarrowParameter) : bool :=
  sets_channel_marker term || sets_dm_marker term.

(** The builder state after a term on which the check passed. *)
Definition mark (st : BuilderState) (term : NarrowParameter) : BuilderState :=
  mkBuilderState (is_channel_narrow st || sets_channel_marker term)
                 (is_dm_narrow st || sets_dm_marker term).

(** The error of [check_not_both_channel_and_dm_narrow]. *)
Definition mutual_exclusion_error : Error :=
  BadNarrowOperatorError both_channel_and_dm_message.

(** The markers after a run of terms on which every check passed. *)
Definition mark_all (st : BuilderState) (narrow : list NarrowParameter) : BuilderState :=
  fold_left mark narrow st.

(** The operands [add_narrow_conditions] sets aside for the combined
    search term. *)
Fixpoint search_operands_of (narrow : list NarrowParameter) : list Operand :=
  match narrow with
  | [] => []
  | term :: narrow' =>
      if String.eqb (operator term) "search"
      then operand term :: search_operands_of narrow'
      else search_operands_of narrow'
  end.

(** What a call of [add_term] from markers [st] on [query] may produce:
    a query extending [query] with the markers advanced by the term,
    never both set after a scoping term; or an error, which is the
    mutual-exclusion error only when the term would set both markers. *)
Definition add_term_post (st : BuilderState) (q : Select) (t : NarrowParameter)
           (r : Result (Select * BuilderState)) : Prop :=
  match r with
  | Ok (q', st') =>
      extends q q' /\ st' = mark st t
      /\ (sets_marker t = true -> is_channel_narrow st' && is_dm_narrow st' = false)
  | Err e =>
      (forall d, e <> InvalidOperatorCombinationError d)
      /\ (e = mutual_exclusion_error ->
          sets_marker t = true
          /\ is_channel_narrow (mark st t) && is_dm_narrow (mark st t) = true)
  end.

(** The same for the loop of [add_narrow_conditions] over a run of
    terms, with the search operands collected so far. *)
Definition loop_post (st : BuilderState) (q : Select) (ops : list Operand)
           (narrow : list NarrowParameter)
           (r : Result (Select * list Operand * BuilderState)) : Prop :=
  match r with
  | Ok (q', ops', st') =>
      extends q q' /\ st' = mark_all st narrow
      /\ ops' = ops ++ search_operands_of narrow
      /\ (existsb sets_marker narrow = true ->
          is_channel_narrow st' && is_dm_narrow st' = false)
  | Err e =>
      (forall d, e <> InvalidOperatorCombinationError d)
      /\ (e = mutual_exclusion_error ->
          is_channel_narrow (mark_all st narrow) && is_dm_narrow (mark_all st narrow) = true)
  end.

(** What [add_narrow_conditions] may produce on a list of terms. *)
Definition compile_post (q : Select) (narrow : list NarrowParameter)
           (r : Result (Select * bool * bool)) : Prop :=
  match r with
  | Ok (q', searching, dm_flag) =>
      extends q q'
      /\ dm_flag = existsb sets_dm_marker narrow
      /\ existsb sets_channel_marker narrow && existsb sets_dm_marker narrow = false
  | Err e =>
      (forall d, e <> InvalidOperatorCombinationError d)
      /\ (e = mutual_exclusion_error ->
          existsb sets_channel_marker narrow = true
          /\ existsb sets_dm_marker narrow = true)
  end.

(** The part of [add_narrow_conditions] after its loop: the combined
    search term, when there are search operands. *)
Definition search_phase (env : Collaborators) (builder : NarrowBuilder)
           (query : Select) (search_operands : list Operand) : Builder (Select * bool) :=
  match search_operands with
  | [] => ret (query, false)
  | _ :: _ =>
      let query := add_columns query ["escaped_topic_name"; "rendered_content"] in
      match strings_of_operands search_operands with
      | None => raise TypeError
      | Some operands =>
          let search_term := NarrowParameter_ "search" (OStr (join " " operands)) in
          query <- add_term env builder query search_term ;;
          ret (query, true)
      end
  end.

(** A query with no FROM rows and no clause, to read off what a search
    handler appends. *)
Definition empty_select : Select := mkSelect [] [] [].

(** The WHERE clauses the search handler appends for an operand. *)
Definition search_where (env : Collaborators) (operand : string) : list Cond :=
  whereclause (if USING_PGROONGA env
               then _by_search_pgroonga empty_select operand identity_lambda
               else _by_search_tsearch env empty_select operand identity_lambda).

(** The terms [is:dm] and [is:private]. *)
Definition is_dm_term (term : NarrowParameter) : bool :=
  match term_method term with
  | Some m_by_is => is_dm_operand (operand term)
  | _ => false
  end.

(** One step of the first loop of [ok_to_include_history]. *)
Definition history_step (env : Collaborators) (user_profile : UserProfile)
           (include_history : bool) (term : NarrowParameter) : bool :=
  if str_in (operator term) channel_operators && negb (negated term) then
    match operand term with
    | OStr operand => can_access_stream_history_by_name env user_profile operand
    | operand => can_access_stream_history_by_id env user_profile operand
    end
  else if str_in (operator term) channels_operators
          && operand_eq_str (operand term) "public"
          && negb (negated term)
          && can_access_public_streams user_profile
  then true
  else include_history.

(** One step of its second loop. *)
Definition personal_step (include_history : bool) (term : NarrowParameter) : bool :=
  if String.eqb (operator term) "is"
     && negb (operand_eq_str (operand term) "resolved")
  then false else include_history.

(** An [is] term whose operand is not [resolved]. *)
Definition is_personal_term (term : NarrowParameter) : bool :=
  String.eqb (operator term) "is" && negb (operand_eq_str (operand term) "resolved").

(** A term that switches history on in the first loop. *)
Definition grants_history_term (env : Collaborators) (user_profile : UserProfile)
           (term : NarrowParameter) : bool :=
  if str_in (operator term) channel_operators && negb (negated term) then
    match operand term with
    | OStr operand => can_access_stream_history_by_name env user_profile operand
    | operand => can_access_stream_history_by_id env user_profile operand
    end
  else str_in (operator term) channels_operators
       && operand_eq_str (operand term) "public"
       && negb (negated term)
       && can_access_public_streams user_profile.

Definition is_with_term (term : NarrowParameter) : bool :=
  String.eqb (operator term) "with".



Definition is_topic_operator_term (term : NarrowParameter) : bool :=
  String.eqb (operator term) "topic".


(** The canonical terms of the conversation of a message. *)
Definition conversation_terms (env : Collaborators) (message : Message)
  : list NarrowParameter :=
  let recipient := message_recipient message in
  match recipient_type recipient with
  | STREAM =>
      [ NarrowParameter_ "channel" (OInt (type_id recipient));
        NarrowParameter_ "topic" (OStr (message_topic_name message)) ]
  | PERSONAL => [ NarrowParameter_ "dm" (OIntList [type_id recipient]) ]
  | DIRECT_MESSAGE_GROUP =>
      [ NarrowParameter_ "dm" (OIntList (get_direct_message_group_user_ids env recipient)) ]
  end.

(** The access check the [with] rewrite runs for a message id. *)
Definition access_target (env : Collaborators) (realm : Realm)
           (maybe_user_profile : MaybeUser) (message_id : Z) : option Message :=
  match maybe_user_profile with
  | Authenticated user => access_message env user message_id
  | AnonymousUser => access_web_public_message env realm message_id
  end.

(* ------------------------------------------------------------------ *)
(** *** A sample realm *)
(* ------------------------------------------------------------------ *)

Definition example_realm : Realm := mkRealm 1 false.

Definition hamlet : UserProfile := mkUserProfile 5 50 example_realm true.
Definition othello : UserProfile := mkUserProfile 7 70 example_realm true.

Definition verona : Stream := mkStream 3 "Verona" (Some 30) false true.

Definition zulip_flag_masks : FlagMasks := mkFlagMasks 1 2 8 16 32 64 512 2048.

(** A channel message in topic [lunch] of channel 3, and a 1:1 message
    whose recipient is user 7. *)
Definition channel_message : Message := mkMessage (mkRecipient 30 STREAM 3) "lunch".
Definition personal_message : Message := mkMessage (mkRecipient 70 PERSONAL 7) EmptyString.

Definition user_of_id (i : Z) : UserProfile := if i =? 5 then hamlet else othello.

(** Rows: [message id content] is a message of channel 3 (recipient
    30) sent by user 7, unread by user 5. *)
Definition message (id : Z) (content : string) : Row :=
  mkRow id 1 7 30 0 false false false true "lunch" content.

(** The space-separated words of a text. *)
Definition words (s : string) : list string :=
  filter (fun w => negb (String.eqb w EmptyString)) (split_on " " s).

(** The alternatives of a keyword query: the runs of words between
    the keyword [OR]. *)
Fixpoint or_groups (ws : list string) : list (list string) :=
  match ws with
  | [] => [[]]
  | w :: ws' =>
      if String.eqb w "OR" then [] :: or_groups ws'
      else match or_groups ws' with
           | g :: gs => (w :: g) :: gs
           | [] => [[w]]
           end
  end.

(** A keyword index with the query language of PGroonga's [&@~]:
    the words of an alternative must all occur, and [OR] separates
    alternatives. *)
Definition keyword_query_match (query text : string) : bool :=
  existsb (fun group =>
             negb (Nat.eqb (List.length group) 0)
             && forallb (fun kw => existsb (String.eqb kw) (words text)) group)
          (or_groups (words query)).

Definition example_db (messages : list Row) : Database :=
  mkDatabase (fun _ => false)
             (fun topic r => String.eqb (subject r) topic)
             (fun text pattern => false)
             (fun _ => false)
             (fun _ _ => false)
             (fun operand r => keyword_query_match operand (content r))
             (fun operand r => forallb (fun kw => existsb (String.eqb kw) (words (content r)))
                                       (words operand))
             messages
             (fun _ => messages).

Definition example_env (using_pgroonga : bool) : Collaborators :=
  mkCollaborators
    (fun operand _ =>
       match operand with
       | OStr s => if String.eqb s "Verona" then Some verona else None
       | OInt n => if n =? 3 then Some verona else None
       | OIntList _ => None
       end)
    (fun _ => [30])
    (fun _ => [])
    (fun _ _ => [])
    (fun email _ => if String.eqb email "othello@zulip.com" then Some othello else None)
    (fun operand _ =>
       match operand with
       | OInt 5 => Some hamlet
       | OInt 7 => Some othello
       | _ => None
       end)
    (fun emails _ =>
       if forallb (String.eqb "othello@zulip.com") emails
       then Returned (map (fun _ => othello) emails)
       else Raised exc_JsonableError)
    (fun operand _ =>
       match operand with
       | OIntList ids =>
           if forallb (fun i => (i =? 5) || (i =? 7)) ids
           then Returned (map user_of_id ids)
           else Raised exc_JsonableError
       | _ => Raised exc_ValidationError
       end)
    (fun _ _ => Returned (mkRecipient 70 PERSONAL 7))
    (fun _ => [])
    (fun conditions _ _ => conditions)
    (fun _ name => String.eqb name "Verona")
    (fun _ operand => match operand with OInt 3 => true | _ => false end)
    (fun s => s)
    (fun _ id => if id =? 100 then Some channel_message
                 else if id =? 101 then Some personal_message else None)
    (fun _ _ => None)
    (fun _ => [5; 7; 9])
    (fun operand => operand)
    (fun _ => 0)
    using_pgroonga
    2147483647
    zulip_flag_masks.

(** Compiling a narrow for [hamlet] over the per-user base query. *)
Definition compile_example (using_pgroonga : bool) (query : Select)
           (narrow : list NarrowParameter) : Result (Select * bool * bool) :=
  add_narrow_conditions (example_env using_pgroonga) (Some hamlet) "message_id"
                        query (Some narrow) false example_realm.

Definition two_messages : list Row := [message 1 "foo"; message 2 "bar"].

Definition base_of (messages : list Row) : Select := mkSelect messages [] [].

(** Sample terms and messages. *)
Definition channel_verona : NarrowParameter := mkTerm "channel" (OStr "Verona") false.
Definition dm_othello : NarrowParameter := mkTerm "dm" (OIntList [7]) false.
Definition not_dm_othello : NarrowParameter := mkTerm "dm" (OIntList [7]) true.
Definition not_is_dm : NarrowParameter := mkTerm "is" (OStr "dm") true.
Definition five_messages : list Row :=
  [message 30 "c"; message 10 "a"; message 50 "e"; message 20 "b"; message 40 "d"].
Definition with_100 : NarrowParameter := mkTerm "with" (OInt 100) false.
Definition with_999 : NarrowParameter := mkTerm "with" (OInt 999) false.
Definition with_abc : NarrowParameter := mkTerm "with" (OStr "abc") false.

(* ================================================================== *)
(** ** Further functions of the module *)
(* ================================================================== *)

(** The list [supported_operators] of [is_spectator_compatible]. *)
Definition supported_operators : list string :=
  channel_operators ++ channels_operators
  ++ ["topic"; "sender"; "has"; "search"; "near"; "id"; "with"].

(** [is_spectator_compatible] *)
Fixpoint is_spectator_compatible (narrow : list NarrowParameter) : bool :=
  match narrow with
  | [] => true
  | element :: narrow' =>
      if String.eqb (operator element) "is" && operand_eq_str (operand element) "resolved"
      then is_spectator_compatible narrow'
      else if negb (str_in (operator element) supported_operators) then false
      else is_spectator_compatible narrow'
  end.

(** [is_web_public_narrow] *)
Definition is_web_public_narrow (narrow : option (list NarrowParameter)) : bool :=
  match narrow with
  | None => false
  | Some narrow =>
      existsb (fun term =>
                 str_in (operator term) channels_operators
                 && operand_eq_str (operand term) "web-public"
                 && Bool.eqb (negated term) false)
              narrow
  end.

(* ------------------------------------------------------------------ *)
(** *** Escaping for PostgreSQL regular expressions *)
(* ------------------------------------------------------------------ *)

(** [_pg_re_escape] looks at the code point of every character and
    writes characters outside ASCII as hexadecimal numbers, so here a
    Python [str] is the list of the code points of its characters. *)
Definition code_points (s : string) : list Z :=
  map (fun a => Z.of_nat (nat_of_ascii a)) (list_ascii_of_string s).

Definition _alphanum : list Z :=
  code_points "abcdefghijklmnopqrstuvwxyzABCDEFGHIJKLMNOPQRSTUVWXYZ0123456789".

(** [c in self._alphanum] *)
Definition is_alnum (c : Z) : bool := existsb (Z.eqb c) _alphanum.

(** The digits and the letters of ASCII, by their ranges. *)
Definition in_alnum_ranges (c : Z) : bool :=
  ((48 <=? c) && (c <=? 57)) || ((65 <=? c) && (c <=? 90)) || ((97 <=? c) && (c <=? 122)).

(** The lower-case hexadecimal digit of a value below sixteen. *)
Definition hex_digit (d : Z) : Z := if d <? 10 then 48 + d else 87 + d.

Fixpoint hex_fuel (fuel : nat) (n : Z) : list Z :=
  match fuel with
  | O => []
  | S fuel' =>
      if n <? 16 then [hex_digit n]
      else hex_fuel fuel' (n / 16) ++ [hex_digit (n mod 16)]
  end.

(** [format(n, "x")] for the [ord] of a character, which is at most
    [0x10FFFF] and so has at most six digits. *)
Definition format_x (n : Z) : list Z := hex_fuel 6 n.

(** [f"{n:0>4x}"]: right-aligned in a field of four, filled with
    zeros. *)
Definition format_0_4x (n : Z) : list Z :=
  let digits := format_x n in
  repeat 48 (4 - List.length digits) ++ digits.

(** What the loop of [_pg_re_escape] puts in the place of one
    character: backslash is 92 and [u] is 117. *)
Definition escape_char (c : Z) : list Z :=
  if negb (is_alnum c) then
    if c >=? 128 then [92; 117] ++ format_0_4x c
    else [92; c]
  else [c].

(** [_pg_re_escape] *)
Definition _pg_re_escape (pattern : list Z) : list Z :=
  List.concat (map escape_char pattern).

(** A character of the Basic Multilingual Plane, and any character. *)
Definition is_bmp (c : Z) : Prop := 0 <= c < 65536.
Definition is_code_point (c : Z) : Prop := 0 <= c <= 1114111.

(** Reading an escaped pattern back: a backslash and [u] announce four
    hexadecimal digits, any other backslash one literal character. *)
Definition hex_value (d : Z) : Z := if d <? 58 then d - 48 else d - 87.

Fixpoint pg_re_unescape (s : list Z) : list Z :=
  match s with
  | [] => []
  | c0 :: s1 =>
      if c0 =? 92 then
        match s1 with
        | [] => []
        | c1 :: s2 =>
            if c1 =? 117 then
              match s2 with
              | d3 :: d2 :: d1 :: d0 :: rest =>
                  (((hex_value d3 * 16 + hex_value d2) * 16 + hex_value d1) * 16
                   + hex_value d0)
                    :: pg_re_unescape rest
              | _ => []
              end
            else c1 :: pg_re_unescape s2
        end
      else c0 :: pg_re_unescape s1
  end.

(* ================================================================== *)
(** ** Further vocabulary of the statements *)
(* ================================================================== *)

Definition is_search_term (term : NarrowParameter) : bool :=
  String.eqb (operator term) "search".

(** A term with the [negated] flag of a [search] term cleared. *)
Definition clear_search_negation (term : NarrowParameter) : NarrowParameter :=
  if is_search_term term then mkTerm (operator term) (operand term) false else term.

(** The rows of the channel a term of [ok_to_include_history] names:
    for a [channel] / [stream] term the rows whose recipient is the
    channel the operand resolves to, for [channels:public] the rows
    whose recipient is a public channel. *)
Definition in_channel_of (env : Collaborators) (realm : Realm)
           (term : NarrowParameter) (row : Row) : Prop :=
  if str_in (operator term) channel_operators
  then exists channel,
         get_stream_by_narrow_operand_access_unchecked env (operand term) realm
         = Some channel
         /\ stream_recipient_id channel = Some (recipient_id row)
  else In (recipient_id row) (get_public_streams_recipient_ids env realm).

(** The [read] bit of a row's flags is clear. *)
Definition is_unread (env : Collaborators) (row : Row) : bool :=
  Z.land (flags row) (mask_read (flag_masks env)) =? 0.

(** The rows [find_first_unread_anchor] chooses among: the unread rows
    of the compiled narrow, without those the muting conditions
    exclude unless the narrow is a direct-message narrow. *)
Definition first_unread_candidates (env : Collaborators) (db : Database)
           (u : UserProfile) (narrow : option (list NarrowParameter))
           (compiled : Select) (is_dm_narrow : bool) : list Row :=
  filter (fun row =>
            is_unread env row
            && (is_dm_narrow
                || forallb (fun c => eval_cond db c row)
                           (exclude_muting_conditions env u narrow)))
         (run_select db compiled).

(** The terms that decide the first loop of [ok_to_include_history]:
    the last of them in the narrow sets [include_history]. *)
Definition decides_history (u : UserProfile) (term : NarrowParameter) : bool :=
  (str_in (operator term) channel_operators && negb (negated term))
  || (str_in (operator term) channels_operators
      && operand_eq_str (operand term) "public"
      && negb (negated term)
      && can_access_public_streams u).

(** The operators without a handler in [by_method_map]. *)
Definition has_no_handler (term : NarrowParameter) : bool :=
  match term_method term with Some _ => false | None => true end.

(** The handlers that open with the asserts on the requesting user. *)
Definition needs_user (term : NarrowParameter) : bool :=
  match term_method term with
  | Some m_by_in | Some m_by_dm | Some m_by_dm_including | Some m_by_group_pm_with => true
  | Some m_by_is => negb (operand_eq_str (operand term) "resolved")
  | _ => false
  end.

(** The WHERE clauses the handler of a term appends, read off a run of
    [add_term] on the empty query with both markers clear. *)
Definition term_where (env : Collaborators) (self : NarrowBuilder)
           (term : NarrowParameter) : list Cond :=
  match add_term env self empty_select term (mkBuilderState false false) with
  | Ok (query, _) => whereclause query
  | Err _ => []
  end.

(** Two queries over the same FROM relation whose WHERE clauses are the
    same up to their order. *)
Definition same_clauses (query query' : Select) : Prop :=
  from_rows query = from_rows query'
  /\ Permutation (whereclause query) (whereclause query').

(** The user the operand of [sender], [dm-including] or
    [group-pm-with] names: by email for a string, by id otherwise. *)
Definition user_of_operand (env : Collaborators) (realm : Realm) (operand : Operand)
  : option UserProfile :=
  match operand with
  | OStr email => get_user_including_cross_realm env email realm
  | _ => get_user_by_id_in_realm_including_cross_realm env operand realm
  end.

(** A row with the [is_private] bit of its flags set. *)
Definition is_private_row (env : Collaborators) (row : Row) : bool :=
  negb (Z.land (flags row) (mask_is_private (flag_masks env)) =? 0).

(** A row of the one-to-one conversation of two users: sent by one to
    the personal recipient of the other. *)
Definition one_to_one_between (me other : UserProfile) (row : Row) : Prop :=
  (sender_id row = user_pk other /\ recipient_id row = user_recipient_id me)
  \/ (sender_id row = user_pk me /\ recipient_id row = user_recipient_id other).

(** A row addressed to a direct-message group both users subscribe
    to. *)
Definition in_shared_group (env : Collaborators) (me other : UserProfile) (row : Row) : Prop :=
  In (recipient_id row) (direct_message_group_subscriptions env me)
  /\ In (recipient_id row) (direct_message_group_subscriptions env other).

(* ------------------------------------------------------------------ *)
(** *** Further sample data *)
(* ------------------------------------------------------------------ *)

(** The sample collaborators with a visibility floor. *)
Definition example_env_floor (floor : Z) : Collaborators :=
  let env := example_env false in
  mkCollaborators
    (get_stream_by_narrow_operand_access_unchecked env)
    (get_public_streams_recipient_ids env)
    (fun _ => [30])
    (zephyr_matching_recipient_ids env)
    (get_user_including_cross_realm env)
    (get_user_by_id_in_realm_including_cross_realm env)
    (get_user_profiles env)
    (get_user_profiles_by_ids env)
    (recipient_for_user_profiles env)
    (direct_message_group_subscriptions env)
    (exclude_stream_and_topic_mutes env)
    (can_access_stream_history_by_name env)
    (can_access_stream_history_by_id env)
    (prep_for_like_query env)
    (access_message env)
    (access_web_public_message env)
    (get_direct_message_group_user_ids env)
    (maybe_rename_general_chat_to_empty_topic env)
    (fun _ => floor)
    (USING_PGROONGA env)
    (MAX_POSSIBLE_MESSAGE_ID env)
    (flag_masks env).

(** A fetch for [hamlet] over the five sample messages. *)
Definition fetch_example (narrow : list NarrowParameter) (anchor : option Z)
           (num_before num_after : Z) (ids : option (list Z)) : Result FetchedMessages :=
  fetch_messages (example_env false) (example_db five_messages) (Some narrow)
                 (Some hamlet) example_realm false anchor true num_before num_after ids.

(** A one-to-one message from [othello] to [hamlet], and the term that
    asks for the direct messages including [othello]. *)
Definition private_message : Row :=
  mkRow 60 1 7 50 2048 false false false false EmptyString "hi".
Definition dm_including_othello : NarrowParameter :=
  mkTerm "dm-including" (OInt 7) false.

Definition channels_web_public : NarrowParameter :=
  mkTerm "channels" (OStr "web-public") false.

(* ------------------------------------------------------------------ *)
(** *** Vocabulary of the window statements *)
(* ------------------------------------------------------------------ *)

(** An id at or above the visibility floor, when there is one. *)
Definition visible_id (first_visible_message_id i : Z) : bool :=
  negb (first_visible_message_id >? 0) || (i >=? first_visible_message_id).

(** The message ids a query finds, in ascending order. *)
Definition narrow_ids (db : Database) (query : Select) : list Z :=
  sort_keys Asc (map message_id (run_select db query)).

(** The visible ids below, at and above an anchor. *)
Definition ids_before (first_visible_message_id anchor : Z) (ids : list Z) : list Z :=
  filter (fun i => visible_id first_visible_message_id i && (i <? anchor)) ids.

Definition ids_at (first_visible_message_id anchor : Z) (ids : list Z) : list Z :=
  filter (fun i => visible_id first_visible_message_id i && (i =? anchor)) ids.

Definition ids_after (first_visible_message_id anchor : Z) (ids : list Z) : list Z :=
  filter (fun i => visible_id first_visible_message_id i && (i >? anchor)) ids.

(** Whether the window planner fetches the anchor row: when it is
    asked to, and also in a two-sided window and in a window with
    neither side. *)
Definition anchor_returned (include_anchor : bool) (num_before num_after : Z) : bool :=
  include_anchor
  || ((num_before >? 0) && (num_after >? 0))
  || ((num_before =? 0) && (num_after =? 0)).

(** The window of [fetch_messages] for an anchor below
    [LARGER_THAN_MAX_MESSAGE_ID] (at or above it [fetch_messages] also
    clears [num_after]): planning, execution in ascending order of id,
    and post-processing. *)
Definition fetch_window (db : Database) (query : Select) (id_col : string)
           (num_before num_after anchor : Z) (include_anchor : bool)
           (first_visible_message_id : Z) : LimitedMessages Row :=
  let anchored_to_left := anchor =? 0 in
  let anchored_to_right := fetch_anchored_to_right anchor in
  let window :=
    limit_query_to_range query num_before num_after anchor include_anchor
      anchored_to_left anchored_to_right id_col first_visible_message_id in
  let fetched := execute db (sb_ordered_subquery window ("message_id", Asc)) in
  post_process_limited_query message_id fetched num_before num_after anchor
    anchored_to_left anchored_to_right first_visible_message_id.

(* ================================================================== *)
(** ** Properties: the builtin [int] on numerals *)
(* ================================================================== *)








(* ================================================================== *)
(** ** Properties: anchor parsing *)
(* ================================================================== *)






(* ================================================================== *)
(** ** Properties: post-processing *)
(* ================================================================== *)

Section ListFacts.
Context {A : Type}.

Lemma py_slice_from_last (n : Z) (l : list A) :
  0 < n -> py_slice_from (-1 * n) l = skipn (List.length l - Z.to_nat n) l.
Proof.
  intros Hn. unfold py_slice_from.
  destruct (Z.ltb_spec (-1 * n) 0); [| lia].
  f_equal. lia.
Qed.

Lemma py_slice_to_first (n : Z) (l : list A) :
  0 < n -> py_slice_to n l = firstn (Z.to_nat n) l.
Proof.
  intros Hn. unfold py_slice_to.
  destruct (Z.ltb_spec n 0); [lia |].
  destruct (Z.min_spec n (Z.of_nat (List.length l))) as [[Hlt ->] | [Hge ->]].
  - reflexivity.
  - rewrite Nat2Z.id. rewrite firstn_all.
    symmetry. apply firstn_all2. lia.
Qed.

Lemma len_py_slice_from (n : Z) (l : list A) :
  len (py_slice_from (-1 * n) l) < n <-> len l < n.
Proof.
  unfold len, py_slice_from. rewrite length_skipn.
  destruct (Z.ltb_spec (-1 * n) 0); lia.
Qed.

Lemma len_py_slice_to (n : Z) (l : list A) :
  n <> 0 -> (len (py_slice_to n l) < n <-> len l < n).
Proof.
  intros Hn. unfold len, py_slice_to. rewrite length_firstn.
  destruct (Z.ltb_spec n 0); lia.
Qed.

Variable le : A -> A -> Prop.

Lemma StronglySorted_filter (p : A -> bool) (l : list A) :
  StronglySorted le l -> StronglySorted le (filter p l).
Proof.
  induction 1 as [| a l Hs IH Hall]; simpl; [constructor |].
  destruct (p a); [| exact IH].
  constructor; [exact IH |].
  rewrite Forall_forall in *. intros x Hx.
  apply filter_In in Hx. apply Hall, Hx.
Qed.

Lemma StronglySorted_skipn (n : nat) (l : list A) :
  StronglySorted le l -> StronglySorted le (skipn n l).
Proof.
  revert l. induction n as [| n IH]; intros l Hs; [exact Hs |].
  destruct l as [| a l]; [exact Hs |].
  simpl. apply IH. inversion Hs; assumption.
Qed.

Lemma StronglySorted_firstn (n : nat) (l : list A) :
  StronglySorted le l -> StronglySorted le (firstn n l).
Proof.
  revert l. induction n as [| n IH]; intros l Hs; [constructor |].
  destruct l as [| a l]; [constructor |].
  simpl. inversion Hs as [| ? ? Hs' Hall]; subst.
  constructor; [apply IH; exact Hs' |].
  rewrite Forall_forall in *. intros x Hx.
  apply Hall.
  rewrite <- (firstn_skipn n l). apply in_or_app. left. exact Hx.
Qed.

Lemma StronglySorted_app (l1 l2 : list A) :
  StronglySorted le l1 -> StronglySorted le l2 ->
  (forall a b, In a l1 -> In b l2 -> le a b) ->
  StronglySorted le (l1 ++ l2).
Proof.
  intros H1 H2 H12. induction H1 as [| a l Hs IH Hall]; simpl; [exact H2 |].
  constructor.
  - apply IH. intros x y Hx Hy. apply H12; [right; exact Hx | exact Hy].
  - rewrite Forall_forall in *. intros x Hx.
    apply in_app_or in Hx as [Hx | Hx]; [apply Hall, Hx | apply H12; [left; reflexivity | exact Hx]].
Qed.

Lemma In_skipn (n : nat) (l : list A) (x : A) : In x (skipn n l) -> In x l.
Proof.
  intros H. rewrite <- (firstn_skipn n l). apply in_or_app. right. exact H.
Qed.

Lemma In_firstn_all (n : nat) (l : list A) (x : A) : In x (firstn n l) -> In x l.
Proof.
  intros H. rewrite <- (firstn_skipn n l). apply in_or_app. left. exact H.
Qed.
End ListFacts.

Section PostProcessFacts.
Context {MessageRowT : Type}.
Variable row0 : MessageRowT -> Z.

Lemma visible_rows_sorted (fetched : list MessageRowT) (fv : Z) :
  StronglySorted (row_le row0) fetched -> StronglySorted (row_le row0) (visible_rows_of row0 fetched fv).
Proof.
  intros H. unfold visible_rows_of. destruct (fv >? 0); [| exact H].
  apply StronglySorted_filter, H.
Qed.

(** What [post_process_limited_query] returns when the fetch is not
    anchored to the right, with the two slices as written. *)
Lemma post_process_rows_unanchored (fetched : list MessageRowT)
      (num_before num_after anchor : Z) (anchored_to_left : bool) (fv : Z) :
  let visible := visible_rows_of row0 fetched fv in
  rows (post_process_limited_query row0 fetched num_before num_after anchor
                                   anchored_to_left false fv)
  = (if num_before =? 0 then filter (fun r => row0 r <? anchor) visible
     else py_slice_from (-1 * num_before) (filter (fun r => row0 r <? anchor) visible))
    ++ filter (fun r => row0 r =? anchor) visible
    ++ (if num_after =? 0 then filter (fun r => row0 r >? anchor) visible
        else py_slice_to num_after (filter (fun r => row0 r >? anchor) visible)).
Proof.
  unfold post_process_limited_query, partition_rows. simpl.
  destruct (num_before =? 0), (num_after =? 0); reflexivity.
Qed.

(** C6 (amended).  Not anchored to the right, with [num_before] and
    [num_after] non-negative: the result is the before-partition, the
    anchor rows and the after-partition of the visible rows, in that
    order; a positive [num_before] keeps the last [num_before] before
    rows and a positive [num_after] the first [num_after] after rows,
    while a count of zero leaves its partition as fetched; and a fetch
    in ascending id order gives a result in ascending id order. *)
Theorem C6_truncation_and_order (fetched : list MessageRowT)
        (num_before num_after anchor : Z) (anchored_to_left : bool) (fv : Z) :
  0 <= num_before -> 0 <= num_after ->
  let visible := visible_rows_of row0 fetched fv in
  let before_rows := filter (fun r => row0 r <? anchor) visible in
  let anchor_rows := filter (fun r => row0 r =? anchor) visible in
  let after_rows := filter (fun r => row0 r >? anchor) visible in
  let result :=
    rows (post_process_limited_query row0 fetched num_before num_after anchor
                                     anchored_to_left false fv) in
  result
  = (if num_before =? 0 then before_rows
     else last_n (Z.to_nat num_before) before_rows)
    ++ anchor_rows
    ++ (if num_after =? 0 then after_rows
        else firstn (Z.to_nat num_after) after_rows)
  /\ (0 < num_before -> 0 < num_after ->
      result = spec_limited_rows row0 visible num_before num_after anchor)
  /\ (ascending row0 fetched -> ascending row0 result).
Proof.
  intros Hb Ha visible before_rows anchor_rows after_rows result.
  assert (Hres :
    result
    = (if num_before =? 0 then before_rows
       else last_n (Z.to_nat num_before) before_rows)
      ++ anchor_rows
      ++ (if num_after =? 0 then after_rows
          else firstn (Z.to_nat num_after) after_rows)).
  { unfold result. rewrite post_process_rows_unanchored.
    fold visible before_rows anchor_rows after_rows.
    destruct (Z.eqb_spec num_before 0) as [| Hnb];
      destruct (Z.eqb_spec num_after 0) as [| Hna]; try reflexivity.
    - rewrite py_slice_to_first by lia. reflexivity.
    - rewrite py_slice_from_last by lia. reflexivity.
    - rewrite py_slice_from_last, py_slice_to_first by lia. reflexivity. }
  split; [exact Hres |]. split.
  - intros Hnb Hna. rewrite Hres. unfold spec_limited_rows.
    destruct (Z.eqb_spec num_before 0); [lia |].
    destruct (Z.eqb_spec num_after 0); [lia |]. reflexivity.
  - intros Hsorted. rewrite Hres. unfold ascending in *.
    apply StronglySorted_Sorted.
    assert (Htrans : Relations_1.Transitive (row_le row0))
      by (intros a b c Hab Hbc; unfold row_le in *; lia).
    apply (Sorted_StronglySorted Htrans) in Hsorted.
    pose proof (visible_rows_sorted fetched fv Hsorted) as Hvis.
    fold visible in Hvis.
    assert (Hbef : forall x,
               In x (if num_before =? 0 then before_rows
                     else last_n (Z.to_nat num_before) before_rows) ->
               row0 x < anchor).
    { intros x Hx.
      assert (Hin : In x before_rows).
      { destruct (num_before =? 0); [exact Hx |]. eapply In_skipn, Hx. }
      apply filter_In in Hin as [_ Hlt]. lia. }
    assert (Haft : forall x,
               In x (if num_after =? 0 then after_rows
                     else firstn (Z.to_nat num_after) after_rows) ->
               anchor < row0 x).
    { intros x Hx.
      assert (Hin : In x after_rows).
      { destruct (num_after =? 0); [exact Hx |]. eapply In_firstn_all, Hx. }
      apply filter_In in Hin as [_ Hgt]. lia. }
    assert (Hanc : forall x, In x anchor_rows -> row0 x = anchor).
    { intros x Hx. apply filter_In in Hx as [_ Heq]. lia. }
    apply StronglySorted_app.
    + destruct (num_before =? 0);
        [| apply StronglySorted_skipn]; apply StronglySorted_filter, Hvis.
    + apply StronglySorted_app.
      * apply StronglySorted_filter, Hvis.
      * destruct (num_after =? 0);
          [| apply StronglySorted_firstn]; apply StronglySorted_filter, Hvis.
      * intros a b Hin_a Hin_b. unfold row_le.
        specialize (Hanc a Hin_a). specialize (Haft b Hin_b). lia.
    + intros a b Hin_a Hin_b. unfold row_le.
      specialize (Hbef a Hin_a).
      apply in_app_or in Hin_b as [Hin_b | Hin_b].
      * specialize (Hanc b Hin_b). lia.
      * specialize (Haft b Hin_b). lia.
Qed.

(** C7 (amended).  For every input: [found_anchor] holds exactly when
    the fetch is not anchored to the right and exactly one visible row
    has the anchor's id; [found_oldest] exactly when the fetch is
    anchored to the left or the before-partition had fewer rows than
    [num_before]; [found_newest] exactly when the fetch is anchored to
    the right or the after-partition had fewer rows than [num_after]. *)
Theorem C7_pagination_metadata (fetched : list MessageRowT)
        (num_before num_after anchor : Z)
        (anchored_to_left anchored_to_right : bool) (fv : Z) :
  let visible := visible_rows_of row0 fetched fv in
  let available := partition_rows row0 visible anchor anchored_to_right in
  let before_available := fst (fst available) in
  let after_available := snd available in
  let result :=
    post_process_limited_query row0 fetched num_before num_after anchor
                               anchored_to_left anchored_to_right fv in
  (found_anchor result = true <->
     anchored_to_right = false
     /\ List.length (filter (fun r => row0 r =? anchor) visible) = 1%nat)
  /\ (found_oldest result = true <->
        anchored_to_left = true \/ len before_available < num_before)
  /\ (found_newest result = true <->
        anchored_to_right = true \/ len after_available < num_after).
Proof.
  intros visible available before_available after_available result.
  unfold result, post_process_limited_query.
  fold visible. unfold before_available, after_available, available.
  destruct (partition_rows row0 visible anchor anchored_to_right)
    as [[before_rows anchor_rows] after_rows] eqn:Hpart.
  cbn [found_anchor found_oldest found_newest fst snd].
  split; [| split]; (split; [intros H | intros H0]).
  - apply Z.eqb_eq in H. unfold partition_rows in Hpart.
    destruct anchored_to_right.
    + inversion Hpart; subst. discriminate H.
    + inversion Hpart; subst. split; [reflexivity |]. unfold len in H. lia.
  - destruct H0 as [-> H]. unfold partition_rows in Hpart. inversion Hpart; subst.
    apply Z.eqb_eq. unfold len. lia.
  - apply orb_true_iff in H as [H | H]; [left; exact H | right].
    apply Z.ltb_lt in H.
    destruct (Z.eqb_spec num_before 0) as [-> | Hnb]; cbn [negb] in H.
    + exact H.
    + apply len_py_slice_from. exact H.
  - destruct H0 as [-> | H]; [reflexivity |]. apply orb_true_iff. right.
    apply Z.ltb_lt.
    destruct (Z.eqb_spec num_before 0) as [-> | Hnb]; cbn [negb].
    + exact H.
    + apply len_py_slice_from. exact H.
  - apply orb_true_iff in H as [H | H]; [left; exact H | right].
    apply Z.ltb_lt in H.
    destruct anchored_to_right.
    + cbn in H. unfold len in H. lia.
    + destruct (Z.eqb_spec num_after 0) as [-> | Hna]; cbn [negb] in H.
      * exact H.
      * exact (proj1 (len_py_slice_to num_after after_rows Hna) H).
  - destruct H0 as [-> | H]; [reflexivity |]. apply orb_true_iff.
    destruct anchored_to_right; [left; reflexivity | right].
    apply Z.ltb_lt.
    destruct (Z.eqb_spec num_after 0) as [-> | Hna]; cbn [negb].
    + exact H.
    + exact (proj2 (len_py_slice_to num_after after_rows Hna) H).
Qed.
End PostProcessFacts.

(* ================================================================== *)
(** ** Properties: executing ordered and limited queries *)
(* ================================================================== *)

Lemma run_select_where (db : Database) (query : Select) (cond : Cond) :
  run_select db (where_ query cond)
  = filter (eval_cond db cond) (run_select db query).
Proof.
  unfold run_select, where_. simpl.
  induction (from_rows query) as [| r l IH]; simpl; [reflexivity |].
  rewrite forallb_app. simpl. rewrite andb_true_r.
  destruct (forallb (fun c => eval_cond db c r) (whereclause query)); simpl.
  - destruct (eval_cond db cond r); rewrite IH; reflexivity.
  - exact IH.
Qed.

Lemma map_filter_key {A} (key : A -> Z) (p : Z -> bool) (l : list A) :
  map key (filter (fun r => p (key r)) l) = filter p (map key l).
Proof.
  induction l as [| a l IH]; simpl; [reflexivity |].
  destruct (p (key a)); simpl; rewrite IH; reflexivity.
Qed.

Lemma map_insert_row (key : Row -> Z) (dir : Direction) (x : Row) (l : list Row) :
  map key (insert_row key dir x l) = insert_key dir (key x) (map key l).
Proof.
  induction l as [| y l IH]; simpl; [reflexivity |].
  destruct dir; simpl.
  - destruct (key x <=? key y); simpl; [reflexivity | rewrite IH; reflexivity].
  - destruct (key x >=? key y); simpl; [reflexivity | rewrite IH; reflexivity].
Qed.

Lemma map_sort_rows (name : string) (dir : Direction) (l : list Row) :
  map (int_column name) (sort_rows (name, dir) l)
  = sort_keys dir (map (int_column name) l).
Proof.
  unfold sort_rows, sort_keys. simpl.
  induction l as [| x l IH]; simpl; [reflexivity |].
  rewrite map_insert_row, IH. reflexivity.
Qed.

Lemma insert_key_perm (dir : Direction) (x : Z) (l : list Z) :
  Permutation (insert_key dir x l) (x :: l).
Proof.
  induction l as [| y l IH]; simpl; [apply Permutation_refl |].
  destruct (match dir with Asc => x <=? y | Desc => x >=? y end).
  - apply Permutation_refl.
  - eapply perm_trans; [apply perm_skip, IH | apply perm_swap].
Qed.

Lemma sort_keys_perm (dir : Direction) (l : list Z) :
  Permutation (sort_keys dir l) l.
Proof.
  induction l as [| x l IH]; simpl; [apply Permutation_refl |].
  eapply perm_trans; [apply insert_key_perm | apply perm_skip, IH].
Qed.

Lemma key_order_trans (dir : Direction) (a b c : Z) :
  key_order dir a b -> key_order dir b c -> key_order dir a c.
Proof. destruct dir; simpl; lia. Qed.

Lemma insert_key_sorted (dir : Direction) (x : Z) (l : list Z) :
  StronglySorted (key_order dir) l ->
  StronglySorted (key_order dir) (insert_key dir x l).
Proof.
  induction 1 as [| y l Hs IH Hall]; simpl.
  - constructor; [constructor | constructor].
  - destruct (match dir with Asc => x <=? y | Desc => x >=? y end) eqn:Hcmp.
    + assert (Hxy : key_order dir x y) by (destruct dir; simpl; lia).
      constructor; [constructor; assumption |].
      constructor; [exact Hxy |].
      rewrite Forall_forall in *. intros z Hz.
      eapply key_order_trans; [exact Hxy | apply Hall, Hz].
    + assert (Hyx : key_order dir y x) by (destruct dir; simpl; lia).
      constructor; [exact IH |].
      rewrite Forall_forall in *. intros z Hz.
      apply (Permutation_in _ (insert_key_perm dir x l)) in Hz.
      destruct Hz as [<- | Hz]; [exact Hyx | apply Hall, Hz].
Qed.

Lemma sort_keys_sorted (dir : Direction) (l : list Z) :
  StronglySorted (key_order dir) (sort_keys dir l).
Proof.
  induction l as [| x l IH]; simpl; [constructor | apply insert_key_sorted, IH].
Qed.

(** Two sorted lists with the same elements are the same list. *)
Lemma sorted_perm_unique (dir : Direction) (l1 l2 : list Z) :
  StronglySorted (key_order dir) l1 -> StronglySorted (key_order dir) l2 ->
  Permutation l1 l2 -> l1 = l2.
Proof.
  revert l2. induction l1 as [| a l1 IH]; intros l2 H1 H2 Hp.
  - apply Permutation_nil in Hp. symmetry. exact Hp.
  - destruct l2 as [| b l2].
    + apply Permutation_sym, Permutation_nil in Hp. discriminate Hp.
    + inversion H1 as [| ? ? Hs1 Hall1]; subst.
      inversion H2 as [| ? ? Hs2 Hall2]; subst.
      rewrite Forall_forall in Hall1, Hall2.
      assert (Hab : a = b).
      { assert (Hb : In b (a :: l1))
          by (apply (Permutation_in _ (Permutation_sym Hp)); left; reflexivity).
        assert (Ha : In a (b :: l2))
          by (apply (Permutation_in _ Hp); left; reflexivity).
        destruct Hb as [Hb | Hb]; [exact Hb |].
        destruct Ha as [Ha | Ha]; [symmetry; exact Ha |].
        specialize (Hall1 b Hb). specialize (Hall2 a Ha).
        destruct dir; simpl in *; lia. }
      subst b. f_equal. apply IH; [exact Hs1 | exact Hs2 |].
      eapply Permutation_cons_inv. exact Hp.
Qed.

Lemma sort_keys_of_perm (dir : Direction) (l1 l2 : list Z) :
  Permutation l1 l2 -> sort_keys dir l1 = sort_keys dir l2.
Proof.
  intros Hp. apply (sorted_perm_unique dir); try apply sort_keys_sorted.
  eapply perm_trans; [apply sort_keys_perm |].
  eapply perm_trans; [exact Hp | apply Permutation_sym, sort_keys_perm].
Qed.

Lemma filter_perm {A} (p : A -> bool) (l1 l2 : list A) :
  Permutation l1 l2 -> Permutation (filter p l1) (filter p l2).
Proof.
  induction 1 as [| x l l' Hp IH | x y l | l l' l'' H1 IH1 H2 IH2]; simpl.
  - constructor.
  - destruct (p x); [apply perm_skip |]; exact IH.
  - destruct (p x), (p y); try apply Permutation_refl. apply perm_swap.
  - eapply perm_trans; eassumption.
Qed.

Lemma int_column_id (name : string) (r : Row) :
  is_id_column name -> int_column name r = message_id r.
Proof. intros [-> | ->]; reflexivity. Qed.

Lemma map_int_column_id (name : string) (l : list Row) :
  is_id_column name -> map (int_column name) l = map message_id l.
Proof. intros H. apply map_ext. intros r. apply int_column_id, H. Qed.

(** The ids an ordered, limited select over [query.where(cond)] returns,
    when [cond] is a test [p] on the id. *)
Lemma execute_ids (db : Database) (query : Select) (cond : Cond) (p : Z -> bool)
      (name : string) (dir : Direction) (n : Z) :
  is_id_column name ->
  (forall r, eval_cond db cond r = p (message_id r)) ->
  map message_id
      (execute db (sb_select (where_ query cond) (Some (name, dir)) (Some n)))
  = firstn (Z.to_nat n)
           (sort_keys dir (filter p (map message_id (run_select db query)))).
Proof.
  intros Hid Hp. simpl. rewrite <- firstn_map. f_equal.
  rewrite <- (map_int_column_id name _ Hid), map_sort_rows.
  rewrite (map_int_column_id name _ Hid), run_select_where.
  rewrite (filter_ext _ _ Hp), map_filter_key. reflexivity.
Qed.

Lemma execute_ordered_ids (db : Database) (main_query : SelectBase) (dir : Direction) :
  map message_id (execute db (sb_ordered_subquery main_query ("message_id", dir)))
  = sort_keys dir (map message_id (execute db main_query)).
Proof. exact (map_sort_rows "message_id" dir (execute db main_query)). Qed.

Lemma execute_union_ids (db : Database) (a b : SelectBase) :
  map message_id (execute db (sb_union_all a b))
  = map message_id (execute db a) ++ map message_id (execute db b).
Proof. simpl. apply map_app. Qed.

(** C5.  Over any relation whose matching rows have the ids
    10, 20, 30, 40 and 50 (stored in any order), the window planned for
    anchor 30 with one row before, one row after and the anchor
    included, executed and post-processed with visibility floor 0,
    yields the rows 20, 30, 40 in this order, with the anchor found and
    neither end reached. *)
Theorem C5_pagination_exactness (db : Database) (query : Select) (id_col : string) :
  is_id_column id_col ->
  Permutation (map message_id (run_select db query)) [10; 20; 30; 40; 50] ->
  let anchor := 30 in
  let anchored_to_left := anchor =? 0 in
  let anchored_to_right := fetch_anchored_to_right anchor in
  let window :=
    limit_query_to_range query 1 1 anchor true anchored_to_left anchored_to_right
                         id_col 0 in
  let fetched := execute db (sb_ordered_subquery window ("message_id", Asc)) in
  let result :=
    post_process_limited_query message_id fetched 1 1 anchor
                               anchored_to_left anchored_to_right 0 in
  map message_id (rows result) = [20; 30; 40]
  /\ found_anchor result = true
  /\ found_oldest result = false
  /\ found_newest result = false.
Proof.
  intros Hid Hperm anchor anchored_to_left anchored_to_right window fetched result.
  assert (Hfetched : map message_id fetched = [20; 30; 40]).
  { unfold fetched, window, limit_query_to_range. cbn -[execute where_].
    rewrite execute_ordered_ids, execute_union_ids.
    rewrite (execute_ids db query _ (fun i => i <=? 29) id_col Desc 1 Hid)
      by (intros r; simpl; rewrite (int_column_id _ _ Hid); reflexivity).
    rewrite (execute_ids db query _ (fun i => i >=? 30) id_col Asc 2 Hid)
      by (intros r; simpl; rewrite (int_column_id _ _ Hid); reflexivity).
    rewrite (sort_keys_of_perm Desc _ _ (filter_perm (fun i => i <=? 29) _ _ Hperm)).
    rewrite (sort_keys_of_perm Asc _ _ (filter_perm (fun i => i >=? 30) _ _ Hperm)).
    reflexivity. }
  destruct fetched as [| r1 [| r2 [| r3 [| r4 rest]]]]; try discriminate Hfetched.
  simpl in Hfetched. injection Hfetched as H1 H2 H3.
  destruct r1, r2, r3. simpl in H1, H2, H3. subst.
  repeat split; reflexivity.
Qed.

(* ================================================================== *)
(** ** Properties: right-anchored fetches *)
(* ================================================================== *)

(** A fetch that reports an anchor went through the window path: its
    result is the post-processing of the executed window over the
    compiled query. *)
Lemma fetch_messages_window (env : Collaborators) (db : Database)
      (narrow : option (list NarrowParameter)) (user : option UserProfile)
      (realm : Realm) (web_public : bool) (anchor_arg : option Z)
      (include_anchor : bool) (num_before num_after : Z)
      (ids : option (list Z)) (r : FetchedMessages) (a : Z) :
  fetch_messages env db narrow user realm web_public anchor_arg include_anchor
                 num_before num_after ids = Ok r ->
  anchor r = Some a ->
  exists query id_col,
    let fv := get_first_visible_message_id env realm in
    let window :=
      limit_query_to_range query num_before (fetch_num_after a num_after) a
        include_anchor (a =? 0) (fetch_anchored_to_right a) id_col fv in
    limited r
    = post_process_limited_query message_id
        (execute db (sb_ordered_subquery window ("message_id", Asc)))
        num_before (fetch_num_after a num_after) a (a =? 0)
        (fetch_anchored_to_right a) fv.
Proof.
  unfold fetch_messages. intros Hfetch Hanchor.
  destruct (ok_to_include_history env narrow user web_public) as [hist | e];
    [| discriminate Hfetch].
  destruct (get_base_query_for_search db (realm_pk realm) user (negb hist))
    as [[query0 id_col] | e]; [| discriminate Hfetch].
  destruct (add_narrow_conditions env user id_col _ narrow web_public realm)
    as [[[query searching] dm] | e]; [| discriminate Hfetch].
  destruct ids as [ids |].
  - injection Hfetch as <-. discriminate Hanchor.
  - destruct (match anchor_arg with
              | Some anchor0 => Ok anchor0
              | None => find_first_unread_anchor env db user narrow
              end) as [a0 | e]; [| discriminate Hfetch].
    injection Hfetch as <-. simpl in Hanchor. injection Hanchor as ->.
    exists query, id_col. reflexivity.
Qed.

(** C8.  A fetch whose anchor (given, or resolved from "first unread")
    is at or above [LARGER_THAN_MAX_MESSAGE_ID] goes on with
    [num_after = 0]; every row at or above the visibility floor is put
    in the before-partition, the anchor and after partitions being
    empty, so the returned rows are the visible rows (their last
    [num_before] when [num_before] is positive); and the result
    reports [found_newest]. *)
Theorem C8_right_anchored_degeneration (env : Collaborators) (db : Database)
        (narrow : option (list NarrowParameter)) (user : option UserProfile)
        (realm : Realm) (web_public : bool) (anchor_arg : option Z)
        (include_anchor : bool) (num_before num_after : Z)
        (ids : option (list Z)) (r : FetchedMessages) (a : Z) :
  fetch_messages env db narrow user realm web_public anchor_arg include_anchor
                 num_before num_after ids = Ok r ->
  anchor r = Some a ->
  LARGER_THAN_MAX_MESSAGE_ID <= a ->
  fetch_num_after a num_after = 0
  /\ (forall visible,
        partition_rows message_id visible a (fetch_anchored_to_right a)
        = (visible, [], []))
  /\ (exists fetched,
        let visible :=
          visible_rows_of message_id fetched (get_first_visible_message_id env realm) in
        limited r
        = post_process_limited_query message_id fetched num_before 0 a (a =? 0) true
            (get_first_visible_message_id env realm)
        /\ rows (limited r)
           = if num_before =? 0 then visible
             else py_slice_from (-1 * num_before) visible)
  /\ found_anchor (limited r) = false
  /\ found_newest (limited r) = true.
Proof.
  intros Hfetch Hanchor Hlarge.
  assert (Hright : fetch_anchored_to_right a = true).
  { unfold fetch_anchored_to_right. apply Z.geb_le. exact Hlarge. }
  assert (Hafter : fetch_num_after a num_after = 0).
  { unfold fetch_num_after. rewrite Hright. reflexivity. }
  destruct (fetch_messages_window _ _ _ _ _ _ _ _ _ _ _ _ _ Hfetch Hanchor)
    as (query & id_col & Hlimited).
  cbv zeta in Hlimited. rewrite Hafter, Hright in Hlimited.
  split; [exact Hafter |]. split.
  { intros visible. rewrite Hright. reflexivity. }
  split.
  { eexists. split; [exact Hlimited |].
    rewrite Hlimited. unfold post_process_limited_query, partition_rows.
    cbn [rows]. destruct (num_before =? 0); cbn [negb]; rewrite !app_nil_r; reflexivity. }
  rewrite Hlimited. unfold post_process_limited_query, partition_rows.
  split; reflexivity.
Qed.

(* ================================================================== *)
(** ** Properties: what a handler does to the query and the markers *)
(* ================================================================== *)

Lemma extends_refl (q : Select) : extends q q.
Proof.
  repeat split; [exists [] | exists []]; rewrite app_nil_r; reflexivity.
Qed.

Lemma extends_trans (q1 q2 q3 : Select) :
  extends q1 q2 -> extends q2 q3 -> extends q1 q3.
Proof.
  intros (Hf1 & [c1 Hc1] & [l1 Hl1]) (Hf2 & [c2 Hc2] & [l2 Hl2]).
  repeat split.
  - congruence.
  - exists (c1 ++ c2). rewrite Hc2, Hc1, app_assoc. reflexivity.
  - exists (l1 ++ l2). rewrite Hl2, Hl1, app_assoc. reflexivity.
Qed.

Lemma extends_where (q : Select) (c : Cond) : extends q (where_ q c).
Proof.
  repeat split; [exists [c] | exists []]; simpl;
    [reflexivity | rewrite app_nil_r; reflexivity].
Qed.

Lemma extends_add_columns (q : Select) (labels : list string) :
  extends q (add_columns q labels).
Proof.
  repeat split; [exists [] | exists labels]; simpl;
    [rewrite app_nil_r; reflexivity | reflexivity].
Qed.

Create HintDb narrow.
#[local] Hint Resolve extends_refl extends_where extends_add_columns : narrow.

Lemma extends_subset (db : Database) (q q' : Select) :
  extends q q' -> result_subset db q' q.
Proof.
  intros (Hf & [conds Hc] & _) r. unfold run_select. rewrite Hf, Hc.
  rewrite !filter_In, forallb_app, andb_true_iff. tauto.
Qed.

Lemma extends_tsearch_loop (env : Collaborators) (maybe_negate : ConditionTransform)
      (terms : list string) (q : Select) :
  extends q (fold_left (add_quoted_term env maybe_negate) terms q).
Proof.
  revert q. induction terms as [| t terms IH]; intros q; simpl; [auto with narrow |].
  eapply extends_trans; [| apply IH].
  unfold add_quoted_term.
  destruct (is_quote (first_char t) && is_quote (last_char t)); auto with narrow.
Qed.

Lemma extends_by_search_tsearch (env : Collaborators) (q : Select) (operand : string)
      (maybe_negate : ConditionTransform) :
  extends q (_by_search_tsearch env q operand maybe_negate).
Proof.
  unfold _by_search_tsearch.
  eapply extends_trans; [apply extends_add_columns |].
  eapply extends_trans; [apply extends_tsearch_loop | apply extends_where].
Qed.

Lemma extends_by_search_pgroonga (q : Select) (operand : string)
      (maybe_negate : ConditionTransform) :
  extends q (_by_search_pgroonga q operand maybe_negate).
Proof.
  unfold _by_search_pgroonga.
  eapply extends_trans; [apply extends_add_columns | apply extends_where].
Qed.

Lemma extends_by_dm_recipient (self : NarrowBuilder) (env : Collaborators)
      (me : UserProfile) (q : Select) (users : list UserProfile)
      (recipient : Recipient) (maybe_negate : ConditionTransform) :
  extends q (by_dm_recipient env self me q users recipient maybe_negate).
Proof.
  unfold by_dm_recipient.
  destruct (recipient_type recipient); try apply extends_where;
    destruct (find_other_participant me users); apply extends_where.
Qed.

#[local] Hint Resolve extends_by_search_tsearch extends_by_search_pgroonga
  extends_by_dm_recipient : narrow.

Lemma mark_unmarked (st : BuilderState) (t : NarrowParameter) :
  sets_channel_marker t = false -> sets_dm_marker t = false -> mark st t = st.
Proof.
  intros Hc Hd. unfold mark. rewrite Hc, Hd, !orb_false_r. destruct st; reflexivity.
Qed.

Ltac crunch :=
  repeat (cbn [is_not_ is_channel_narrow is_dm_narrow] in *;
          match goal with
          | |- context [match ?x with _ => _ end] =>
              lazymatch x with
              | context [match _ with _ => _ end] => fail
              | _ => destruct x eqn:?
              end
          end).

Ltac use_bools :=
  repeat match goal with
         | H : false = true |- _ => discriminate H
         | H : true = false |- _ => discriminate H
         | H : String.eqb _ _ = true |- _ => apply String.eqb_eq in H; subst
         | H : negb _ = true |- _ => apply negb_true_iff in H
         | H : negb _ = false |- _ => apply negb_false_iff in H
         | H : _ = true |- _ => progress (cbn in H)
         | H : _ = false |- _ => progress (cbn in H)
         | H : ?b = true |- _ => is_var b; subst b
         | H : ?b = false |- _ => is_var b; subst b
         | H : ?b = true |- _ => rewrite ?H in *; clear H
         | H : ?b = false |- _ => rewrite ?H in *; clear H
         end.

Ltac bool_cases :=
  intros; try discriminate; try congruence;
  repeat match goal with b : bool |- _ => destruct b end;
  simpl in *; try discriminate; try congruence; auto.

Ltac finish :=
  cbn [is_channel_narrow is_dm_narrow is_not_ negb orb andb] in *;
  rewrite ?orb_false_r, ?orb_true_r, ?andb_false_r, ?andb_true_r in *;
  use_bools; cbn [is_channel_narrow is_dm_narrow is_not_ negb orb andb str_in existsb] in *;
  rewrite ?orb_false_r, ?orb_true_r, ?andb_false_r, ?andb_true_r in *;
  solve [ split; [solve [auto with narrow] | split; [reflexivity | bool_cases]]
        | split; [discriminate | intros Hmutual; try discriminate Hmutual; split; bool_cases] ].

Lemma add_term_outcome (env : Collaborators) (self : NarrowBuilder)
      (q : Select) (t : NarrowParameter) (st : BuilderState) :
  add_term_post st q t (add_term env self q t st).
Proof.
  unfold add_term_post, add_term, mark, sets_marker, sets_channel_marker, sets_dm_marker,
    term_method.
  destruct (lookup (operator t) by_method_map) as [m |] eqn:Hm.
  2: { simpl. split; [discriminate | intros H; discriminate H]. }
  destruct st as [ch dm], t as [op opnd neg]. cbn [negated operand operator] in *.
  clear Hm.
  destruct m; cbn [call_method].
  all: unfold by_has, by_in, by_is, by_channel, by_channels, by_topic, by_sender, by_near,
    by_id, by_search, by_dm, by_dm_including, by_group_pm_with, by_dm_except, assert_user, assert_,
    check_not_both_channel_and_dm_narrow, bind, raise, ret, is_dm_operand, operand_eq_str,
    mutual_exclusion_error.
  all: crunch.
  all: finish.
Qed.

Ltac finish_transfer :=
  cbn [is_channel_narrow is_dm_narrow is_not_ negb orb andb] in *;
  rewrite ?orb_false_r, ?orb_true_r, ?andb_false_r, ?andb_true_r in *;
  use_bools; cbn [is_channel_narrow is_dm_narrow is_not_ negb orb andb str_in existsb] in *;
  rewrite ?orb_false_r, ?orb_true_r, ?andb_false_r, ?andb_true_r in *;
  solve [ intros Hrun; try discriminate Hrun;
          repeat match goal with b : bool |- _ => destruct b end;
          cbn in *; try discriminate; try reflexivity;
          try (eexists; reflexivity) ].

Lemma add_term_transfer (env : Collaborators) (self : NarrowBuilder)
      (q : Select) (t : NarrowParameter) (st0 : BuilderState)
      (q' : Select) (st0' : BuilderState) :
  add_term env self q t st0 = Ok (q', st0') ->
  forall q2 st,
    if sets_marker t && (is_channel_narrow (mark st t) && is_dm_narrow (mark st t))
    then add_term env self q2 t st = Err mutual_exclusion_error
    else exists q2', add_term env self q2 t st = Ok (q2', mark st t).
Proof.
  intros Hrun q2 st. revert Hrun.
  unfold add_term, mark, sets_marker, sets_channel_marker, sets_dm_marker, term_method.
  destruct (lookup (operator t) by_method_map) as [m |] eqn:Hm; [| discriminate].
  destruct st as [ch dm], st0 as [ch0 dm0], t as [op opnd neg].
  cbn [negated operand operator] in *. clear Hm.
  destruct m; cbn [call_method].
  all: unfold by_has, by_in, by_is, by_channel, by_channels, by_topic, by_sender, by_near,
    by_id, by_search, by_dm, by_dm_including, by_group_pm_with, by_dm_except, assert_user, assert_,
    check_not_both_channel_and_dm_narrow, bind, raise, ret, is_dm_operand, operand_eq_str,
    mutual_exclusion_error.
  all: crunch.
  all: finish_transfer.
Qed.

Lemma search_term_unmarked (t : NarrowParameter) :
  String.eqb (operator t) "search" = true ->
  sets_channel_marker t = false /\ sets_dm_marker t = false.
Proof.
  intros H. apply String.eqb_eq in H. destruct t as [op o n]. simpl in H. subst op.
  split; reflexivity.
Qed.

Lemma mark_all_channel (narrow : list NarrowParameter) (st : BuilderState) :
  is_channel_narrow (mark_all st narrow)
  = is_channel_narrow st || existsb sets_channel_marker narrow.
Proof.
  revert st. induction narrow as [| t narrow IH]; intros st; simpl.
  - rewrite orb_false_r. reflexivity.
  - rewrite IH. simpl. rewrite orb_assoc. reflexivity.
Qed.

Lemma mark_all_dm (narrow : list NarrowParameter) (st : BuilderState) :
  is_dm_narrow (mark_all st narrow)
  = is_dm_narrow st || existsb sets_dm_marker narrow.
Proof.
  revert st. induction narrow as [| t narrow IH]; intros st; simpl.
  - rewrite orb_false_r. reflexivity.
  - rewrite IH. simpl. rewrite orb_assoc. reflexivity.
Qed.

Lemma mark_all_unmarked (narrow : list NarrowParameter) (st : BuilderState) :
  existsb sets_marker narrow = false -> mark_all st narrow = st.
Proof.
  revert st. induction narrow as [| t narrow IH]; intros st H; simpl; [reflexivity |].
  simpl in H. apply orb_false_iff in H as [Ht Hn].
  unfold sets_marker in Ht. apply orb_false_iff in Ht as [Hc Hd].
  rewrite (mark_unmarked st t Hc Hd). apply IH, Hn.
Qed.

Lemma add_terms_loop_outcome (env : Collaborators) (self : NarrowBuilder)
      (narrow : list NarrowParameter) (q : Select) (ops : list Operand)
      (st : BuilderState) :
  loop_post st q ops narrow (add_terms_loop env self narrow q ops st).
Proof.
  revert q ops st. induction narrow as [| t narrow IH]; intros q ops st.
  - simpl. rewrite app_nil_r.
    split; [apply extends_refl |]. split; [reflexivity |]. split; [reflexivity |].
    discriminate.
  - unfold loop_post.
    cbn [add_terms_loop search_operands_of mark_all fold_left existsb].
    fold (mark_all (mark st t) narrow).
    destruct (String.eqb (operator t) "search") eqn:Hsearch.
    + destruct (search_term_unmarked t Hsearch) as [Hc Hd].
      rewrite (mark_unmarked st t Hc Hd).
      assert (Hm : sets_marker t = false) by (unfold sets_marker; rewrite Hc, Hd; reflexivity).
      rewrite Hm. cbn [orb].
      specialize (IH q (ops ++ [operand t]) st). unfold loop_post in *.
      destruct (add_terms_loop env self narrow q (ops ++ [operand t]) st)
        as [[[q' ops'] st'] | e]; [| exact IH].
      destruct IH as (He & Hst & Hops & Hex).
      split; [exact He |]. split; [exact Hst |]. split; [| exact Hex].
      rewrite Hops, <- app_assoc. reflexivity.
    + unfold bind at 1.
      pose proof (add_term_outcome env self q t st) as Hterm. unfold add_term_post in Hterm.
      destruct (add_term env self q t st) as [[q1 st1] | e].
      * destruct Hterm as (He1 & Hst1 & Hnb1). subst st1.
        specialize (IH q1 ops (mark st t)). unfold loop_post in *.
        destruct (add_terms_loop env self narrow q1 ops (mark st t))
          as [[[q' ops'] st'] | e]; [| exact IH].
        destruct IH as (He & Hst & Hops & Hex).
        split; [eapply extends_trans; eassumption |].
        split; [exact Hst |]. split; [exact Hops |].
        intros Hany. destruct (existsb sets_marker narrow) eqn:Hrest.
        -- apply Hex. reflexivity.
        -- rewrite orb_false_r in Hany. rewrite Hst, (mark_all_unmarked _ _ Hrest).
           apply Hnb1, Hany.
      * destruct Hterm as (Hioc & Hmut). split; [exact Hioc |].
        intros ->. destruct (Hmut eq_refl) as [_ Hboth].
        apply andb_true_iff in Hboth as [Hch Hdm].
        rewrite mark_all_channel, mark_all_dm, Hch, Hdm. reflexivity.
Qed.

Lemma add_narrow_conditions_outcome (env : Collaborators) (user : option UserProfile)
      (col : string) (q : Select) (narrow : list NarrowParameter) (web : bool)
      (realm : Realm) :
  compile_post q narrow
    (add_narrow_conditions env user col q (Some narrow) web realm).
Proof.
  unfold add_narrow_conditions, compile_post.
  set (self := mkNarrowBuilder user col realm web).
  set (st0 := mkBuilderState false false).
  unfold bind at 1.
  pose proof (add_terms_loop_outcome env self narrow q [] st0) as Hloop.
  unfold loop_post in Hloop.
  assert (Hch0 : is_channel_narrow (mark_all st0 narrow) = existsb sets_channel_marker narrow)
    by (rewrite mark_all_channel; reflexivity).
  assert (Hdm0 : is_dm_narrow (mark_all st0 narrow) = existsb sets_dm_marker narrow)
    by (rewrite mark_all_dm; reflexivity).
  destruct (add_terms_loop env self narrow q [] st0) as [[[q1 ops] st1] | e].
  - destruct Hloop as (He & Hst & Hops & Hnb).
    assert (Hnot_both :
              existsb sets_channel_marker narrow && existsb sets_dm_marker narrow = false).
    { rewrite <- Hch0, <- Hdm0, <- Hst.
      destruct (existsb sets_marker narrow) eqn:Hany; [apply Hnb; reflexivity |].
      rewrite Hst, (mark_all_unmarked _ _ Hany). reflexivity. }
    destruct ops as [| o ops].
    + unfold ret. split; [exact He |]. split; [| exact Hnot_both].
      rewrite Hst. exact Hdm0.
    + destruct (strings_of_operands (o :: ops)) as [strs |].
      * set (search_term := NarrowParameter_ "search" (OStr (join " " strs))).
        unfold bind.
        pose proof (add_term_outcome env self
                      (add_columns q1 ["escaped_topic_name"; "rendered_content"])
                      search_term st1) as Hterm.
        unfold add_term_post in Hterm.
        destruct (add_term env self _ search_term st1) as [[q2 st2] | e].
        -- destruct Hterm as (He2 & Hst2 & _). unfold ret.
           split.
           { eapply extends_trans; [exact He |].
             eapply extends_trans; [apply extends_add_columns | exact He2]. }
           split; [| exact Hnot_both].
           rewrite Hst2, (mark_unmarked st1 search_term eq_refl eq_refl), Hst.
           exact Hdm0.
        -- destruct Hterm as (Hioc & Hmut). split; [exact Hioc |].
           intros ->. destruct (Hmut eq_refl) as [Hmark _]. discriminate Hmark.
      * unfold raise. split; [discriminate | discriminate].
  - destruct Hloop as (Hioc & Hmut). split; [exact Hioc |].
    intros ->. specialize (Hmut eq_refl). apply andb_true_iff in Hmut as [Hc Hd].
    rewrite <- Hch0, <- Hdm0. split; assumption.
Qed.

Lemma add_narrow_conditions_unfold (env : Collaborators) (user : option UserProfile)
      (col : string) (q : Select) (narrow : list NarrowParameter) (web : bool)
      (realm : Realm) :
  add_narrow_conditions env user col q (Some narrow) web realm
  = let builder := mkNarrowBuilder user col realm web in
    match add_terms_loop env builder narrow q [] (mkBuilderState false false) with
    | Ok (q1, ops, st1) =>
        match search_phase env builder q1 ops st1 with
        | Ok (q2, searching, st2) => Ok (q2, searching, is_dm_narrow st2)
        | Err e => Err e
        end
    | Err e => Err e
    end.
Proof.
  unfold add_narrow_conditions, search_phase, bind. cbv zeta.
  destruct (add_terms_loop env _ narrow q [] _) as [[[q1 ops] st1] | e]; [| reflexivity].
  destruct ops as [| o ops]; [reflexivity |].
  destruct (strings_of_operands (o :: ops)); [| reflexivity].
  destruct (add_term env _ _ _ st1) as [[q2 st2] | e]; reflexivity.
Qed.

Lemma add_terms_loop_app (env : Collaborators) (self : NarrowBuilder)
      (n1 n2 : list NarrowParameter) (q : Select) (ops : list Operand)
      (st : BuilderState) :
  add_terms_loop env self (n1 ++ n2) q ops st
  = match add_terms_loop env self n1 q ops st with
    | Ok (q1, ops1, st1) => add_terms_loop env self n2 q1 ops1 st1
    | Err e => Err e
    end.
Proof.
  revert q ops st. induction n1 as [| t n1 IH]; intros q ops st; simpl; [reflexivity |].
  destruct (String.eqb (operator t) "search"); [apply IH |].
  unfold bind. destruct (add_term env self q t st) as [[q1 st1] | e]; [apply IH | reflexivity].
Qed.

Lemma search_operands_none (narrow : list NarrowParameter) :
  (forall u, In u narrow -> operator u <> "search") -> search_operands_of narrow = [].
Proof.
  induction narrow as [| t n IH]; intros H; simpl; [reflexivity |].
  destruct (String.eqb_spec (operator t) "search") as [E | _].
  - exfalso. apply (H t); [left; reflexivity | exact E].
  - apply IH. intros u Hu. apply H. right. exact Hu.
Qed.

Lemma whereclause_tsearch_loop (env : Collaborators) (mn : ConditionTransform)
      (terms : list string) (q : Select) :
  whereclause (fold_left (add_quoted_term env mn) terms q)
  = whereclause q ++ whereclause (fold_left (add_quoted_term env mn) terms empty_select).
Proof.
  assert (Hstep : forall q0 t,
             whereclause (add_quoted_term env mn q0 t)
             = whereclause q0 ++ whereclause (add_quoted_term env mn empty_select t)).
  { intros q0 t. unfold add_quoted_term.
    destruct (is_quote (first_char t) && is_quote (last_char t)); simpl;
      [reflexivity | rewrite app_nil_r; reflexivity]. }
  revert q. induction terms as [| t terms IH]; intros q; simpl.
  - rewrite app_nil_r. reflexivity.
  - rewrite IH, Hstep.
    rewrite (IH (add_quoted_term env mn empty_select t)), app_assoc. reflexivity.
Qed.

(** The combined search term appends [search_where] to whatever query
    it is given, and leaves the markers alone. *)
Lemma add_term_search (env : Collaborators) (self : NarrowBuilder) (q : Select)
      (operand : string) (st : BuilderState) :
  exists q', add_term env self q (NarrowParameter_ "search" (OStr operand)) st = Ok (q', st)
             /\ from_rows q' = from_rows q
             /\ whereclause q' = whereclause q ++ search_where env operand.
Proof.
  unfold add_term, search_where. cbn. unfold by_search, ret.
  destruct (USING_PGROONGA env).
  - eexists. split; [reflexivity |]. split; reflexivity.
  - eexists. split; [reflexivity |].
    unfold _by_search_tsearch. cbn [where_ from_rows whereclause].
    pose proof (extends_tsearch_loop env identity_lambda (re_findall_terms operand)
                  (add_columns q ["content_matches"; "topic_matches"])) as (Hfrom & _ & _).
    split; [exact Hfrom |].
    rewrite (whereclause_tsearch_loop env identity_lambda _ (add_columns q _)).
    rewrite (whereclause_tsearch_loop env identity_lambda _ (add_columns empty_select _)).
    cbn [add_columns whereclause empty_select app]. rewrite app_assoc. reflexivity.
Qed.

Lemma subset_of_incl (db : Database) (q0 q' : Select) :
  from_rows q' = from_rows q0 ->
  incl (whereclause q0) (whereclause q') ->
  result_subset db q' q0.
Proof.
  intros Hfrom Hincl r. unfold run_select. rewrite Hfrom, !filter_In.
  intros [Hin Hall]. split; [exact Hin |].
  rewrite forallb_forall in *. intros c Hc. apply Hall, Hincl, Hc.
Qed.

Lemma scoping_term_collides (env : Collaborators) (self : NarrowBuilder)
      (q : Select) (t : NarrowParameter) (st : BuilderState) (u : UserProfile) :
  user_profile self = Some u -> is_web_public_query self = false ->
  sets_marker t = true ->
  is_channel_narrow (mark st t) && is_dm_narrow (mark st t) = true ->
  add_term env self q t st = Err mutual_exclusion_error.
Proof.
  intros Huser Hweb. revert Huser Hweb.
  unfold add_term, mark, sets_marker, sets_channel_marker, sets_dm_marker, term_method.
  destruct (lookup (operator t) by_method_map) as [m |] eqn:Hm; [| discriminate].
  destruct st as [ch dm], t as [op opnd neg], self as [user col realm web].
  cbn [negated operand operator user_profile is_web_public_query] in *. clear Hm.
  intros -> ->.
  destruct m; cbn [call_method]; try discriminate.
  all: unfold by_is, by_channel, by_channels, by_topic, by_dm, by_dm_including,
    by_group_pm_with, assert_user, assert_,
    check_not_both_channel_and_dm_narrow, bind, raise, ret, is_dm_operand, operand_eq_str,
    mutual_exclusion_error.
  all: cbn [user_profile is_web_public_query negb].
  all: destruct neg; cbn [is_not_ negb andb orb is_channel_narrow is_dm_narrow];
    rewrite ?andb_false_r, ?andb_true_r, ?orb_false_r, ?orb_true_r; try discriminate.
  all: try (destruct opnd as [s | |]; try discriminate;
            cbn [str_in existsb String.eqb];
            destruct (String.eqb_spec s "dm") as [-> |];
            [| destruct (String.eqb_spec s "private") as [-> |]]).
  all: cbn; destruct ch, dm; cbn; intros; try discriminate; try reflexivity.
Qed.

(** C1 (amended).  [add_term] returns a query over the same FROM
    relation with WHERE clauses and selected columns appended, so every
    row it finds is found by the query it was given; the same holds of
    [add_narrow_conditions] and its base query; and the compilation of
    a narrow is a subset of the compilation of the narrow without its
    last term whenever that term is not a [search] term or no earlier
    term is one. *)
Theorem C1_narrowing_invariant (env : Collaborators) :
  (forall self query term st query' st',
      add_term env self query term st = Ok (query', st') ->
      extends query query' /\ forall db, result_subset db query' query)
  /\ (forall user col query narrow web realm query' searching dm,
        add_narrow_conditions env user col query narrow web realm
        = Ok (query', searching, dm) ->
        extends query query' /\ forall db, result_subset db query' query)
  /\ (forall user col query narrow term web realm query' searching dm,
        add_narrow_conditions env user col query (Some (narrow ++ [term])) web realm
        = Ok (query', searching, dm) ->
        operator term <> "search"
        \/ (forall u, In u narrow -> operator u <> "search") ->
        exists query0 searching0 dm0,
          add_narrow_conditions env user col query (Some narrow) web realm
          = Ok (query0, searching0, dm0)
          /\ forall db, result_subset db query' query0).
Proof.
  split; [| split].
  - intros self query term st query' st' H.
    pose proof (add_term_outcome env self query term st) as Hpost.
    rewrite H in Hpost. destruct Hpost as (He & _).
    split; [exact He |]. intros db. apply extends_subset, He.
  - intros user col query [narrow |] web realm query' searching dm H.
    + pose proof (add_narrow_conditions_outcome env user col query narrow web realm) as Hpost.
      rewrite H in Hpost. destruct Hpost as (He & _).
      split; [exact He |]. intros db. apply extends_subset, He.
    + injection H as <- _ _. split; [apply extends_refl |].
      intros db. apply extends_subset, extends_refl.
  - intros user col query narrow term web realm query' searching dm H Hlast.
    rewrite add_narrow_conditions_unfold in H. rewrite add_narrow_conditions_unfold.
    cbv zeta in *. set (self := mkNarrowBuilder user col realm web) in *.
    set (st0 := mkBuilderState false false) in *.
    rewrite add_terms_loop_app in H.
    pose proof (add_terms_loop_outcome env self narrow query [] st0) as Hloop.
    destruct (add_terms_loop env self narrow query [] st0) as [[[qN ops] stN] | e];
      [| discriminate H].
    destruct Hloop as (_ & _ & Hops & _). simpl in Hops.
    cbn [add_terms_loop] in H.
    destruct (String.eqb_spec (operator term) "search") as [Hsearch | Hnot].
    + (* the last term is the only search term *)
      destruct Hlast as [Hlast | Hnone]; [contradiction |].
      rewrite (search_operands_none narrow Hnone) in Hops. subst ops.
      unfold ret in H. cbn [app] in H.
      exists qN, false, (is_dm_narrow stN). split; [reflexivity |].
      unfold search_phase in H.
      destruct (strings_of_operands [operand term]) as [strs |]; [| discriminate H].
      unfold bind in H.
      pose proof (add_term_outcome env self
                    (add_columns qN ["escaped_topic_name"; "rendered_content"])
                    (NarrowParameter_ "search" (OStr (join " " strs))) stN) as Hterm.
      destruct (add_term env self _ _ stN) as [[q2 st2] | e]; [| discriminate H].
      destruct Hterm as (He & _). injection H as <- _ _.
      intros db. apply extends_subset.
      eapply extends_trans; [apply extends_add_columns | exact He].
    + (* the last term goes through add_term before the search phase *)
      unfold bind, ret in H.
      pose proof (add_term_outcome env self qN term stN) as Hterm.
      destruct (add_term env self qN term stN) as [[q1 st1] | e]; [| discriminate H].
      destruct Hterm as ((Hfrom1 & [cs Hcs] & _) & _).
      unfold search_phase in *.
      destruct ops as [| o ops].
      * unfold ret in *. injection H as <- _ _.
        exists qN, false, (is_dm_narrow stN). split; [reflexivity |].
        intros db. apply subset_of_incl; [exact Hfrom1 |].
        rewrite Hcs. apply incl_appl, incl_refl.
      * destruct (strings_of_operands (o :: ops)) as [strs |]; [| discriminate H].
        unfold bind in *.
        destruct (add_term_search env self
                    (add_columns q1 ["escaped_topic_name"; "rendered_content"])
                    (join " " strs) st1) as (q2 & Hrun2 & Hfrom2 & Hwhere2).
        destruct (add_term_search env self
                    (add_columns qN ["escaped_topic_name"; "rendered_content"])
                    (join " " strs) stN) as (q0 & Hrun0 & Hfrom0 & Hwhere0).
        rewrite Hrun2 in H. rewrite Hrun0. unfold ret in *. injection H as <- _ _.
        exists q0, true, (is_dm_narrow stN). split; [reflexivity |].
        intros db. apply subset_of_incl.
        -- rewrite Hfrom2, Hfrom0. exact Hfrom1.
        -- rewrite Hwhere2, Hwhere0. cbn [add_columns whereclause]. rewrite Hcs.
           intros c Hc. apply in_or_app.
           apply in_app_or in Hc as [Hc | Hc]; [left; apply in_or_app; left; exact Hc | right; exact Hc].
Qed.

Lemma scoped_not_search (t : NarrowParameter) :
  channel_scoped t = true \/ dm_scoped t = true ->
  String.eqb (operator t) "search" = false.
Proof.
  intros H. destruct (String.eqb_spec (operator t) "search") as [E |]; [| reflexivity].
  destruct t as [op o n]. simpl in E. subst op.
  destruct H as [H | H]; discriminate H.
Qed.

Lemma channel_scoped_markers (t : NarrowParameter) :
  channel_scoped t = true ->
  sets_channel_marker t = negb (negated t) /\ sets_dm_marker t = false.
Proof.
  unfold channel_scoped, sets_channel_marker, sets_dm_marker.
  destruct (term_method t) as [[] |]; try discriminate; intros _; split; reflexivity.
Qed.

Lemma dm_scoped_markers (t : NarrowParameter) :
  dm_scoped t = true ->
  sets_dm_marker t = negb (negated t)
  /\ sets_channel_marker t = is_dm_term t && negated t.
Proof.
  unfold dm_scoped, sets_channel_marker, sets_dm_marker, is_dm_term.
  destruct (term_method t) as [[] |]; try discriminate; intros H; try rewrite H;
    split; reflexivity.
Qed.

Lemma existsb_of_In {A} (p : A -> bool) (l : list A) (x : A) :
  In x l -> p x = true -> existsb p l = true.
Proof. intros Hin Hp. apply existsb_exists. exists x. split; assumption. Qed.

(** Compiling two terms that are not search terms, step by step. *)
Lemma compile_pair (env : Collaborators) (user : option UserProfile) (col : string)
      (q : Select) (t1 t2 : NarrowParameter) (web : bool) (realm : Realm) :
  String.eqb (operator t1) "search" = false ->
  String.eqb (operator t2) "search" = false ->
  add_narrow_conditions env user col q (Some [t1; t2]) web realm
  = let self := mkNarrowBuilder user col realm web in
    match add_term env self q t1 (mkBuilderState false false) with
    | Ok (q1, st1) =>
        match add_term env self q1 t2 st1 with
        | Ok (q2, st2) => Ok (q2, false, is_dm_narrow st2)
        | Err e => Err e
        end
    | Err e => Err e
    end.
Proof.
  intros H1 H2. rewrite add_narrow_conditions_unfold. cbv zeta.
  cbn [add_terms_loop]. rewrite H1, H2. unfold bind, ret.
  destruct (add_term env _ q t1 _) as [[q1 st1] | e]; [| reflexivity].
  destruct (add_term env _ q1 t2 st1) as [[q2 st2] | e]; reflexivity.
Qed.

(** C2 (amended).  A narrow with a non-negated term of the channel
    class and a non-negated term of the direct-message class never
    compiles, and the error is never [InvalidOperatorCombinationError]:
    for a signed-in user, once the first of two such terms has
    compiled the second raises [BadNarrowOperatorError] with the
    message that no message can be both a channel message and a direct
    message.  With one of the two terms negated, the pair compiles, in
    either order, whenever each term compiles on its own. *)
Theorem C2_channel_dm_mutual_exclusion (env : Collaborators) :
  (forall user col query narrow web realm t1 t2,
      In t1 narrow -> In t2 narrow ->
      channel_scoped t1 = true -> negated t1 = false ->
      dm_scoped t2 = true -> negated t2 = false ->
      exists e,
        add_narrow_conditions env user col query (Some narrow) web realm = Err e
        /\ forall d, e <> InvalidOperatorCombinationError d)
  /\ (forall u col query realm t1 t2 query1 st1,
        let self := mkNarrowBuilder (Some u) col realm false in
        channel_scoped t1 = true -> negated t1 = false ->
        dm_scoped t2 = true -> negated t2 = false ->
        (add_term env self query t1 (mkBuilderState false false) = Ok (query1, st1) ->
         add_narrow_conditions env (Some u) col query (Some [t1; t2]) false realm
         = Err mutual_exclusion_error)
        /\ (add_term env self query t2 (mkBuilderState false false) = Ok (query1, st1) ->
            add_narrow_conditions env (Some u) col query (Some [t2; t1]) false realm
            = Err mutual_exclusion_error))
  /\ (forall user col query web realm t1 t2 qa sa qb sb,
        let self := mkNarrowBuilder user col realm web in
        channel_scoped t1 = true -> dm_scoped t2 = true ->
        negated t1 <> negated t2 ->
        add_term env self query t1 (mkBuilderState false false) = Ok (qa, sa) ->
        add_term env self query t2 (mkBuilderState false false) = Ok (qb, sb) ->
        is_ok (add_narrow_conditions env user col query (Some [t1; t2]) web realm) = true
        /\ is_ok (add_narrow_conditions env user col query (Some [t2; t1]) web realm) = true).
Proof.
  split; [| split].
  - intros user col query narrow web realm t1 t2 Hin1 Hin2 Hc Hn1 Hd Hn2.
    destruct (channel_scoped_markers t1 Hc) as [Hc1 _].
    destruct (dm_scoped_markers t2 Hd) as [Hd2 _].
    rewrite Hn1 in Hc1. rewrite Hn2 in Hd2.
    pose proof (add_narrow_conditions_outcome env user col query narrow web realm) as Hpost.
    unfold compile_post in Hpost.
    destruct (add_narrow_conditions env user col query (Some narrow) web realm)
      as [[[q' searching] dm] | e].
    + destruct Hpost as (_ & _ & Hnot_both).
      rewrite (existsb_of_In _ _ _ Hin1 Hc1), (existsb_of_In _ _ _ Hin2 Hd2) in Hnot_both.
      discriminate Hnot_both.
    + exists e. split; [reflexivity | apply Hpost].
  - intros u col query realm t1 t2 query1 st1 self Hc Hn1 Hd Hn2.
    destruct (channel_scoped_markers t1 Hc) as [Hc1 Hd1].
    destruct (dm_scoped_markers t2 Hd) as [Hd2 Hc2].
    rewrite Hn1 in Hc1. rewrite Hn2 in Hd2, Hc2. rewrite andb_false_r in Hc2.
    pose proof (scoped_not_search t1 (or_introl Hc)) as Hs1.
    pose proof (scoped_not_search t2 (or_intror Hd)) as Hs2.
    split; intros Hfirst.
    + rewrite (compile_pair env (Some u) col query t1 t2 false realm Hs1 Hs2).
      cbv zeta. fold self. rewrite Hfirst.
      pose proof (add_term_outcome env self query t1 (mkBuilderState false false)) as Hpost.
      rewrite Hfirst in Hpost. destruct Hpost as (_ & -> & _).
      rewrite (scoping_term_collides env self query1 t2 _ u eq_refl eq_refl);
        [reflexivity | |].
      * unfold sets_marker. rewrite Hd2. apply orb_true_r.
      * unfold mark. cbn. rewrite Hc1, Hd1, Hc2, Hd2. reflexivity.
    + rewrite (compile_pair env (Some u) col query t2 t1 false realm Hs2 Hs1).
      cbv zeta. fold self. rewrite Hfirst.
      pose proof (add_term_outcome env self query t2 (mkBuilderState false false)) as Hpost.
      rewrite Hfirst in Hpost. destruct Hpost as (_ & -> & _).
      rewrite (scoping_term_collides env self query1 t1 _ u eq_refl eq_refl);
        [reflexivity | |].
      * unfold sets_marker. rewrite Hc1. reflexivity.
      * unfold mark. cbn. rewrite Hc1, Hd1, Hc2, Hd2. reflexivity.
  - intros user col query web realm t1 t2 qa sa qb sb self Hc Hd Hneg Ha Hb.
    destruct (channel_scoped_markers t1 Hc) as [Hc1 Hd1].
    destruct (dm_scoped_markers t2 Hd) as [Hd2 Hc2].
    pose proof (scoped_not_search t1 (or_introl Hc)) as Hs1.
    pose proof (scoped_not_search t2 (or_intror Hd)) as Hs2.
    pose proof (add_term_outcome env self query t1 (mkBuilderState false false)) as Hpa.
    rewrite Ha in Hpa. destruct Hpa as (_ & Hsa & _).
    pose proof (add_term_outcome env self query t2 (mkBuilderState false false)) as Hpb.
    rewrite Hb in Hpb. destruct Hpb as (_ & Hsb & _).
    split.
    + rewrite (compile_pair env user col query t1 t2 web realm Hs1 Hs2).
      cbv zeta. fold self. rewrite Ha.
      pose proof (add_term_transfer env self query t2 _ qb sb Hb qa sa) as Ht.
      subst sa. clear Ha Hb Hsb. revert Ht.
      unfold sets_marker, mark. cbn [is_channel_narrow is_dm_narrow orb].
      rewrite Hc1, Hd1, Hc2, Hd2.
      destruct (negated t1), (negated t2); try congruence;
        rewrite ?andb_false_r, ?andb_true_r, ?orb_false_r; cbn [negb andb orb];
        intros [q2 ->]; reflexivity.
    + rewrite (compile_pair env user col query t2 t1 web realm Hs2 Hs1).
      cbv zeta. fold self. rewrite Hb.
      pose proof (add_term_transfer env self query t1 _ qa sa Ha qb sb) as Ht.
      subst sb. clear Ha Hb Hsa. revert Ht.
      unfold sets_marker, mark. cbn [is_channel_narrow is_dm_narrow orb].
      rewrite Hc1, Hd1, Hc2, Hd2.
      destruct (negated t1), (negated t2); try congruence;
        rewrite ?andb_false_r, ?andb_true_r, ?orb_false_r, ?orb_true_r; cbn [negb andb orb];
        intros [q2 ->]; reflexivity.
Qed.

Lemma negated_markers (t : NarrowParameter) :
  negated t = true ->
  sets_dm_marker t = false /\ sets_channel_marker t = is_dm_term t.
Proof.
  intros Hn. unfold sets_dm_marker, sets_channel_marker, is_dm_term. rewrite Hn.
  destruct (term_method t) as [[] |]; cbn; rewrite ?andb_false_r, ?andb_true_r;
    split; reflexivity.
Qed.

(** C3 (amended).  A negated term other than [is:dm] / [is:private]
    leaves both markers as they were and never raises the
    mutual-exclusion error.  A negated [is:dm] / [is:private] counts as
    channel scoping: it sets the channel marker, and raises the
    mutual-exclusion error when the direct-message marker is already
    set.  A narrow compiles without the mutual-exclusion error whenever
    no term sets the channel marker or no term sets the direct-message
    marker, the negated [is:dm] being among the terms that set the
    channel marker. *)
Theorem C3_negated_terms (env : Collaborators) :
  (forall self query term st,
      negated term = true -> is_dm_term term = false ->
      (forall query' st', add_term env self query term st = Ok (query', st') -> st' = st)
      /\ add_term env self query term st <> Err mutual_exclusion_error)
  /\ (forall self query term st u,
        negated term = true -> is_dm_term term = true ->
        user_profile self = Some u -> is_web_public_query self = false ->
        if is_dm_narrow st
        then add_term env self query term st = Err mutual_exclusion_error
        else exists query',
            add_term env self query term st = Ok (query', mkBuilderState true false))
  /\ (forall user col query narrow web realm,
        (forall t, In t narrow -> sets_channel_marker t = false)
        \/ (forall t, In t narrow -> sets_dm_marker t = false) ->
        add_narrow_conditions env user col query (Some narrow) web realm
        <> Err mutual_exclusion_error).
Proof.
  split; [| split].
  - intros self query term st Hn Hdm.
    destruct (negated_markers term Hn) as [Hd Hc]. rewrite Hdm in Hc.
    pose proof (add_term_outcome env self query term st) as Hpost.
    unfold add_term_post in Hpost. split.
    + intros query' st' Hrun. rewrite Hrun in Hpost.
      destruct Hpost as (_ & -> & _). apply mark_unmarked; assumption.
    + intros Hrun. rewrite Hrun in Hpost. destruct Hpost as (_ & Hmut).
      destruct (Hmut eq_refl) as [Hmark _].
      unfold sets_marker in Hmark. rewrite Hc, Hd in Hmark. discriminate Hmark.
  - intros self query term st u Hn Hdm Huser Hweb.
    destruct (negated_markers term Hn) as [Hd Hc]. rewrite Hdm in Hc.
    destruct (is_dm_narrow st) eqn:Hst.
    + apply (scoping_term_collides env self query term st u Huser Hweb).
      * unfold sets_marker. rewrite Hc. reflexivity.
      * unfold mark. cbn. rewrite Hc, Hst, orb_true_r. reflexivity.
    + pose proof (add_term_outcome env self query term st) as Hpost.
      unfold add_term_post in Hpost.
      destruct (add_term env self query term st) as [[query' st'] | e] eqn:Hrun.
      * destruct Hpost as (_ & -> & _). exists query'. unfold mark.
        rewrite Hc, Hd, Hst, orb_true_r. reflexivity.
      * exfalso. revert Hrun. clear Hpost.
        unfold add_term. unfold is_dm_term, term_method in Hdm.
        destruct (lookup (operator term) by_method_map) as [[] |]; try discriminate Hdm.
        cbn [call_method]. unfold by_is, bind, assert_user, assert_, ret, raise.
        rewrite Huser, Hweb, Hn. cbn [negb is_not_].
        unfold is_dm_operand in Hdm. destruct (operand term) as [s | |]; try discriminate Hdm.
        rewrite Hdm. unfold operand_eq_str.
        assert (Hres : String.eqb s "resolved" = false).
        { destruct (String.eqb_spec s "resolved") as [-> |]; [discriminate Hdm | reflexivity]. }
        rewrite Hres. unfold check_not_both_channel_and_dm_narrow.
        destruct st as [ch dm]. cbn in Hst. subst dm. cbn. discriminate.
  - intros user col query narrow web realm Hnone Hrun.
    pose proof (add_narrow_conditions_outcome env user col query narrow web realm) as Hpost.
    rewrite Hrun in Hpost. destruct Hpost as (_ & Hmut).
    destruct (Hmut eq_refl) as [Hc Hd].
    apply existsb_exists in Hc as (tc & Hin_c & Hc).
    apply existsb_exists in Hd as (td & Hin_d & Hd).
    destruct Hnone as [Hnone | Hnone].
    + rewrite (Hnone tc Hin_c) in Hc. discriminate Hc.
    + rewrite (Hnone td Hin_d) in Hd. discriminate Hd.
Qed.

(* ================================================================== *)
(** ** Properties: history policy *)
(* ================================================================== *)

Lemma history_scan_true (env : Collaborators) (u : UserProfile)
      (narrow : list NarrowParameter) (b : bool) :
  fold_left (history_step env u) narrow b = true ->
  b = true \/ exists t, In t narrow /\ grants_history_term env u t = true.
Proof.
  revert b. induction narrow as [| t narrow IH]; intros b H; simpl in H; [left; exact H |].
  apply IH in H as [H | (t' & Hin & Ht')].
  - unfold history_step in H.
    destruct (str_in (operator t) channel_operators && negb (negated t)) eqn:Hchan.
    + right. exists t. split; [left; reflexivity |].
      unfold grants_history_term. rewrite Hchan. exact H.
    + destruct (str_in (operator t) channels_operators
                && operand_eq_str (operand t) "public" && negb (negated t)
                && can_access_public_streams u) eqn:Hpub.
      * right. exists t. split; [left; reflexivity |].
        unfold grants_history_term. rewrite Hchan, Hpub. reflexivity.
      * left. exact H.
  - right. exists t'. split; [right; exact Hin | exact Ht'].
Qed.

Lemma personal_scan_false (narrow : list NarrowParameter) :
  fold_left personal_step narrow false = false.
Proof.
  induction narrow as [| t narrow IH]; simpl; [reflexivity |].
  unfold personal_step at 2. destruct (_ && _); exact IH.
Qed.

Lemma personal_scan_true (narrow : list NarrowParameter) (b : bool) :
  fold_left personal_step narrow b = true ->
  b = true /\ forall t, In t narrow -> is_personal_term t = false.
Proof.
  revert b. induction narrow as [| t narrow IH]; intros b H; simpl in H.
  - split; [exact H | intros t []].
  - unfold personal_step at 2 in H. fold (is_personal_term t) in H.
    destruct (is_personal_term t) eqn:Ht.
    + rewrite personal_scan_false in H. discriminate H.
    + apply IH in H as [Hb Hrest]. split; [exact Hb |].
      intros t' [<- | Hin]; [exact Ht | apply Hrest, Hin].
Qed.

Lemma ok_to_include_history_unfold (env : Collaborators) (u : UserProfile)
      (narrow : list NarrowParameter) :
  ok_to_include_history env (Some narrow) (Some u) false
  = Ok (fold_left personal_step narrow (fold_left (history_step env u) narrow false)).
Proof. reflexivity. Qed.

(** C4.  For a signed-in request that is not web-public,
    [ok_to_include_history] always returns; it returns [true] only if
    the narrow has a non-negated [channel] / [stream] term whose channel
    grants this user its history, or a non-negated [channels:public] /
    [streams:public] term when the user may access public channels; and
    it returns [false] as soon as the narrow has an [is] term whose
    operand is not [resolved]. *)
Theorem C4_ok_to_include_history (env : Collaborators) (u : UserProfile) :
  (forall narrow, exists b, ok_to_include_history env narrow (Some u) false = Ok b)
  /\ (forall narrow,
        ok_to_include_history env narrow (Some u) false = Ok true ->
        exists terms t,
          narrow = Some terms /\ In t terms /\ negated t = false
          /\ ((str_in (operator t) channel_operators = true
               /\ (match operand t with
                   | OStr name => can_access_stream_history_by_name env u name
                   | id => can_access_stream_history_by_id env u id
                   end) = true)
              \/ (str_in (operator t) channels_operators = true
                  /\ operand t = OStr "public"
                  /\ can_access_public_streams u = true)))
  /\ (forall terms t,
        In t terms -> operator t = "is" -> operand t <> OStr "resolved" ->
        ok_to_include_history env (Some terms) (Some u) false = Ok false).
Proof.
  split; [| split].
  - intros [terms |]; eexists; reflexivity.
  - intros [terms |] H; [| discriminate H].
    rewrite ok_to_include_history_unfold in H. injection H as H.
    apply personal_scan_true in H as [H _].
    apply history_scan_true in H as [H | (t & Hin & Ht)]; [discriminate H |].
    exists terms, t. split; [reflexivity |]. split; [exact Hin |].
    unfold grants_history_term in Ht.
    destruct (str_in (operator t) channel_operators && negb (negated t)) eqn:Hchan.
    + apply andb_true_iff in Hchan as [Hop Hneg]. apply negb_true_iff in Hneg.
      split; [exact Hneg |]. left. split; [exact Hop | exact Ht].
    + destruct (str_in (operator t) channels_operators
                && operand_eq_str (operand t) "public" && negb (negated t)
                && can_access_public_streams u) eqn:Hpub; [| discriminate Ht].
      apply andb_true_iff in Hpub as [Hpub Hcan].
      apply andb_true_iff in Hpub as [Hpub Hneg]. apply negb_true_iff in Hneg.
      apply andb_true_iff in Hpub as [Hop Hoperand].
      split; [exact Hneg |]. right. split; [exact Hop |]. split; [| exact Hcan].
      unfold operand_eq_str in Hoperand.
      destruct (operand t) as [s | |]; try discriminate Hoperand.
      apply String.eqb_eq in Hoperand. subst s. reflexivity.
  - intros terms t Hin Hop Hoperand.
    rewrite ok_to_include_history_unfold. f_equal.
    destruct (fold_left personal_step terms _) eqn:H; [| reflexivity].
    apply personal_scan_true in H as [_ Hnone].
    specialize (Hnone t Hin). unfold is_personal_term in Hnone.
    rewrite Hop in Hnone. cbn [String.eqb] in Hnone.
    assert (Hres : operand_eq_str (operand t) "resolved" = false).
    { unfold operand_eq_str. destruct (operand t) as [s | |]; try reflexivity.
      destruct (String.eqb_spec s "resolved") as [-> |]; [| reflexivity].
      exfalso. apply Hoperand. reflexivity. }
    rewrite Hres in Hnone. revert Hnone. vm_compute. discriminate.
Qed.

(* ================================================================== *)
(** ** Properties: the [with] operator *)
(* ================================================================== *)

Lemma Operand_eqb_refl (o : Operand) : Operand_eqb o o = true.
Proof.
  destruct o as [s | n | l]; simpl.
  - apply String.eqb_refl.
  - apply Z.eqb_refl.
  - destruct (list_eq_dec Z.eq_dec l l); [reflexivity | contradiction].
Qed.

Lemma NarrowParameter_eqb_refl (t : NarrowParameter) : NarrowParameter_eqb t t = true.
Proof.
  unfold NarrowParameter_eqb.
  rewrite String.eqb_refl, Operand_eqb_refl, Bool.eqb_reflx. reflexivity.
Qed.

Lemma filter_none_id {A} (p : A -> bool) (l : list A) :
  filter p l = [] -> filter (fun x => negb (p x)) l = l.
Proof.
  induction l as [| a l IH]; simpl; [reflexivity |].
  destruct (p a); [discriminate |]. intros H. simpl. f_equal. apply IH, H.
Qed.

(** Removing the one [with] term is removing every [with] term. *)
Lemma list_remove_with (narrow : list NarrowParameter) (with_term : NarrowParameter) :
  filter is_with_term narrow = [with_term] ->
  list_remove with_term narrow = filter (fun t => negb (is_with_term t)) narrow.
Proof.
  induction narrow as [| t narrow IH]; intros H; simpl in *; [discriminate H |].
  destruct (is_with_term t) eqn:Ht; simpl.
  - injection H as -> Hrest. rewrite NarrowParameter_eqb_refl.
    symmetry. apply filter_none_id, Hrest.
  - assert (Hwith : is_with_term with_term = true).
    { assert (Hin : In with_term (filter is_with_term narrow))
        by (rewrite H; left; reflexivity).
      apply filter_In in Hin. apply Hin. }
    assert (Hne : NarrowParameter_eqb t with_term = false).
    { unfold NarrowParameter_eqb.
      destruct (String.eqb_spec (operator t) (operator with_term)) as [E |]; [| reflexivity].
      unfold is_with_term in *. rewrite E, Hwith in Ht. discriminate Ht. }
    rewrite Hne. f_equal. apply IH, H.
Qed.



(* ================================================================== *)
(** ** The statements at sample inputs *)
(* ================================================================== *)

Lemma C1_narrowing_invariant_witness :
  exists query' query0 searching0 dm0,
    compile_example false (base_of two_messages)
      ([mkTerm "search" (OStr "foo") false] ++ [mkTerm "is" (OStr "unread") true])
    = Ok (query', true, false)
    /\ compile_example false (base_of two_messages) [mkTerm "search" (OStr "foo") false]
       = Ok (query0, searching0, dm0)
    /\ forall db, result_subset db query' query0.
Proof.
  destruct (C1_narrowing_invariant (example_env false)) as (_ & _ & Hlast).
  assert (Hrun' : exists query',
             compile_example false (base_of two_messages)
               ([mkTerm "search" (OStr "foo") false] ++ [mkTerm "is" (OStr "unread") true])
             = Ok (query', true, false))
    by (eexists; reflexivity).
  destruct Hrun' as [query' Hrun'].
  destruct (Hlast _ _ _ _ _ _ _ _ _ _ Hrun') as (query0 & searching0 & dm0 & Hrun & Hsub).
  - left. simpl. discriminate.
  - exists query', query0, searching0, dm0.
    split; [exact Hrun' |]. split; [exact Hrun | exact Hsub].
Defined.

(** With PGroonga's query language, joining the operand [OR bar] to
    the operand [foo] widens the search: the message [bar] is found by
    the narrow of the two search terms and not by the narrow of the
    first one alone. *)
Lemma C1_counterexample :
  let db := example_db two_messages in
  let narrow := [mkTerm "search" (OStr "foo") false; mkTerm "search" (OStr "OR bar") false] in
  exists query' query0,
    compile_example true (base_of two_messages) narrow = Ok (query', true, false)
    /\ compile_example true (base_of two_messages) (removelast narrow)
       = Ok (query0, true, false)
    /\ In (message 2 "bar") (run_select db query')
    /\ ~ In (message 2 "bar") (run_select db query0).
Proof.
  cbv zeta. eexists. eexists.
  split; [reflexivity |]. split; [reflexivity |].
  split.
  - vm_compute. right. left. reflexivity.
  - vm_compute. intros [H | []]. discriminate H.
Qed.

Lemma C2_channel_dm_mutual_exclusion_witness :
  (exists e,
      compile_example true (base_of two_messages) [channel_verona; dm_othello] = Err e
      /\ forall d, e <> InvalidOperatorCombinationError d)
  /\ is_ok (compile_example true (base_of two_messages) [channel_verona; not_dm_othello])
     = true.
Proof.
  destruct (C2_channel_dm_mutual_exclusion (example_env true)) as (Hboth & _ & Hone).
  split.
  - apply (Hboth (Some hamlet) "message_id" (base_of two_messages)
                 [channel_verona; dm_othello] false example_realm
                 channel_verona dm_othello).
    + left. reflexivity.
    + right. left. reflexivity.
    + reflexivity.
    + reflexivity.
    + reflexivity.
    + reflexivity.
  - refine (proj1 (Hone (Some hamlet) "message_id" (base_of two_messages) false
                        example_realm channel_verona not_dm_othello
                        _ _ _ _ eq_refl eq_refl _ eq_refl eq_refl)).
    simpl. discriminate.
Defined.

(** The narrow [channel:Verona dm:[7]] fails with
    [BadNarrowOperatorError], not [InvalidOperatorCombinationError]. *)
Lemma C2_counterexample :
  compile_example true (base_of two_messages) [channel_verona; dm_othello]
  = Err (BadNarrowOperatorError
           "No message can be both a channel message and direct message")
  /\ forall d,
      compile_example true (base_of two_messages) [channel_verona; dm_othello]
      <> Err (InvalidOperatorCombinationError d).
Proof.
  split; [reflexivity |]. intros d. vm_compute. discriminate.
Qed.

Lemma C3_negated_terms_witness :
  (forall query' st',
      add_term (example_env true)
               (mkNarrowBuilder (Some hamlet) "message_id" example_realm false)
               (base_of two_messages) not_dm_othello (mkBuilderState true false)
      = Ok (query', st') ->
      st' = mkBuilderState true false)
  /\ compile_example true (base_of two_messages) [channel_verona; not_dm_othello; not_is_dm]
     <> Err mutual_exclusion_error.
Proof.
  destruct (C3_negated_terms (example_env true)) as (Hneg & _ & Hnarrow).
  split.
  - apply (Hneg (mkNarrowBuilder (Some hamlet) "message_id" example_realm false)
                (base_of two_messages) not_dm_othello (mkBuilderState true false));
      reflexivity.
  - apply Hnarrow. right. intros t [<- | [<- | [<- | []]]]; reflexivity.
Defined.

(** The negated [is:dm] sets the channel marker, and after a
    non-negated [dm] term it raises the mutual-exclusion error although
    no channel term of the narrow is non-negated. *)
Lemma C3_counterexample :
  (exists query',
      add_term (example_env true)
               (mkNarrowBuilder (Some hamlet) "message_id" example_realm false)
               (base_of two_messages) not_is_dm (mkBuilderState false false)
      = Ok (query', mkBuilderState true false))
  /\ compile_example true (base_of two_messages) [dm_othello; not_is_dm]
     = Err mutual_exclusion_error
  /\ negated not_is_dm = true
  /\ channel_scoped dm_othello = false.
Proof.
  split; [eexists; vm_compute; reflexivity |]. repeat split.
Qed.

Lemma C4_ok_to_include_history_witness :
  (exists terms t,
      Some [channel_verona] = Some terms /\ In t terms /\ negated t = false
      /\ ((str_in (operator t) channel_operators = true
           /\ (match operand t with
               | OStr name => can_access_stream_history_by_name (example_env true) hamlet name
               | id => can_access_stream_history_by_id (example_env true) hamlet id
               end) = true)
          \/ (str_in (operator t) channels_operators = true
              /\ operand t = OStr "public"
              /\ can_access_public_streams hamlet = true)))
  /\ ok_to_include_history (example_env true)
       (Some [channel_verona; mkTerm "is" (OStr "starred") true]) (Some hamlet) false
     = Ok false.
Proof.
  destruct (C4_ok_to_include_history (example_env true) hamlet) as (_ & Honly & Hpersonal).
  split.
  - apply (Honly (Some [channel_verona])). reflexivity.
  - apply (Hpersonal _ (mkTerm "is" (OStr "starred") true)).
    + right. left. reflexivity.
    + reflexivity.
    + discriminate.
Defined.

Lemma five_messages_ids :
  Permutation (map message_id (run_select (example_db five_messages) (base_of five_messages)))
              [10; 20; 30; 40; 50].
Proof.
  apply NoDup_Permutation.
  - vm_compute. repeat constructor; simpl; intuition discriminate.
  - repeat constructor; simpl; intuition discriminate.
  - intros x. vm_compute. tauto.
Qed.

Lemma C5_pagination_exactness_witness :
  let fetched :=
    execute (example_db five_messages)
      (sb_ordered_subquery
         (limit_query_to_range (base_of five_messages) 1 1 30 true false false
                               "message_id" 0)
         ("message_id", Asc)) in
  let result := post_process_limited_query message_id fetched 1 1 30 false false 0 in
  map message_id (rows result) = [20; 30; 40]
  /\ found_anchor result = true
  /\ found_oldest result = false
  /\ found_newest result = false.
Proof.
  exact (C5_pagination_exactness (example_db five_messages) (base_of five_messages)
           "message_id" (or_introl eq_refl) five_messages_ids).
Defined.

Lemma C6_truncation_and_order_witness :
  let fetched := map example_row [10; 20; 30; 40; 50] in
  let result := rows (post_process_limited_query message_id fetched 1 1 30 false false 0) in
  result = map example_row [20; 30; 40] /\ ascending message_id result.
Proof.
  destruct (C6_truncation_and_order message_id (map example_row [10; 20; 30; 40; 50])
              1 1 30 false 0 ltac:(lia) ltac:(lia)) as (Hrows & _ & Hsorted).
  split.
  - exact Hrows.
  - apply Hsorted. unfold ascending.
    repeat (constructor; try (unfold row_le; simpl; lia)).
Defined.

(** With both counts zero the before and after partitions are returned
    whole, where the specification asks for them to be empty. *)
Lemma C6_counterexample :
  let fetched := map example_row [10; 20; 30] in
  rows (post_process_limited_query message_id fetched 0 0 20 false false 0)
  = map example_row [10; 20; 30]
  /\ spec_limited_rows message_id (visible_rows_of message_id fetched 0) 0 0 20
     = map example_row [20]
  /\ rows (post_process_limited_query message_id fetched 0 0 20 false false 0)
     <> spec_limited_rows message_id (visible_rows_of message_id fetched 0) 0 0 20.
Proof.
  cbv zeta. split; [reflexivity |]. split; [reflexivity |].
  vm_compute. discriminate.
Qed.

(** A right-anchored fetch never reports the anchor, even when exactly
    one visible row carries the anchor's id. *)
Lemma C7_counterexample :
  let fetched := [example_row LARGER_THAN_MAX_MESSAGE_ID] in
  let result :=
    post_process_limited_query message_id fetched 0 0 LARGER_THAN_MAX_MESSAGE_ID
      false (fetch_anchored_to_right LARGER_THAN_MAX_MESSAGE_ID) 0 in
  List.length (filter (fun r => message_id r =? LARGER_THAN_MAX_MESSAGE_ID)
                      (visible_rows_of message_id fetched 0)) = 1%nat
  /\ found_anchor result = false.
Proof. split; reflexivity. Qed.

Lemma C8_right_anchored_degeneration_witness :
  exists r,
    fetch_messages (example_env true) (example_db five_messages) (Some [])
                   (Some hamlet) example_realm false (Some LARGER_THAN_MAX_MESSAGE_ID)
                   true 2 5 None = Ok r
    /\ map message_id (rows (limited r)) = [40; 50]
    /\ found_anchor (limited r) = false
    /\ found_newest (limited r) = true.
Proof.
  eexists. split; [vm_compute; reflexivity |].
  match goal with
  | |- context [limited ?r] =>
      destruct (C8_right_anchored_degeneration (example_env true)
                  (example_db five_messages) (Some []) (Some hamlet) example_realm false
                  (Some LARGER_THAN_MAX_MESSAGE_ID) true 2 5 None r
                  LARGER_THAN_MAX_MESSAGE_ID)
        as (_ & _ & _ & Hanchor & Hnewest)
  end.
  - vm_compute. reflexivity.
  - reflexivity.
  - lia.
  - split; [reflexivity |]. split; [exact Hanchor | exact Hnewest].
Defined.





(* ================================================================== *)
(** ** Properties: sorting rows, windows and post-processing in general *)
(* ================================================================== *)

Lemma insert_row_perm (key : Row -> Z) (dir : Direction) (x : Row) (l : list Row) :
  Permutation (insert_row key dir x l) (x :: l).
Proof.
  induction l as [| y l IH]; simpl; [apply Permutation_refl |].
  destruct (match dir with Asc => key x <=? key y | Desc => key x >=? key y end).
  - apply Permutation_refl.
  - eapply perm_trans; [apply perm_skip, IH | apply perm_swap].
Qed.

Lemma sort_rows_perm (order_by : string * Direction) (l : list Row) :
  Permutation (sort_rows order_by l) l.
Proof.
  unfold sort_rows. induction l as [| x l IH]; simpl; [apply Permutation_refl |].
  eapply perm_trans; [apply insert_row_perm | apply perm_skip, IH].
Qed.

Lemma sorted_of_map {A} (key : A -> Z) (l : list A) :
  StronglySorted Z.le (map key l) -> StronglySorted (row_le key) l.
Proof.
  induction l as [| a l IH]; simpl; intros H; [constructor |].
  inversion H as [| ? ? Hs Hall]; subst.
  constructor; [apply IH, Hs |].
  rewrite Forall_forall in *. intros x Hx. apply Hall, in_map, Hx.
Qed.

Lemma sort_rows_sorted (name : string) (l : list Row) :
  StronglySorted (row_le (int_column name)) (sort_rows (name, Asc) l).
Proof.
  apply sorted_of_map. rewrite map_sort_rows. apply (sort_keys_sorted Asc).
Qed.

Lemma filter_length_le {A} (p : A -> bool) (l : list A) :
  (List.length (filter p l) <= List.length l)%nat.
Proof.
  induction l as [| a l IH]; simpl; [lia |]. destruct (p a); simpl; lia.
Qed.

(** Selecting rows of a relation with distinct keys keeps the keys
    distinct. *)
Lemma NoDup_map_filter {A B} (key : A -> B) (keep : A -> bool) (relation : list A) :
  NoDup (map key relation) -> NoDup (map key (filter keep relation)).
Proof.
  induction relation as [| a l IH]; simpl; intros H; [constructor |].
  inversion H as [| ? ? Hnotin Hnd]; subst.
  destruct (keep a); simpl; [| apply IH, Hnd].
  constructor; [| apply IH, Hnd].
  intros Hin. apply Hnotin. apply in_map_iff in Hin as (x & Hfx & Hx).
  apply filter_In in Hx as [Hx _]. apply in_map_iff. exists x. split; assumption.
Qed.

(** At most one row of a relation with distinct keys has a given key. *)
Lemma filter_key_unique {A} (key : A -> Z) (k : Z) (l : list A) :
  NoDup (map key l) -> (List.length (filter (fun r => Z.eqb (key r) k) l) <= 1)%nat.
Proof.
  induction l as [| a l IH]; simpl; intros H; [lia |].
  inversion H as [| ? ? Hnotin Hnd]; subst.
  destruct (Z.eqb_spec (key a) k) as [Hk | Hk]; [| apply IH, Hnd].
  simpl. assert (Hnone : filter (fun r => key r =? k) l = []).
  { destruct (filter (fun r => key r =? k) l) as [| b rest] eqn:Hf; [reflexivity |].
    exfalso. apply Hnotin.
    assert (Hb : In b (filter (fun r => key r =? k) l)) by (rewrite Hf; left; reflexivity).
    apply filter_In in Hb as [Hb Hkb]. apply Z.eqb_eq in Hkb.
    apply in_map_iff. exists b. split; [lia | exact Hb]. }
  rewrite Hnone. simpl. lia.
Qed.

Lemma run_select_extends (db : Database) (q q' : Select) (r : Row) :
  extends q q' -> In r (run_select db q') -> In r (run_select db q).
Proof. intros He. exact (extends_subset db q q' He r). Qed.

Lemma run_select_from (db : Database) (q : Select) (r : Row) :
  In r (run_select db q) -> In r (from_rows q).
Proof. unfold run_select. intros H. apply filter_In in H. apply H. Qed.

Lemma NoDup_run_select (db : Database) (q : Select) :
  NoDup (map message_id (from_rows q)) -> NoDup (map message_id (run_select db q)).
Proof. apply NoDup_map_filter. Qed.

(** No statement of the window planner or of the id-list path finds a
    row the query does not find. *)
Lemma execute_select_incl (db : Database) (q : Select)
      (order_by : option (string * Direction)) (limit : option Z) (r : Row) :
  In r (execute db (sb_select q order_by limit)) -> In r (run_select db q).
Proof.
  simpl. intros H.
  assert (H1 : In r (apply_order order_by (run_select db q))).
  { destruct limit as [n |]; [eapply In_firstn_all, H | exact H]. }
  destruct order_by as [o |]; [| exact H1].
  eapply Permutation_in; [apply sort_rows_perm | exact H1].
Qed.

Lemma window_incl (db : Database) (q : Select) (num_before num_after anchor : Z)
      (include_anchor left right : bool) (id_col : string) (fv : Z) (r : Row) :
  In r (execute db (limit_query_to_range q num_before num_after anchor include_anchor
                                         left right id_col fv)) ->
  In r (run_select db q).
Proof.
  unfold limit_query_to_range.
  assert (Hw : forall c o l, In r (execute db (sb_select (where_ q c) o l)) ->
                             In r (run_select db q)).
  { intros c o l H. apply execute_select_incl in H.
    rewrite run_select_where in H. apply filter_In in H. apply H. }
  assert (Hif : forall (b : bool) c o l,
             In r (execute db (sb_select (if b then where_ q c else q) o l)) ->
             In r (run_select db q)).
  { intros [|] c o l H; [eapply Hw, H | eapply execute_select_incl, H]. }
  destruct (negb left && (num_before >? 0)), (negb right && (num_after >? 0));
    cbn [andb]; cbv zeta.
  - cbn [execute]. intros H. apply in_app_or in H as [H | H]; eapply Hif, H.
  - apply Hif.
  - apply Hif.
  - apply Hw.
Qed.

Lemma window_length (db : Database) (q : Select) (num_before num_after anchor : Z)
      (include_anchor left right : bool) (id_col : string) (fv : Z) :
  is_id_column id_col ->
  0 <= num_before -> 0 <= num_after ->
  NoDup (map message_id (from_rows q)) ->
  len (execute db (limit_query_to_range q num_before num_after anchor include_anchor
                                        left right id_col fv))
  <= num_before + num_after + 1.
Proof.
  intros Hid Hb Ha Hnd. unfold limit_query_to_range, len.
  assert (Hlim : forall (l : list Row) n, 0 <= n ->
             Z.of_nat (List.length (apply_limit (Some n) l)) <= n).
  { intros l n Hn. simpl. rewrite length_firstn. lia. }
  destruct (negb left && (num_before >? 0)) eqn:Hnb,
           (negb right && (num_after >? 0)) eqn:Hna; cbn [andb]; cbv zeta;
    cbn [execute].
  - rewrite length_app, Nat2Z.inj_add.
    match goal with
    | |- Z.of_nat (List.length (apply_limit _ ?l1))
         + Z.of_nat (List.length (apply_limit _ ?l2)) <= _ =>
        pose proof (Hlim l1 num_before Hb);
        pose proof (Hlim l2 (num_after + 1) ltac:(lia))
    end.
    lia.
  - match goal with
    | |- Z.of_nat (List.length (apply_limit (Some ?n) ?l)) <= _ =>
        pose proof (Hlim l n) as H
    end.
    destruct right, include_anchor; cbn [negb int_of_bool] in *; lia.
  - match goal with
    | |- Z.of_nat (List.length (apply_limit (Some ?n) ?l)) <= _ =>
        pose proof (Hlim l n) as H
    end.
    destruct include_anchor; cbn [negb int_of_bool] in *; lia.
  - cbn [apply_limit apply_order]. rewrite run_select_where.
    pose proof (filter_key_unique message_id anchor (run_select db q)
                  (NoDup_run_select db q Hnd)) as Hone.
    rewrite (filter_ext (eval_cond db (int_column_eq id_col anchor))
                        (fun r => message_id r =? anchor)).
    + lia.
    + intros r. simpl. rewrite (int_column_id _ _ Hid). reflexivity.
Qed.

Section PostProcessInGeneral.
Context {MessageRowT : Type}.
Variable row0 : MessageRowT -> Z.

Lemma visible_rows_spec (fetched : list MessageRowT) (fv : Z) (x : MessageRowT) :
  In x (visible_rows_of row0 fetched fv) ->
  In x fetched /\ (0 < fv -> fv <= row0 x).
Proof.
  unfold visible_rows_of. destruct (Z.gtb_spec fv 0) as [Hpos | Hnot]; intros H.
  - apply filter_In in H as [Hin Hge]. split; [exact Hin | lia].
  - split; [exact H | lia].
Qed.

Lemma visible_rows_length (fetched : list MessageRowT) (fv : Z) :
  (List.length (visible_rows_of row0 fetched fv) <= List.length fetched)%nat.
Proof.
  unfold visible_rows_of. destruct (fv >? 0); [apply filter_length_le | lia].
Qed.

Lemma three_way_length (anchor : Z) (l : list MessageRowT) :
  (List.length (filter (fun r => Z.ltb (row0 r) anchor) l)
   + List.length (filter (fun r => Z.eqb (row0 r) anchor) l)
   + List.length (filter (fun r => Z.gtb (row0 r) anchor) l) = List.length l)%nat.
Proof.
  induction l as [| a l IH]; simpl; [reflexivity |].
  destruct (Z.ltb_spec (row0 a) anchor), (Z.eqb_spec (row0 a) anchor),
    (Z.gtb_spec (row0 a) anchor); simpl; lia.
Qed.

(** The returned rows with the slices read as [skipn] and [firstn]. *)
Lemma post_process_rows_shape (fetched : list MessageRowT)
      (num_before num_after anchor : Z) (left right : bool) (fv : Z) :
  let visible := visible_rows_of row0 fetched fv in
  exists k m,
    rows (post_process_limited_query row0 fetched num_before num_after anchor
                                     left right fv)
    = if right then skipn k visible
      else skipn k (filter (fun r => row0 r <? anchor) visible)
           ++ filter (fun r => row0 r =? anchor) visible
           ++ firstn m (filter (fun r => row0 r >? anchor) visible).
Proof.
  intros visible. unfold post_process_limited_query, partition_rows. fold visible.
  destruct right; cbn [rows].
  - destruct (negb (num_before =? 0)).
    + eexists. exists 0%nat. unfold py_slice_from. rewrite !app_nil_r. reflexivity.
    + exists 0%nat, 0%nat. rewrite !app_nil_r. reflexivity.
  - destruct (negb (num_before =? 0)), (negb (num_after =? 0)).
    + eexists. eexists. unfold py_slice_from, py_slice_to. reflexivity.
    + eexists. exists (List.length (filter (fun r => row0 r >? anchor) visible)).
      rewrite firstn_all. unfold py_slice_from. reflexivity.
    + exists 0%nat. eexists. unfold py_slice_to. reflexivity.
    + exists 0%nat, (List.length (filter (fun r => row0 r >? anchor) visible)).
      rewrite firstn_all. reflexivity.
Qed.

Lemma post_process_rows_visible (fetched : list MessageRowT)
      (num_before num_after anchor : Z) (left right : bool) (fv : Z) (x : MessageRowT) :
  In x (rows (post_process_limited_query row0 fetched num_before num_after anchor
                                         left right fv)) ->
  In x (visible_rows_of row0 fetched fv).
Proof.
  destruct (post_process_rows_shape fetched num_before num_after anchor left right fv)
    as (k & m & ->).
  destruct right; intros H.
  - eapply In_skipn, H.
  - apply in_app_or in H as [H | H].
    + apply In_skipn in H. apply filter_In in H. apply H.
    + apply in_app_or in H as [H | H].
      * apply filter_In in H. apply H.
      * apply In_firstn_all in H. apply filter_In in H. apply H.
Qed.

Lemma post_process_rows_length (fetched : list MessageRowT)
      (num_before num_after anchor : Z) (left right : bool) (fv : Z) :
  len (rows (post_process_limited_query row0 fetched num_before num_after anchor
                                        left right fv))
  <= len fetched.
Proof.
  destruct (post_process_rows_shape fetched num_before num_after anchor left right fv)
    as (k & m & ->).
  pose proof (visible_rows_length fetched fv) as Hvis.
  pose proof (three_way_length anchor (visible_rows_of row0 fetched fv)) as H3.
  unfold len. destruct right.
  - rewrite length_skipn. lia.
  - rewrite !length_app, length_skipn, length_firstn. lia.
Qed.

Lemma post_process_rows_sorted (fetched : list MessageRowT)
      (num_before num_after anchor : Z) (left right : bool) (fv : Z) :
  StronglySorted (row_le row0) fetched ->
  StronglySorted (row_le row0)
    (rows (post_process_limited_query row0 fetched num_before num_after anchor
                                      left right fv)).
Proof.
  intros Hsorted.
  destruct (post_process_rows_shape fetched num_before num_after anchor left right fv)
    as (k & m & ->).
  pose proof (visible_rows_sorted row0 fetched fv Hsorted) as Hvis.
  destruct right.
  - apply StronglySorted_skipn, Hvis.
  - apply StronglySorted_app.
    + apply StronglySorted_skipn, StronglySorted_filter, Hvis.
    + apply StronglySorted_app.
      * apply StronglySorted_filter, Hvis.
      * apply StronglySorted_firstn, StronglySorted_filter, Hvis.
      * intros a b Ha Hb. apply filter_In in Ha as [_ Ha].
        apply In_firstn_all in Hb. apply filter_In in Hb as [_ Hb].
        unfold row_le. lia.
    + intros a b Ha Hb. apply In_skipn in Ha. apply filter_In in Ha as [_ Ha].
      unfold row_le. apply in_app_or in Hb as [Hb | Hb].
      * apply filter_In in Hb as [_ Hb]. lia.
      * apply In_firstn_all in Hb. apply filter_In in Hb as [_ Hb]. lia.
Qed.
End PostProcessInGeneral.

(* ================================================================== *)
(** ** Properties: the steps of [fetch_messages] *)
(* ================================================================== *)

Lemma base_query_id_column (db : Database) (realm_id : Z) (user : option UserProfile)
      (need_user_message : bool) (base : Select) (id_col : string) :
  get_base_query_for_search db realm_id user need_user_message = Ok (base, id_col) ->
  is_id_column id_col.
Proof.
  unfold get_base_query_for_search, is_id_column.
  destruct need_user_message; cbn [negb].
  - destruct user; intros H; [| discriminate H]. injection H as _ <-. left. reflexivity.
  - intros H. injection H as _ <-. right. reflexivity.
Qed.

(** The rows of the base query: the requesting user's rows of the
    per-user join, or the messages of the realm. *)
Lemma base_query_rows (db : Database) (rid : Z) (user : option UserProfile)
      (need_user_message : bool) (base : Select) (id_col : string) (r : Row) :
  get_base_query_for_search db rid user need_user_message = Ok (base, id_col) ->
  In r (run_select db base) ->
  if need_user_message
  then exists u, user = Some u /\ In r (db_usermessage_join db (user_pk u))
  else In r (db_zerver_message db) /\ realm_id r = rid.
Proof.
  unfold get_base_query_for_search.
  destruct need_user_message; cbn [negb].
  - destruct user as [u |]; intros H; [| discriminate H]. injection H as <- _.
    intros Hin. exists u. split; [reflexivity |]. apply run_select_from in Hin. exact Hin.
  - intros H. injection H as <- _. unfold run_select. cbn [whereclause from_rows].
    intros Hin. apply filter_In in Hin as [Hin Hc]. split; [exact Hin |].
    simpl in Hc. rewrite andb_true_r in Hc. apply Z.eqb_eq in Hc. exact Hc.
Qed.

Lemma base_query_from (db : Database) (realm_id : Z) (user : option UserProfile)
      (need_user_message : bool) (base : Select) (id_col : string) :
  get_base_query_for_search db realm_id user need_user_message = Ok (base, id_col) ->
  from_rows base = db_zerver_message db
  \/ exists u, from_rows base = db_usermessage_join db (user_pk u).
Proof.
  unfold get_base_query_for_search.
  destruct need_user_message; cbn [negb].
  - destruct user as [u |]; intros H; [| discriminate H]. injection H as <- _.
    right. exists u. reflexivity.
  - intros H. injection H as <- _. left. reflexivity.
Qed.

(** [add_narrow_conditions] extends the query it is given, for a narrow
    or none. *)
Lemma add_narrow_conditions_extends (env : Collaborators) (user : option UserProfile)
      (col : string) (q : Select) (narrow : option (list NarrowParameter)) (web : bool)
      (realm : Realm) (q' : Select) (searching dm : bool) :
  add_narrow_conditions env user col q narrow web realm = Ok (q', searching, dm) ->
  extends q q'.
Proof.
  destruct narrow as [terms |].
  - intros H. pose proof (add_narrow_conditions_outcome env user col q terms web realm) as Hpost.
    rewrite H in Hpost. apply Hpost.
  - simpl. intros H. injection H as <- _ _. apply extends_refl.
Qed.

(** The steps a fetch that returns went through. *)
Lemma fetch_messages_steps (env : Collaborators) (db : Database)
      (narrow : option (list NarrowParameter)) (user : option UserProfile)
      (realm : Realm) (web : bool) (anchor_arg : option Z)
      (include_anchor : bool) (num_before num_after : Z)
      (ids : option (list Z)) (r : FetchedMessages) :
  fetch_messages env db narrow user realm web anchor_arg include_anchor
                 num_before num_after ids = Ok r ->
  exists base id_col compiled dm,
    ok_to_include_history env narrow user web = Ok (include_history r)
    /\ get_base_query_for_search db (realm_pk realm) user (negb (include_history r))
       = Ok (base, id_col)
    /\ add_narrow_conditions env user id_col
         (if negb (include_history r) then add_columns base ["flags"] else base)
         narrow web realm
       = Ok (compiled, is_search r, dm)
    /\ let fv := get_first_visible_message_id env realm in
       match ids with
       | Some l =>
           anchor r = None
           /\ limited r
              = mkLimitedMessages
                  (visible_rows_of message_id
                     (execute db (sb_select (where_ compiled (int_column_in id_col l))
                                            None None)) fv)
                  false false false false
       | None =>
           exists a,
             anchor r = Some a
             /\ match anchor_arg with
                | Some a0 => a = a0
                | None => find_first_unread_anchor env db user narrow = Ok a
                end
             /\ limited r
                = post_process_limited_query message_id
                    (execute db
                       (sb_ordered_subquery
                          (limit_query_to_range compiled num_before
                             (fetch_num_after a num_after) a include_anchor (a =? 0)
                             (fetch_anchored_to_right a) id_col fv)
                          ("message_id", Asc)))
                    num_before (fetch_num_after a num_after) a (a =? 0)
                    (fetch_anchored_to_right a) fv
       end.
Proof.
  unfold fetch_messages. intros Hfetch.
  destruct (ok_to_include_history env narrow user web) as [hist | e];
    [| discriminate Hfetch].
  destruct (get_base_query_for_search db (realm_pk realm) user (negb hist))
    as [[base id_col] | e] eqn:Hbase; [| discriminate Hfetch].
  destruct (add_narrow_conditions env user id_col _ narrow web realm)
    as [[[compiled searching] dm] | e] eqn:Hcompile; [| discriminate Hfetch].
  destruct ids as [l |].
  - injection Hfetch as <-. cbn [include_history is_search anchor limited].
    exists base, id_col, compiled, dm.
    split; [reflexivity |]. split; [exact Hbase |]. split; [exact Hcompile |].
    split; reflexivity.
  - destruct anchor_arg as [a0 |].
    + injection Hfetch as <-. cbn [include_history is_search anchor limited].
      exists base, id_col, compiled, dm.
      split; [reflexivity |]. split; [exact Hbase |]. split; [exact Hcompile |].
      exists a0. split; [reflexivity |]. split; reflexivity.
    + destruct (find_first_unread_anchor env db user narrow) as [a | e] eqn:Hanchor;
        [| discriminate Hfetch].
      injection Hfetch as <-. cbn [include_history is_search anchor limited].
      exists base, id_col, compiled, dm.
      split; [reflexivity |]. split; [exact Hbase |]. split; [exact Hcompile |].
      exists a. split; [reflexivity |]. split; reflexivity.
Qed.

(** Every row a fetch returns is found by the compiled query, and
    hence by the base query, and is at or above the visibility floor. *)
Lemma fetch_messages_rows_compiled (env : Collaborators) (db : Database)
      (compiled : Select) (id_col : string)
      (anchor_arg : option Z) (include_anchor : bool) (num_before num_after : Z)
      (ids : option (list Z)) (fv : Z) (lim : LimitedMessages Row) :
  match ids with
  | Some l =>
      lim = mkLimitedMessages
              (visible_rows_of message_id
                 (execute db (sb_select (where_ compiled (int_column_in id_col l))
                                        None None)) fv)
              false false false false
  | None =>
      exists a,
        lim = post_process_limited_query message_id
                (execute db
                   (sb_ordered_subquery
                      (limit_query_to_range compiled num_before
                         (fetch_num_after a num_after) a include_anchor (a =? 0)
                         (fetch_anchored_to_right a) id_col fv)
                      ("message_id", Asc)))
                num_before (fetch_num_after a num_after) a (a =? 0)
                (fetch_anchored_to_right a) fv
  end ->
  forall row, In row (rows lim) ->
              In row (run_select db compiled) /\ (0 < fv -> fv <= message_id row).
Proof.
  intros Hlim row Hrow. destruct ids as [l |].
  - subst lim. cbn [rows] in Hrow.
    apply visible_rows_spec in Hrow as [Hin Hfloor]. split; [| exact Hfloor].
    apply execute_select_incl in Hin. rewrite run_select_where in Hin.
    apply filter_In in Hin. apply Hin.
  - destruct Hlim as (a & ->).
    apply post_process_rows_visible in Hrow.
    apply visible_rows_spec in Hrow as [Hin Hfloor]. split; [| exact Hfloor].
    cbn [execute] in Hin.
    apply (Permutation_in _ (sort_rows_perm _ _)) in Hin.
    eapply window_incl, Hin.
Qed.

(* ================================================================== *)
(** ** Properties: what [fetch_messages] returns *)
(* ================================================================== *)

(** X1.  Every row [fetch_messages] returns is a row the base query
    offers: when the fetch reports [include_history = False] it is one
    of the requesting user's rows of the per-user join (and there is a
    requesting user); when it reports [include_history = True] it is a
    row of [zerver_message] of the realm.  When the realm has a
    positive first visible message id, no returned row is below it.
    This holds on the anchor path and on the id-list path. *)
Theorem fetch_messages_rows_authorized (env : Collaborators) (db : Database)
        (narrow : option (list NarrowParameter)) (user : option UserProfile)
        (realm : Realm) (web : bool) (anchor_arg : option Z)
        (include_anchor : bool) (num_before num_after : Z)
        (ids : option (list Z)) (r : FetchedMessages) :
  fetch_messages env db narrow user realm web anchor_arg include_anchor
                 num_before num_after ids = Ok r ->
  forall row,
    In row (rows (limited r)) ->
    (if include_history r
     then In row (db_zerver_message db) /\ realm_id row = realm_pk realm
     else exists u, user = Some u /\ In row (db_usermessage_join db (user_pk u)))
    /\ (0 < get_first_visible_message_id env realm ->
        get_first_visible_message_id env realm <= message_id row).
Proof.
  intros Hfetch row Hrow.
  destruct (fetch_messages_steps _ _ _ _ _ _ _ _ _ _ _ _ Hfetch)
    as (base & id_col & compiled & dm & _ & Hbase & Hcompile & Hlim).
  cbv zeta in Hlim.
  assert (Hin : In row (run_select db compiled)
                /\ (0 < get_first_visible_message_id env realm ->
                    get_first_visible_message_id env realm <= message_id row)).
  { apply (fetch_messages_rows_compiled env db compiled id_col anchor_arg include_anchor
             num_before num_after ids (get_first_visible_message_id env realm)
             (limited r)); [| exact Hrow].
    destruct ids as [l |]; [apply Hlim |].
    destruct Hlim as (a & _ & _ & Hlim). exists a. exact Hlim. }
  destruct Hin as [Hin Hfloor]. split; [| exact Hfloor].
  apply add_narrow_conditions_extends in Hcompile.
  apply (run_select_extends db _ _ row Hcompile) in Hin.
  assert (Hin_base : In row (run_select db base)).
  { destruct (negb (include_history r)); [| exact Hin].
    eapply run_select_extends; [apply extends_add_columns | exact Hin]. }
  pose proof (base_query_rows _ _ _ _ _ _ row Hbase Hin_base) as Hrows.
  destruct (include_history r); exact Hrows.
Qed.

(** X2.  On the anchor path (no list of message ids is requested),
    [fetch_messages] returns its rows in ascending order of message id,
    whatever the anchor, the counts and the narrow. *)
Theorem fetch_messages_ascending (env : Collaborators) (db : Database)
        (narrow : option (list NarrowParameter)) (user : option UserProfile)
        (realm : Realm) (web : bool) (anchor_arg : option Z)
        (include_anchor : bool) (num_before num_after : Z) (r : FetchedMessages) :
  fetch_messages env db narrow user realm web anchor_arg include_anchor
                 num_before num_after None = Ok r ->
  ascending message_id (rows (limited r)).
Proof.
  intros Hfetch.
  destruct (fetch_messages_steps _ _ _ _ _ _ _ _ _ _ _ _ Hfetch)
    as (base & id_col & compiled & dm & _ & _ & _ & a & _ & _ & ->).
  apply StronglySorted_Sorted, post_process_rows_sorted.
  cbn [execute]. exact (sort_rows_sorted "message_id" _).
Qed.

(** X3.  Over relations in which message ids are distinct, a fetch on
    the anchor path with non-negative counts returns at most
    [num_before + num_after + 1] rows. *)
Theorem fetch_messages_page_size (env : Collaborators) (db : Database)
        (narrow : option (list NarrowParameter)) (user : option UserProfile)
        (realm : Realm) (web : bool) (anchor_arg : option Z)
        (include_anchor : bool) (num_before num_after : Z) (r : FetchedMessages) :
  fetch_messages env db narrow user realm web anchor_arg include_anchor
                 num_before num_after None = Ok r ->
  0 <= num_before -> 0 <= num_after ->
  NoDup (map message_id (db_zerver_message db)) ->
  (forall u, NoDup (map message_id (db_usermessage_join db u))) ->
  len (rows (limited r)) <= num_before + num_after + 1.
Proof.
  intros Hfetch Hb Ha Hmsg Hjoin.
  destruct (fetch_messages_steps _ _ _ _ _ _ _ _ _ _ _ _ Hfetch)
    as (base & id_col & compiled & dm & _ & Hbase & Hcompile & a & _ & _ & ->).
  pose proof (base_query_id_column _ _ _ _ _ _ Hbase) as Hid.
  assert (Hnd : NoDup (map message_id (from_rows compiled))).
  { apply add_narrow_conditions_extends in Hcompile. destruct Hcompile as (Hfrom & _).
    rewrite Hfrom.
    assert (Hfrom' : from_rows (if negb (include_history r)
                                then add_columns base ["flags"] else base)
                     = from_rows base)
      by (destruct (negb (include_history r)); reflexivity).
    rewrite Hfrom'.
    destruct (base_query_from _ _ _ _ _ _ Hbase) as [-> | [u ->]];
      [exact Hmsg | apply Hjoin]. }
  eapply Z.le_trans; [apply post_process_rows_length |].
  cbn [execute]. unfold len.
  rewrite (Permutation_length (sort_rows_perm _ _)).
  assert (Hna : 0 <= fetch_num_after a num_after <= num_after).
  { unfold fetch_num_after. destruct (fetch_anchored_to_right a); lia. }
  pose proof (window_length db compiled num_before (fetch_num_after a num_after) a
                include_anchor (a =? 0) (fetch_anchored_to_right a) id_col
                (get_first_visible_message_id env realm) Hid Hb (proj1 Hna) Hnd) as Hwin.
  unfold len in Hwin. lia.
Qed.

(** X4.  When a list of message ids is requested, [fetch_messages]
    reads neither the anchor nor [include_anchor] nor the two counts:
    the result is the same for all their values.  It reports no
    anchor, reports [found_anchor], [found_oldest], [found_newest] and
    [history_limited] as [False] (also when rows were dropped by the
    visibility floor), and every returned row has one of the requested
    ids. *)
Theorem fetch_messages_by_ids (env : Collaborators) (db : Database)
        (narrow : option (list NarrowParameter)) (user : option UserProfile)
        (realm : Realm) (web : bool) (anchor_arg : option Z)
        (include_anchor : bool) (num_before num_after : Z)
        (ids : list Z) (r : FetchedMessages) :
  fetch_messages env db narrow user realm web anchor_arg include_anchor
                 num_before num_after (Some ids) = Ok r ->
  (forall anchor_arg' include_anchor' num_before' num_after',
      fetch_messages env db narrow user realm web anchor_arg' include_anchor'
                     num_before' num_after' (Some ids) = Ok r)
  /\ anchor r = None
  /\ found_anchor (limited r) = false
  /\ found_oldest (limited r) = false
  /\ found_newest (limited r) = false
  /\ history_limited (limited r) = false
  /\ (forall row, In row (rows (limited r)) -> In (message_id row) ids).
Proof.
  intros Hfetch. split.
  { intros anchor_arg' include_anchor' num_before' num_after'.
    rewrite <- Hfetch. unfold fetch_messages.
    destruct (ok_to_include_history env narrow user web) as [hist | e]; [| reflexivity].
    destruct (get_base_query_for_search db (realm_pk realm) user (negb hist))
      as [[base id_col] | e]; [| reflexivity].
    destruct (add_narrow_conditions env user id_col _ narrow web realm)
      as [[[compiled searching] dm] | e]; reflexivity. }
  destruct (fetch_messages_steps _ _ _ _ _ _ _ _ _ _ _ _ Hfetch)
    as (base & id_col & compiled & dm & _ & Hbase & _ & Hanchor & Hlim).
  pose proof (base_query_id_column _ _ _ _ _ _ Hbase) as Hid.
  rewrite Hlim. cbn [found_anchor found_oldest found_newest history_limited rows].
  repeat (split; [first [exact Hanchor | reflexivity] |]).
  intros row Hrow. apply visible_rows_spec in Hrow as [Hin _].
  apply execute_select_incl in Hin. rewrite run_select_where in Hin.
  apply filter_In in Hin as [_ Hc]. simpl in Hc.
  rewrite (int_column_id _ _ Hid) in Hc.
  apply existsb_exists in Hc as (i & Hi & Heq). apply Z.eqb_eq in Heq.
  rewrite Heq. exact Hi.
Qed.

(* ================================================================== *)
(** ** Properties: the clauses a compiled narrow contains *)
(* ================================================================== *)

Lemma extends_clause (q q' : Select) (c : Cond) :
  extends q q' -> In c (whereclause q) -> In c (whereclause q').
Proof.
  intros (_ & [conds Hc] & _) Hin. rewrite Hc. apply in_or_app. left. exact Hin.
Qed.

Lemma run_select_clause (db : Database) (q : Select) (c : Cond) (r : Row) :
  In c (whereclause q) -> In r (run_select db q) -> eval_cond db c r = true.
Proof.
  unfold run_select. intros Hc Hr. apply filter_In in Hr as [_ Hall].
  rewrite forallb_forall in Hall. apply Hall, Hc.
Qed.

(** A term of a narrow whose loop returned went through [add_term],
    and the loop's query extends the query [add_term] returned. *)
Lemma add_terms_loop_term (env : Collaborators) (self : NarrowBuilder)
      (narrow : list NarrowParameter) (t : NarrowParameter) :
  In t narrow -> is_search_term t = false ->
  forall q ops st q' ops' st',
    add_terms_loop env self narrow q ops st = Ok (q', ops', st') ->
    exists q0 st0 q1 st1,
      add_term env self q0 t st0 = Ok (q1, st1) /\ extends q1 q'.
Proof.
  intros Hin Hns. induction narrow as [| t0 narrow IH]; [destruct Hin |].
  intros q ops st q' ops' st' Hrun. cbn [add_terms_loop] in Hrun.
  destruct (String.eqb (operator t0) "search") eqn:Hs0.
  - destruct Hin as [-> | Hin].
    + unfold is_search_term in Hns. congruence.
    + eapply IH; eassumption.
  - unfold bind in Hrun.
    destruct (add_term env self q t0 st) as [[q1 st1] | e] eqn:Hterm; [| discriminate Hrun].
    destruct Hin as [-> | Hin].
    + exists q, st, q1, st1. split; [exact Hterm |].
      pose proof (add_terms_loop_outcome env self narrow q1 ops st1) as Hpost.
      rewrite Hrun in Hpost. apply Hpost.
    + eapply IH; eassumption.
Qed.

(** The same through [add_narrow_conditions]. *)
Lemma add_narrow_conditions_term (env : Collaborators) (user : option UserProfile)
      (col : string) (q : Select) (narrow : list NarrowParameter) (web : bool)
      (realm : Realm) (t : NarrowParameter) (q' : Select) (searching dm : bool) :
  add_narrow_conditions env user col q (Some narrow) web realm = Ok (q', searching, dm) ->
  In t narrow -> is_search_term t = false ->
  exists q0 st0 q1 st1,
    add_term env (mkNarrowBuilder user col realm web) q0 t st0 = Ok (q1, st1)
    /\ extends q1 q'.
Proof.
  rewrite add_narrow_conditions_unfold. cbv zeta.
  intros Hrun Hin Hns.
  destruct (add_terms_loop env _ narrow q [] _) as [[[q1 ops] st1] | e] eqn:Hloop;
    [| discriminate Hrun].
  destruct (add_terms_loop_term env _ narrow t Hin Hns _ _ _ _ _ _ Hloop)
    as (q0 & st0 & q2 & st2 & Hterm & Hext).
  exists q0, st0, q2, st2. split; [exact Hterm |].
  eapply extends_trans; [exact Hext |].
  unfold search_phase in Hrun. destruct ops as [| o ops].
  - unfold ret in Hrun. injection Hrun as <- _ _. apply extends_refl.
  - destruct (strings_of_operands (o :: ops)) as [strs |]; [| discriminate Hrun].
    unfold bind in Hrun.
    pose proof (add_term_outcome env (mkNarrowBuilder user col realm web)
                  (add_columns q1 ["escaped_topic_name"; "rendered_content"])
                  (NarrowParameter_ "search" (OStr (join " " strs))) st1) as Hpost.
    destruct (add_term env _ _ _ st1) as [[q3 st3] | e]; [| discriminate Hrun].
    unfold ret in Hrun. injection Hrun as <- _ _.
    eapply extends_trans; [apply extends_add_columns | apply Hpost].
Qed.

(** What a non-negated [channel] / [stream] term that compiled outside
    a Zephyr realm added: the test on the recipient of the channel its
    operand resolves to. *)
Lemma channel_term_clause (env : Collaborators) (self : NarrowBuilder)
      (t : NarrowParameter) (q0 q1 : Select) (st0 st1 : BuilderState) :
  str_in (operator t) channel_operators = true -> negated t = false ->
  is_zephyr_mirror_realm (realm self) = false ->
  add_term env self q0 t st0 = Ok (q1, st1) ->
  exists channel rid,
    get_stream_by_narrow_operand_access_unchecked env (operand t) (realm self) = Some channel
    /\ stream_recipient_id channel = Some rid
    /\ (is_web_public_query self = true -> is_web_public channel = true)
    /\ In (int_column_eq "recipient_id" rid) (whereclause q1).
Proof.
  intros Hop Hneg Hz. destruct t as [op opnd neg]. cbn [operator negated operand] in *.
  subst neg.
  assert (Hm : lookup op by_method_map = Some m_by_channel).
  { unfold channel_operators, str_in in Hop. cbn [existsb] in Hop.
    rewrite orb_false_r in Hop. apply orb_true_iff in Hop as [H | H];
      apply String.eqb_eq in H; subst op; reflexivity. }
  unfold add_term. cbn [operator negated operand]. rewrite Hm. cbn [call_method].
  unfold by_channel, bind, check_not_both_channel_and_dm_narrow. cbn [is_not_].
  destruct (is_channel_narrow _ && is_dm_narrow _); [discriminate |].
  destruct (get_stream_by_narrow_operand_access_unchecked env opnd (realm self))
    as [channel |]; [| discriminate].
  rewrite Hz.
  destruct (is_web_public_query self && negb (is_web_public channel)) eqn:Hweb;
    [discriminate |].
  destruct (stream_recipient_id channel) as [rid |] eqn:Hrid; [| discriminate].
  unfold ret. intros H. injection H as <- _.
  exists channel, rid. split; [reflexivity |]. split; [exact Hrid |]. split.
  - intros Hw. rewrite Hw in Hweb. simpl in Hweb. apply negb_false_iff in Hweb. exact Hweb.
  - simpl. apply in_or_app. right. left. reflexivity.
Qed.

(** What a non-negated [channels] / [streams] term that compiled
    added: the test that the recipient is one of the public, or of the
    web-public, channels. *)
Lemma channels_term_clause (env : Collaborators) (self : NarrowBuilder)
      (t : NarrowParameter) (q0 q1 : Select) (st0 st1 : BuilderState) :
  str_in (operator t) channels_operators = true -> negated t = false ->
  add_term env self q0 t st0 = Ok (q1, st1) ->
  (operand_eq_str (operand t) "public" = true ->
   In (int_column_in "recipient_id" (get_public_streams_recipient_ids env (realm self)))
      (whereclause q1))
  /\ (operand_eq_str (operand t) "web-public" = true ->
      In (int_column_in "recipient_id"
            (get_web_public_streams_recipient_ids env (realm self)))
         (whereclause q1)).
Proof.
  intros Hop Hneg. destruct t as [op opnd neg]. cbn [operator negated operand] in *.
  subst neg.
  assert (Hm : lookup op by_method_map = Some m_by_channels).
  { unfold channels_operators, str_in in Hop. cbn [existsb] in Hop.
    rewrite orb_false_r in Hop. apply orb_true_iff in Hop as [H | H];
      apply String.eqb_eq in H; subst op; reflexivity. }
  unfold add_term. cbn [operator negated operand]. rewrite Hm. cbn [call_method].
  unfold by_channels, bind, check_not_both_channel_and_dm_narrow. cbn [is_not_].
  destruct (is_channel_narrow _ && is_dm_narrow _); [discriminate |].
  destruct opnd as [s | n | ns]; try discriminate.
  cbn [operand_eq_str].
  destruct (String.eqb_spec s "public") as [-> | Hnp].
  - unfold ret. intros H. injection H as <- _. split.
    + intros _. simpl. apply in_or_app. right. left. reflexivity.
    + intros H. discriminate H.
  - destruct (String.eqb_spec s "web-public") as [-> | Hnw]; [| discriminate].
    unfold ret. intros H. injection H as <- _. split.
    + intros H. discriminate H.
    + intros _. simpl. apply in_or_app. right. left. reflexivity.
Qed.

(* ================================================================== *)
(** ** Properties: the search terms of a narrow *)
(* ================================================================== *)

(** The loop of [add_narrow_conditions] reads a narrow through its
    non-search terms and its search operands only. *)
Lemma add_terms_loop_split (env : Collaborators) (self : NarrowBuilder)
      (narrow : list NarrowParameter) (q : Select) (ops : list Operand)
      (st : BuilderState) :
  add_terms_loop env self narrow q ops st
  = match add_terms_loop env self (filter (fun t => negb (is_search_term t)) narrow)
                         q [] st with
    | Ok (q1, _, st1) => Ok (q1, ops ++ search_operands_of narrow, st1)
    | Err e => Err e
    end.
Proof.
  revert q ops st. induction narrow as [| t narrow IH]; intros q ops st.
  - simpl. rewrite app_nil_r. reflexivity.
  - cbn [add_terms_loop filter search_operands_of]. unfold is_search_term at 1.
    destruct (String.eqb (operator t) "search") eqn:Hs; cbn [negb].
    + rewrite IH.
      destruct (add_terms_loop env self _ q [] st) as [[[q1 o1] st1] | e]; [| reflexivity].
      rewrite <- app_assoc. reflexivity.
    + cbn [add_terms_loop]. rewrite Hs. unfold bind.
      destruct (add_term env self q t st) as [[q1 st1] | e]; [apply IH | reflexivity].
Qed.

Lemma add_narrow_conditions_by_parts (env : Collaborators) (user : option UserProfile)
      (col : string) (q : Select) (web : bool) (realm : Realm)
      (n1 n2 : list NarrowParameter) :
  filter (fun t => negb (is_search_term t)) n1
  = filter (fun t => negb (is_search_term t)) n2 ->
  search_operands_of n1 = search_operands_of n2 ->
  add_narrow_conditions env user col q (Some n1) web realm
  = add_narrow_conditions env user col q (Some n2) web realm.
Proof.
  intros Hterms Hops. rewrite !add_narrow_conditions_unfold. cbv zeta.
  rewrite (add_terms_loop_split env _ n1), (add_terms_loop_split env _ n2).
  rewrite Hterms, Hops. reflexivity.
Qed.

Lemma search_operands_app (n1 n2 : list NarrowParameter) :
  search_operands_of (n1 ++ n2) = search_operands_of n1 ++ search_operands_of n2.
Proof.
  induction n1 as [| t n1 IH]; simpl; [reflexivity |].
  destruct (String.eqb (operator t) "search"); simpl; rewrite IH; reflexivity.
Qed.

Lemma search_operands_filter (narrow : list NarrowParameter) :
  search_operands_of (filter is_search_term narrow) = search_operands_of narrow.
Proof.
  induction narrow as [| t n IH]; simpl; [reflexivity |].
  unfold is_search_term at 1.
  destruct (String.eqb (operator t) "search") eqn:Hs; simpl; rewrite ?Hs, IH; reflexivity.
Qed.

Lemma search_operands_filter_out (narrow : list NarrowParameter) :
  search_operands_of (filter (fun t => negb (is_search_term t)) narrow) = [].
Proof.
  induction narrow as [| t n IH]; simpl; [reflexivity |].
  unfold is_search_term at 1.
  destruct (String.eqb (operator t) "search") eqn:Hs; simpl; rewrite ?Hs; exact IH.
Qed.

Lemma filter_out_search_terms (narrow : list NarrowParameter) :
  filter (fun t => negb (is_search_term t)) (filter is_search_term narrow) = [].
Proof.
  induction narrow as [| t n IH]; simpl; [reflexivity |].
  destruct (is_search_term t) eqn:Hs; simpl; rewrite ?Hs; exact IH.
Qed.

Lemma filter_idem {A} (p : A -> bool) (l : list A) : filter p (filter p l) = filter p l.
Proof.
  induction l as [| a l IH]; simpl; [reflexivity |].
  destruct (p a) eqn:Hp; simpl; rewrite ?Hp, IH; reflexivity.
Qed.

Lemma filter_all {A} (p : A -> bool) (l : list A) :
  (forall x, In x l -> p x = true) -> filter p l = l.
Proof.
  induction l as [| a l IH]; simpl; intros H; [reflexivity |].
  rewrite (H a (or_introl eq_refl)). f_equal. apply IH. intros x Hx. apply H. right. exact Hx.
Qed.

Lemma filter_none {A} (p : A -> bool) (l : list A) :
  (forall x, In x l -> p x = false) -> filter p l = [].
Proof.
  induction l as [| a l IH]; simpl; intros H; [reflexivity |].
  rewrite (H a (or_introl eq_refl)). apply IH. intros x Hx. apply H. right. exact Hx.
Qed.

Lemma strings_of_operands_strs (l : list string) :
  strings_of_operands (map OStr l) = Some l.
Proof.
  induction l as [| s l IH]; simpl; [reflexivity |]. rewrite IH. reflexivity.
Qed.

(* ================================================================== *)
(** ** Properties: the scope of a fetch with history, and of a
       web-public narrow *)
(* ================================================================== *)

Lemma channel_operator_not_search (t : NarrowParameter) :
  str_in (operator t) channel_operators = true -> is_search_term t = false.
Proof.
  unfold channel_operators, str_in, is_search_term. cbn [existsb].
  rewrite orb_false_r. intros H. apply orb_true_iff in H as [H | H];
    apply String.eqb_eq in H; rewrite H; reflexivity.
Qed.

Lemma channels_operator_not_search (t : NarrowParameter) :
  str_in (operator t) channels_operators = true ->
  is_search_term t = false /\ str_in (operator t) channel_operators = false.
Proof.
  unfold channels_operators, channel_operators, str_in, is_search_term. cbn [existsb].
  rewrite orb_false_r. intros H. apply orb_true_iff in H as [H | H];
    apply String.eqb_eq in H; rewrite H; split; reflexivity.
Qed.

(** X5.  Outside a Zephyr realm, when a fetch for a signed-in user
    reports [include_history = True] (so that its base query is all of
    [zerver_message] of the realm, not the user's own rows), the narrow
    has a term on which [ok_to_include_history] granted history, and
    every returned row lies in the channel that term names: for a
    non-negated [channel] / [stream] term, the row's recipient is the
    recipient of the channel the operand resolves to; for a non-negated
    [channels:public] term, the row's recipient is one of the public
    channels. *)
Theorem fetch_messages_history_scope (env : Collaborators) (db : Database)
        (narrow : option (list NarrowParameter)) (u : UserProfile)
        (realm : Realm) (anchor_arg : option Z)
        (include_anchor : bool) (num_before num_after : Z)
        (ids : option (list Z)) (r : FetchedMessages) :
  is_zephyr_mirror_realm realm = false ->
  fetch_messages env db narrow (Some u) realm false anchor_arg include_anchor
                 num_before num_after ids = Ok r ->
  include_history r = true ->
  exists terms t,
    narrow = Some terms /\ In t terms /\ grants_history_term env u t = true
    /\ forall row, In row (rows (limited r)) -> in_channel_of env realm t row.
Proof.
  intros Hz Hfetch Hhist.
  destruct (fetch_messages_steps _ _ _ _ _ _ _ _ _ _ _ _ Hfetch)
    as (base & id_col & compiled & dm & Hok & Hbase & Hcompile & Hlim).
  cbv zeta in Hlim. rewrite Hhist in Hok.
  destruct narrow as [terms |]; [| discriminate Hok].
  rewrite ok_to_include_history_unfold in Hok. injection Hok as Hok.
  apply personal_scan_true in Hok as [Hscan _].
  apply history_scan_true in Hscan as [Hfalse | (t & Hin & Hgrants)];
    [discriminate Hfalse |].
  exists terms, t. split; [reflexivity |]. split; [exact Hin |].
  split; [exact Hgrants |].
  intros row Hrow.
  assert (Hrow' : In row (run_select db compiled)).
  { apply (fetch_messages_rows_compiled env db compiled id_col anchor_arg include_anchor
             num_before num_after ids (get_first_visible_message_id env realm)
             (limited r)); [| exact Hrow].
    destruct ids as [l |]; [apply Hlim |].
    destruct Hlim as (a & _ & _ & Hlim). exists a. exact Hlim. }
  unfold grants_history_term in Hgrants. unfold in_channel_of.
  destruct (str_in (operator t) channel_operators && negb (negated t)) eqn:Hchan.
  - apply andb_true_iff in Hchan as [Hop Hneg]. apply negb_true_iff in Hneg.
    rewrite Hop.
    destruct (add_narrow_conditions_term _ _ _ _ _ _ _ t _ _ _ Hcompile Hin
                (channel_operator_not_search t Hop))
      as (q0 & st0 & q1 & st1 & Hterm & Hext).
    destruct (channel_term_clause env (mkNarrowBuilder (Some u) id_col realm false)
                t q0 q1 st0 st1 Hop Hneg Hz Hterm)
      as (channel & rid & Hchannel & Hrid & _ & Hclause).
    exists channel. split; [exact Hchannel |].
    pose proof (run_select_clause db compiled _ row
                  (extends_clause _ _ _ Hext Hclause) Hrow') as Heval.
    simpl in Heval. apply Z.eqb_eq in Heval. change (recipient_id row = rid) in Heval.
    rewrite Hrid, Heval. reflexivity.
  - apply andb_true_iff in Hgrants as [Hgrants _].
    apply andb_true_iff in Hgrants as [Hgrants Hneg]. apply negb_true_iff in Hneg.
    apply andb_true_iff in Hgrants as [Hop Hpublic].
    destruct (channels_operator_not_search t Hop) as [Hns Hnot_channel].
    rewrite Hnot_channel.
    destruct (add_narrow_conditions_term _ _ _ _ _ _ _ t _ _ _ Hcompile Hin Hns)
      as (q0 & st0 & q1 & st1 & Hterm & Hext).
    destruct (channels_term_clause _ _ _ _ _ _ _ Hop Hneg Hterm) as [Hclause _].
    pose proof (run_select_clause db compiled _ row
                  (extends_clause _ _ _ Hext (Hclause Hpublic)) Hrow') as Heval.
    simpl in Heval. apply existsb_exists in Heval as (i & Hi & Heq).
    apply Z.eqb_eq in Heq. change (recipient_id row = i) in Heq. rewrite Heq. exact Hi.
Qed.

(** X6.  For a narrow that [is_web_public_narrow] accepts, every row
    [fetch_messages] returns has a web-public channel as its
    recipient, whoever the requester is and whatever the other terms
    are. *)
Theorem fetch_messages_web_public_scope (env : Collaborators) (db : Database)
        (narrow : option (list NarrowParameter)) (user : option UserProfile)
        (realm : Realm) (web : bool) (anchor_arg : option Z)
        (include_anchor : bool) (num_before num_after : Z)
        (ids : option (list Z)) (r : FetchedMessages) :
  is_web_public_narrow narrow = true ->
  fetch_messages env db narrow user realm web anchor_arg include_anchor
                 num_before num_after ids = Ok r ->
  forall row,
    In row (rows (limited r)) ->
    In (recipient_id row) (get_web_public_streams_recipient_ids env realm).
Proof.
  intros Hweb Hfetch row Hrow.
  destruct (fetch_messages_steps _ _ _ _ _ _ _ _ _ _ _ _ Hfetch)
    as (base & id_col & compiled & dm & _ & _ & Hcompile & Hlim).
  cbv zeta in Hlim.
  assert (Hrow' : In row (run_select db compiled)).
  { apply (fetch_messages_rows_compiled env db compiled id_col anchor_arg include_anchor
             num_before num_after ids (get_first_visible_message_id env realm)
             (limited r)); [| exact Hrow].
    destruct ids as [l |]; [apply Hlim |].
    destruct Hlim as (a & _ & _ & Hlim). exists a. exact Hlim. }
  destruct narrow as [terms |]; [| discriminate Hweb].
  unfold is_web_public_narrow in Hweb.
  apply existsb_exists in Hweb as (t & Hin & Ht).
  apply andb_true_iff in Ht as [Ht Hneg]. apply andb_true_iff in Ht as [Hop Hoperand].
  assert (Hneg' : negated t = false) by (destruct (negated t); [discriminate Hneg | reflexivity]).
  destruct (channels_operator_not_search t Hop) as [Hns _].
  destruct (add_narrow_conditions_term _ _ _ _ _ _ _ t _ _ _ Hcompile Hin Hns)
    as (q0 & st0 & q1 & st1 & Hterm & Hext).
  destruct (channels_term_clause _ _ _ _ _ _ _ Hop Hneg' Hterm) as [_ Hclause].
  pose proof (run_select_clause db compiled _ row
                (extends_clause _ _ _ Hext (Hclause Hoperand)) Hrow') as Heval.
  simpl in Heval. apply existsb_exists in Heval as (i & Hi & Heq).
  apply Z.eqb_eq in Heq. change (recipient_id row = i) in Heq. rewrite Heq. exact Hi.
Qed.

(* ================================================================== *)
(** ** Properties: the first unread anchor *)
(* ================================================================== *)

(** X7.  [find_first_unread_anchor] answers
    [LARGER_THAN_MAX_MESSAGE_ID] for an anonymous requester.  For a
    user, whenever it returns, the narrow compiled over the user's
    rows of the per-user join, and the answer is the smallest message
    id among the rows of the compiled narrow that are unread and, when
    the narrow is not a direct-message narrow, pass the muting
    conditions; it is [LARGER_THAN_MAX_MESSAGE_ID] exactly when there
    is no such row to choose. *)
Theorem find_first_unread_anchor_least (env : Collaborators) (db : Database)
        (user : option UserProfile) (narrow : option (list NarrowParameter)) (a : Z) :
  find_first_unread_anchor env db user narrow = Ok a ->
  match user with
  | None => a = LARGER_THAN_MAX_MESSAGE_ID
  | Some u =>
      exists compiled searching dm,
        add_narrow_conditions env (Some u) "message_id"
          (add_columns (mkSelect (db_usermessage_join db (user_pk u)) [] []) ["flags"])
          narrow false (user_realm u)
        = Ok (compiled, searching, dm)
        /\ let candidates := first_unread_candidates env db u narrow compiled dm in
           (candidates = [] /\ a = LARGER_THAN_MAX_MESSAGE_ID)
           \/ (exists row,
                  In row candidates /\ message_id row = a
                  /\ forall row', In row' candidates -> a <= message_id row')
  end.
Proof.
  unfold find_first_unread_anchor. destruct user as [u |].
  2: { intros H. injection H as <-. reflexivity. }
  cbn [get_base_query_for_search negb].
  destruct (add_narrow_conditions env (Some u) "message_id" _ narrow false (user_realm u))
    as [[[compiled searching] dm] | e]; [| discriminate].
  intros Hrun. exists compiled, searching, dm. split; [reflexivity |]. cbv zeta.
  set (condition :=
         if negb dm
         then match exclude_muting_conditions env u narrow with
              | [] => flags_and_eq0 (mask_read (flag_masks env))
              | c :: cs => and_ (flags_and_eq0 (mask_read (flag_masks env)) :: c :: cs)
              end
         else flags_and_eq0 (mask_read (flag_masks env))) in Hrun.
  assert (Hcands : run_select db (where_ compiled condition)
                   = first_unread_candidates env db u narrow compiled dm).
  { rewrite run_select_where. unfold first_unread_candidates. apply filter_ext.
    intros row. unfold condition, is_unread.
    destruct dm; cbn [negb orb].
    - simpl. rewrite andb_true_r. reflexivity.
    - destruct (exclude_muting_conditions env u narrow) as [| c cs].
      + simpl. rewrite andb_true_r. reflexivity.
      + reflexivity. }
  cbn [execute apply_order apply_limit] in Hrun. rewrite Hcands in Hrun.
  change (Z.to_nat 1) with 1%nat in Hrun.
  pose proof (sort_rows_perm ("message_id", Asc)
                (first_unread_candidates env db u narrow compiled dm)) as Hperm.
  pose proof (sort_rows_sorted "message_id"
                (first_unread_candidates env db u narrow compiled dm)) as Hsorted.
  destruct (sort_rows ("message_id", Asc)
              (first_unread_candidates env db u narrow compiled dm)) as [| row rest].
  - left. cbn in Hrun. injection Hrun as <-. split; [| reflexivity].
    apply Permutation_nil. exact Hperm.
  - right. cbn in Hrun. injection Hrun as <-. exists row.
    split; [eapply Permutation_in; [exact Hperm | left; reflexivity] |].
    split; [reflexivity |].
    intros row' Hrow'.
    apply (Permutation_in _ (Permutation_sym Hperm)) in Hrow'.
    destruct Hrow' as [<- | Hrest]; [lia |].
    inversion Hsorted as [| ? ? _ Hall]; subst.
    rewrite Forall_forall in Hall. exact (Hall row' Hrest).
Qed.

(* ================================================================== *)
(** ** Properties: how search terms are compiled *)
(* ================================================================== *)

Lemma clear_search_negation_fields (t : NarrowParameter) :
  is_search_term (clear_search_negation t) = is_search_term t
  /\ operator (clear_search_negation t) = operator t
  /\ operand (clear_search_negation t) = operand t.
Proof.
  unfold clear_search_negation. destruct (is_search_term t) eqn:Hs.
  - unfold is_search_term in *. cbn [operator operand]. rewrite Hs. repeat split.
  - rewrite Hs. repeat split.
Qed.

(** X8.  [add_narrow_conditions] reads the [search] terms of a narrow
    only through the sequence of their operands: the result (query,
    flags or error) is the same when the search terms are moved behind
    the other terms, and the same when their [negated] flags are
    cleared, so a negated search term is compiled as a plain one; and
    several search terms with string operands compile as the single
    search term whose operand is these operands joined by a space. *)
Theorem search_terms_are_merged (env : Collaborators) (user : option UserProfile)
        (col : string) (q : Select) (web : bool) (realm : Realm) :
  let compile narrow := add_narrow_conditions env user col q (Some narrow) web realm in
  (forall narrow,
      compile narrow
      = compile (filter (fun t => negb (is_search_term t)) narrow
                 ++ filter is_search_term narrow))
  /\ (forall narrow, compile narrow = compile (map clear_search_negation narrow))
  /\ (forall narrow operands,
         (forall t, In t narrow -> is_search_term t = false) ->
         operands <> [] ->
         compile (narrow ++ map (fun s => NarrowParameter_ "search" (OStr s)) operands)
         = compile (narrow ++ [NarrowParameter_ "search" (OStr (join " " operands))])).
Proof.
  intros compile. unfold compile. split; [| split].
  - intros narrow. apply add_narrow_conditions_by_parts.
    + rewrite filter_app, filter_idem, filter_out_search_terms, app_nil_r. reflexivity.
    + rewrite search_operands_app, search_operands_filter_out, search_operands_filter.
      reflexivity.
  - intros narrow. apply add_narrow_conditions_by_parts.
    + induction narrow as [| t n IH]; simpl; [reflexivity |].
      rewrite (proj1 (clear_search_negation_fields t)).
      destruct (is_search_term t) eqn:Hs; simpl; [exact IH |].
      unfold clear_search_negation at 1. rewrite Hs, IH. reflexivity.
    + induction narrow as [| t n IH]; simpl; [reflexivity |].
      destruct (clear_search_negation_fields t) as (_ & -> & ->).
      rewrite IH. reflexivity.
  - intros narrow operands Hns Hne.
    assert (Hfilter : forall tail,
               (forall t, In t tail -> is_search_term t = true) ->
               filter (fun t => negb (is_search_term t)) (narrow ++ tail) = narrow).
    { intros tail Htail. rewrite filter_app.
      rewrite (filter_all _ narrow) by (intros t Ht; rewrite (Hns t Ht); reflexivity).
      rewrite (filter_none _ tail) by (intros t Ht; rewrite (Htail t Ht); reflexivity).
      apply app_nil_r. }
    assert (Hnone : search_operands_of narrow = []).
    { apply search_operands_none. intros t Ht Hop. specialize (Hns t Ht).
      unfold is_search_term in Hns. rewrite Hop in Hns. discriminate Hns. }
    assert (Hops : search_operands_of
                     (map (fun s => NarrowParameter_ "search" (OStr s)) operands)
                   = map OStr operands).
    { clear. induction operands as [| s l IH]; simpl; [reflexivity |].
      rewrite IH. reflexivity. }
    rewrite !add_narrow_conditions_unfold. cbv zeta.
    rewrite (add_terms_loop_split env _ (narrow ++ map _ operands)).
    rewrite (add_terms_loop_split env _ (narrow ++ [_])).
    rewrite !Hfilter.
    2: { intros t [<- | []]. reflexivity. }
    2: { intros t Ht. apply in_map_iff in Ht as (s & <- & _). reflexivity. }
    rewrite !search_operands_app, Hnone, Hops. cbn [app search_operands_of].
    cbn [NarrowParameter_ operator operand String.eqb Ascii.eqb Bool.eqb].
    destruct (add_terms_loop env _ narrow q [] _) as [[[q1 o1] st1] | e]; [| reflexivity].
    unfold search_phase.
    destruct operands as [| s l]; [exfalso; apply Hne; reflexivity |].
    change (map OStr (s :: l)) with (OStr s :: map OStr l).
    change (OStr s :: map OStr l) with (map OStr (s :: l)) at 2.
    rewrite strings_of_operands_strs. cbn [strings_of_operands option_map join].
    reflexivity.
Qed.

(** X9.  When [add_narrow_conditions] returns, its [is_search] flag
    tells whether the narrow has a [search] term (negated or not), and
    its direct-message flag tells whether the narrow has a non-negated
    term of the direct-message class ([dm], [dm-including],
    [group-pm-with], their aliases, [is:dm], [is:private]); for no
    narrow both are [False] and the query is returned as given. *)
Theorem add_narrow_conditions_flags (env : Collaborators) (user : option UserProfile)
        (col : string) (q : Select) (narrow : option (list NarrowParameter)) (web : bool)
        (realm : Realm) (q' : Select) (searching dm : bool) :
  add_narrow_conditions env user col q narrow web realm = Ok (q', searching, dm) ->
  match narrow with
  | None => q' = q /\ searching = false /\ dm = false
  | Some terms =>
      searching = existsb is_search_term terms
      /\ dm = existsb sets_dm_marker terms
  end.
Proof.
  destruct narrow as [terms |].
  2: { simpl. intros H. injection H as <- <- <-. repeat split. }
  intros Hrun. split.
  - rewrite add_narrow_conditions_unfold in Hrun. cbv zeta in Hrun.
    pose proof (add_terms_loop_outcome env (mkNarrowBuilder user col realm web)
                  terms q [] (mkBuilderState false false)) as Hpost.
    destruct (add_terms_loop env _ terms q [] _) as [[[q1 ops] st1] | e];
      [| discriminate Hrun].
    destruct Hpost as (_ & _ & Hops & _). simpl in Hops. subst ops.
    assert (Hex : existsb is_search_term terms
                  = match search_operands_of terms with [] => false | _ :: _ => true end).
    { clear. induction terms as [| t n IH]; simpl; [reflexivity |].
      unfold is_search_term at 1.
      destruct (String.eqb (operator t) "search"); simpl; [reflexivity | exact IH]. }
    rewrite Hex. unfold search_phase in Hrun.
    destruct (search_operands_of terms) as [| o ops].
    + unfold ret in Hrun. injection Hrun as _ <- _. reflexivity.
    + destruct (strings_of_operands (o :: ops)); [| discriminate Hrun].
      unfold bind in Hrun. destruct (add_term env _ _ _ st1) as [[q2 st2] | e];
        [| discriminate Hrun].
      unfold ret in Hrun. injection Hrun as _ <- _. reflexivity.
  - pose proof (add_narrow_conditions_outcome env user col q terms web realm) as Hpost.
    rewrite Hrun in Hpost. apply Hpost.
Qed.

(* ================================================================== *)
(** ** Properties: the history policy in closed form *)
(* ================================================================== *)

Lemma history_step_decides (env : Collaborators) (u : UserProfile)
      (b : bool) (t : NarrowParameter) :
  history_step env u b t
  = if decides_history u t then grants_history_term env u t else b.
Proof.
  unfold history_step, decides_history, grants_history_term.
  destruct (str_in (operator t) channel_operators && negb (negated t)); [reflexivity |].
  cbn [orb].
  destruct (str_in (operator t) channels_operators && operand_eq_str (operand t) "public"
            && negb (negated t) && can_access_public_streams u); reflexivity.
Qed.

Lemma find_app {A} (p : A -> bool) (l1 l2 : list A) :
  find p (l1 ++ l2) = match find p l1 with Some x => Some x | None => find p l2 end.
Proof.
  induction l1 as [| a l1 IH]; simpl; [reflexivity |].
  destruct (p a); [reflexivity | exact IH].
Qed.

Lemma history_scan_last (env : Collaborators) (u : UserProfile)
      (narrow : list NarrowParameter) (b : bool) :
  fold_left (history_step env u) narrow b
  = match find (decides_history u) (rev narrow) with
    | Some t => grants_history_term env u t
    | None => b
    end.
Proof.
  revert b. induction narrow as [| t narrow IH]; intros b; simpl; [reflexivity |].
  rewrite IH, find_app. destruct (find (decides_history u) (rev narrow)); [reflexivity |].
  simpl. rewrite history_step_decides. destruct (decides_history u t); reflexivity.
Qed.

Lemma personal_scan_closed (narrow : list NarrowParameter) (b : bool) :
  fold_left personal_step narrow b = b && negb (existsb is_personal_term narrow).
Proof.
  revert b. induction narrow as [| t narrow IH]; intros b; simpl.
  - rewrite andb_true_r. reflexivity.
  - rewrite IH. unfold personal_step. fold (is_personal_term t).
    destruct (is_personal_term t); simpl; [rewrite andb_false_r | ]; reflexivity.
Qed.

(** X10.  [ok_to_include_history] in closed form.  A web-public query
    without a user always includes history.  For a signed-in user and
    a narrow, history is included exactly when the narrow has no [is]
    term other than [is:resolved] and the last deciding term of the
    narrow grants it, the deciding terms being the non-negated
    [channel] / [stream] terms (granting when the history check of
    their channel passes) and, for a user who may access public
    channels, the non-negated [channels:public] terms (always
    granting).  So a later channel term overrides an earlier one, in
    either direction; and with no narrow history is not included. *)
Theorem ok_to_include_history_last_term (env : Collaborators) (u : UserProfile) :
  (forall narrow, ok_to_include_history env narrow None true = Ok true)
  /\ ok_to_include_history env None (Some u) false = Ok false
  /\ (forall terms,
         ok_to_include_history env (Some terms) (Some u) false
         = Ok (negb (existsb is_personal_term terms)
               && match find (decides_history u) (rev terms) with
                  | Some t => grants_history_term env u t
                  | None => false
                  end)).
Proof.
  split; [reflexivity |]. split; [reflexivity |].
  intros terms. rewrite ok_to_include_history_unfold.
  rewrite personal_scan_closed, history_scan_last, andb_comm. reflexivity.
Qed.

(* ================================================================== *)
(** ** Properties: narrow normalisation *)
(* ================================================================== *)

Lemma existsb_filter_nil {A} (p : A -> bool) (l : list A) :
  existsb p l = false <-> filter p l = [].
Proof.
  induction l as [| a l IH]; simpl; [tauto |].
  destruct (p a); simpl; [split; discriminate | exact IH].
Qed.

Lemma conversation_terms_define (env : Collaborators) (message : Message)
      (rest : list NarrowParameter) :
  can_narrow_define_conversation (conversation_terms env message ++ rest) = true
  /\ existsb is_with_term (conversation_terms env message) = false.
Proof.
  unfold conversation_terms. destruct (recipient_type (message_recipient message));
    split; reflexivity.
Qed.

(** X11.  The [with] rewrite at its edges, and what it guarantees.
    No narrow gives no narrow; a narrow without a [with] term is
    returned as it is; a narrow with two or more [with] terms fails
    with [InvalidOperatorCombinationError], before any message is
    looked up; and whenever the rewrite of a narrow that has a [with]
    term returns, the returned narrow has no [with] term left and
    defines a conversation. *)
Theorem with_operator_rewrite_edges (env : Collaborators) (realm : Realm)
        (maybe_user_profile : MaybeUser) :
  let rewrite_with := update_narrow_terms_containing_with_operator env realm
                        maybe_user_profile in
  rewrite_with None = Ok None
  /\ (forall narrow,
         existsb is_with_term narrow = false -> rewrite_with (Some narrow) = Ok (Some narrow))
  /\ (forall narrow,
         (2 <= List.length (filter is_with_term narrow))%nat ->
         rewrite_with (Some narrow)
         = Err (InvalidOperatorCombinationError "Duplicate 'with' operators."))
  /\ (forall narrow result,
         existsb is_with_term narrow = true ->
         rewrite_with (Some narrow) = Ok result ->
         exists narrow',
           result = Some narrow'
           /\ existsb is_with_term narrow' = false
           /\ can_narrow_define_conversation narrow' = true).
Proof.
  intros rewrite_with. unfold rewrite_with, update_narrow_terms_containing_with_operator.
  split; [reflexivity |]. split; [| split].
  - intros narrow Hnone. apply existsb_filter_nil in Hnone.
    change (filter (fun term => String.eqb (operator term) "with") narrow)
      with (filter is_with_term narrow).
    rewrite Hnone. reflexivity.
  - intros narrow Hlen.
    change (filter (fun term => String.eqb (operator term) "with") narrow)
      with (filter is_with_term narrow).
    destruct (filter is_with_term narrow) as [| w1 [| w2 rest]]; simpl in Hlen; try lia.
    reflexivity.
  - intros narrow result Hsome.
    change (filter (fun term => String.eqb (operator term) "with") narrow)
      with (filter is_with_term narrow).
    destruct (filter is_with_term narrow) as [| w [| w2 rest]] eqn:Hwith.
    + apply existsb_filter_nil in Hwith. congruence.
    + rewrite (list_remove_with narrow w Hwith).
      set (rest := filter (fun t => negb (is_with_term t)) narrow).
      assert (Hrest : existsb is_with_term rest = false).
      { apply existsb_filter_nil. unfold rest.
        apply filter_none. intros x Hx. apply filter_In in Hx as [_ Hx].
        apply negb_true_iff in Hx. exact Hx. }
      destruct (operand w) as [s | n | ns]; try discriminate.
      * cbn [int_of_operand]. destruct (py_int s) as [id |]; [| discriminate].
        fold (access_target env realm maybe_user_profile id).
        destruct (access_target env realm maybe_user_profile id) as [message |].
        -- fold (conversation_terms env message).
           set (kept := filter (fun term => negb (str_in (operator term) _)) rest).
           intros H.
           assert (Hresult : result = Some (conversation_terms env message ++ kept)).
           { unfold conversation_terms.
             destruct (recipient_type (message_recipient message));
               injection H as <-; reflexivity. }
           exists (conversation_terms env message ++ kept).
           split; [exact Hresult |].
           destruct (conversation_terms_define env message kept) as [Hdef Hnw].
           split; [| exact Hdef].
           rewrite existsb_app, Hnw. cbn [orb].
           apply existsb_filter_nil. apply filter_none. intros x Hx.
           unfold kept in Hx. apply filter_In in Hx as [Hx _].
           destruct (is_with_term x) eqn:Hw; [| reflexivity].
           assert (Hex : existsb is_with_term rest = true)
             by (apply existsb_exists; exists x; split; assumption).
           congruence.
        -- destruct (can_narrow_define_conversation rest) eqn:Hdef; [| discriminate].
           intros H. injection H as <-. exists rest.
           split; [reflexivity |]. split; [exact Hrest | exact Hdef].
      * cbn [int_of_operand].
        fold (access_target env realm maybe_user_profile n).
        destruct (access_target env realm maybe_user_profile n) as [message |].
        -- fold (conversation_terms env message).
           set (kept := filter (fun term => negb (str_in (operator term) _)) rest).
           intros H.
           assert (Hresult : result = Some (conversation_terms env message ++ kept)).
           { unfold conversation_terms.
             destruct (recipient_type (message_recipient message));
               injection H as <-; reflexivity. }
           exists (conversation_terms env message ++ kept).
           split; [exact Hresult |].
           destruct (conversation_terms_define env message kept) as [Hdef Hnw].
           split; [| exact Hdef].
           rewrite existsb_app, Hnw. cbn [orb].
           apply existsb_filter_nil. apply filter_none. intros x Hx.
           unfold kept in Hx. apply filter_In in Hx as [Hx _].
           destruct (is_with_term x) eqn:Hw; [| reflexivity].
           assert (Hex : existsb is_with_term rest = true)
             by (apply existsb_exists; exists x; split; assumption).
           congruence.
        -- destruct (can_narrow_define_conversation rest) eqn:Hdef; [| discriminate].
           intros H. injection H as <-. exists rest.
           split; [reflexivity |]. split; [exact Hrest | exact Hdef].
    + discriminate.
Qed.

(** X12.  [update_narrow_terms_containing_empty_topic_fallback_name]
    touches one operand at most: the operators and the [negated] flags
    of the narrow are kept term by term; a narrow without a [topic]
    term is returned as it is; and in a narrow with [topic] terms only
    the first one has its operand renamed, every other term, later
    [topic] terms included, staying as it was. *)
Theorem empty_topic_rename_first_only (env : Collaborators) :
  (forall narrow,
      map operator (rename_first_topic env narrow) = map operator narrow
      /\ map negated (rename_first_topic env narrow) = map negated narrow)
  /\ (forall narrow,
         existsb is_topic_operator_term narrow = false ->
         update_narrow_terms_containing_empty_topic_fallback_name env (Some narrow)
         = Some narrow)
  /\ (forall before term after,
         existsb is_topic_operator_term before = false ->
         is_topic_operator_term term = true ->
         update_narrow_terms_containing_empty_topic_fallback_name env
           (Some (before ++ term :: after))
         = Some (before
                 ++ mkTerm (operator term)
                      (maybe_rename_general_chat_to_empty_topic env (operand term))
                      (negated term)
                 :: after)).
Proof.
  split; [| split].
  - intros narrow. induction narrow as [| t n [IHo IHn]]; simpl; [split; reflexivity |].
    destruct (String.eqb (operator t) "topic"); simpl; [split; reflexivity |].
    rewrite IHo, IHn. split; reflexivity.
  - intros narrow H. unfold update_narrow_terms_containing_empty_topic_fallback_name.
    simpl. f_equal. induction narrow as [| t n IH]; simpl in *; [reflexivity |].
    apply orb_false_iff in H as [Ht Hn]. unfold is_topic_operator_term in Ht.
    rewrite Ht. f_equal. apply IH, Hn.
  - intros before term after Hbefore Hterm.
    unfold update_narrow_terms_containing_empty_topic_fallback_name. simpl. f_equal.
    induction before as [| t n IH]; simpl in *.
    + unfold is_topic_operator_term in Hterm. rewrite Hterm. reflexivity.
    + apply orb_false_iff in Hbefore as [Ht Hn]. unfold is_topic_operator_term in Ht.
      rewrite Ht. f_equal. apply IH, Hn.
Qed.

(* ================================================================== *)
(** ** Properties: terms that cannot be compiled *)
(* ================================================================== *)

(** A term on which [add_term] fails from every query and state makes
    the loop fail. *)
Lemma add_terms_loop_fails (env : Collaborators) (self : NarrowBuilder)
      (narrow : list NarrowParameter) (t : NarrowParameter) :
  In t narrow -> is_search_term t = false ->
  (forall q st, exists e, add_term env self q t st = Err e) ->
  forall q ops st, exists e, add_terms_loop env self narrow q ops st = Err e.
Proof.
  intros Hin Hns Hfail. induction narrow as [| t0 narrow IH]; [destruct Hin |].
  intros q ops st. cbn [add_terms_loop].
  destruct (String.eqb (operator t0) "search") eqn:Hs0.
  - destruct Hin as [-> | Hin]; [unfold is_search_term in Hns; congruence |].
    apply IH, Hin.
  - unfold bind. destruct Hin as [-> | Hin].
    + destruct (Hfail q st) as [e ->]. exists e. reflexivity.
    + destruct (add_term env self q t0 st) as [[q1 st1] | e]; [apply IH, Hin |].
      exists e. reflexivity.
Qed.

Lemma no_handler_fails (env : Collaborators) (self : NarrowBuilder) (t : NarrowParameter) :
  has_no_handler t = true ->
  is_search_term t = false
  /\ forall q st, exists e, add_term env self q t st = Err e.
Proof.
  unfold has_no_handler, term_method. intros H.
  destruct (lookup (operator t) by_method_map) eqn:Hm; [discriminate H |]. split.
  - unfold is_search_term. destruct (String.eqb_spec (operator t) "search") as [E |];
      [| reflexivity].
    rewrite E in Hm. discriminate Hm.
  - intros q st. unfold add_term. rewrite Hm. eexists. reflexivity.
Qed.

Lemma needs_user_fails (env : Collaborators) (self : NarrowBuilder) (t : NarrowParameter) :
  needs_user t = true ->
  user_profile self = None \/ is_web_public_query self = true ->
  is_search_term t = false
  /\ forall q st, add_term env self q t st = Err AssertionError.
Proof.
  unfold needs_user, term_method. intros H Hanon.
  destruct (lookup (operator t) by_method_map) as [m |] eqn:Hm; [| discriminate H]. split.
  - unfold is_search_term. destruct (String.eqb_spec (operator t) "search") as [E |];
      [| reflexivity].
    rewrite E in Hm. injection Hm as <-. discriminate H.
  - intros q st. unfold add_term. rewrite Hm.
    assert (Hassert : forall st0, assert_user self st0 = Err AssertionError).
    { intros st0. unfold assert_user, bind, assert_, raise, ret.
      destruct Hanon as [Hu | Hw].
      - rewrite Hu. destruct (negb (is_web_public_query self)); reflexivity.
      - rewrite Hw. reflexivity. }
    destruct m; try discriminate H; cbn [call_method];
      unfold by_in, by_is, by_dm, by_dm_including, by_group_pm_with, bind.
    + rewrite Hassert. reflexivity.
    + apply negb_true_iff in H. rewrite H. rewrite Hassert. reflexivity.
    + rewrite Hassert. reflexivity.
    + rewrite Hassert. reflexivity.
    + rewrite Hassert. reflexivity.
Qed.

(** X13.  A narrow never compiles when it has a term whose operator
    has no handler ([with] is one: it has to be rewritten away before
    compilation), or when the request is anonymous or web-public and
    the narrow has a term whose handler needs the requesting user
    ([in], [dm], [dm-including], [group-pm-with] and their aliases, and
    [is] with an operand other than [resolved]), wherever the term
    stands in the narrow. *)
Theorem add_narrow_conditions_rejects (env : Collaborators) (user : option UserProfile)
        (col : string) (q : Select) (narrow : list NarrowParameter) (web : bool)
        (realm : Realm) (t : NarrowParameter) :
  In t narrow ->
  has_no_handler t = true \/ (needs_user t = true /\ (user = None \/ web = true)) ->
  exists e, add_narrow_conditions env user col q (Some narrow) web realm = Err e.
Proof.
  intros Hin Hbad. rewrite add_narrow_conditions_unfold. cbv zeta.
  set (self := mkNarrowBuilder user col realm web).
  assert (Hfail : is_search_term t = false
                  /\ forall q0 st0, exists e, add_term env self q0 t st0 = Err e).
  { destruct Hbad as [Hno | [Hneeds Hanon]].
    - apply no_handler_fails, Hno.
    - destruct (needs_user_fails env self t Hneeds Hanon) as [Hns Herr].
      split; [exact Hns |]. intros q0 st0. exists AssertionError. apply Herr. }
  destruct Hfail as [Hns Hfail].
  destruct (add_terms_loop_fails env self narrow t Hin Hns Hfail q []
              (mkBuilderState false false)) as [e ->].
  exists e. reflexivity.
Qed.

(* ================================================================== *)
(** ** Properties: spectators *)
(* ================================================================== *)

(** A term [is_spectator_compatible] lets through. *)
Lemma spectator_term_cases (t : NarrowParameter) :
  (String.eqb (operator t) "is" && operand_eq_str (operand t) "resolved" = true
   \/ str_in (operator t) supported_operators = true) ->
  (operator t = "is" /\ operand t = OStr "resolved")
  \/ In (operator t)
        ["channel"; "stream"; "channels"; "streams"; "topic"; "sender"; "has";
         "search"; "near"; "id"; "with"].
Proof.
  intros [H | H].
  - left. apply andb_true_iff in H as [Hop Hoperand]. apply String.eqb_eq in Hop.
    split; [exact Hop |]. destruct (operand t) as [s | |]; try discriminate Hoperand.
    simpl in Hoperand. apply String.eqb_eq in Hoperand. rewrite Hoperand. reflexivity.
  - right. unfold str_in in H. apply existsb_exists in H as (s & Hs & Heq).
    apply String.eqb_eq in Heq. rewrite Heq. exact Hs.
Qed.

(** A term that is not let through has no handler or needs a user. *)
Lemma not_spectator_term (t : NarrowParameter) :
  String.eqb (operator t) "is" && operand_eq_str (operand t) "resolved" = false ->
  str_in (operator t) supported_operators = false ->
  has_no_handler t = true \/ needs_user t = true.
Proof.
  intros His Hsup. unfold has_no_handler, needs_user, term_method.
  destruct t as [op opnd neg]. cbn [operator operand] in *.
  unfold by_method_map. cbn [lookup].
  repeat match goal with
         | |- context [String.eqb op ?s] =>
             destruct (String.eqb_spec op s) as [-> | ?];
             [ try discriminate Hsup; try (right; reflexivity) | ]
         end.
  - right. cbn [String.eqb Ascii.eqb Bool.eqb andb] in His. rewrite His. reflexivity.
  - left. reflexivity.
Qed.

Lemma add_term_spectator (env : Collaborators) (col : string) (rlm : Realm)
      (t : NarrowParameter) (q : Select) (st : BuilderState) :
  is_zephyr_mirror_realm rlm = false ->
  (forall operand channel,
      get_stream_by_narrow_operand_access_unchecked env operand rlm = Some channel ->
      stream_recipient_id channel <> None) ->
  (String.eqb (operator t) "is" && operand_eq_str (operand t) "resolved" = true
   \/ str_in (operator t) supported_operators = true) ->
  add_term env (mkNarrowBuilder None col rlm true) q t st <> Err AssertionError.
Proof.
  intros Hz Hrid Hcase. apply spectator_term_cases in Hcase.
  destruct t as [op opnd neg]. cbn [operator operand] in Hcase.
  unfold add_term. cbn [operator operand negated].
  destruct Hcase as [[-> ->] | Hin].
  - cbn. unfold by_is. cbn. unfold ret. discriminate.
  - cbn [In] in Hin.
    repeat (destruct Hin as [<- | Hin]); try destruct Hin; cbn [lookup by_method_map
      String.eqb Ascii.eqb Bool.eqb call_method].
    all: unfold by_has, by_channel, by_channels, by_topic, by_sender, by_near,
      by_id, by_search, check_not_both_channel_and_dm_narrow, bind, raise, ret, assert_.
    all: cbn [realm is_web_public_query user_profile msg_id_column].
    all: rewrite ?Hz.
    all: try (destruct (get_stream_by_narrow_operand_access_unchecked env opnd rlm)
                as [channel |] eqn:Hchannel;
              [pose proof (Hrid _ _ Hchannel) |]).
    all: crunch; try discriminate; try congruence.
Qed.

Lemma add_terms_loop_spectator (env : Collaborators) (col : string) (realm : Realm)
      (narrow : list NarrowParameter) :
  is_zephyr_mirror_realm realm = false ->
  (forall operand channel,
      get_stream_by_narrow_operand_access_unchecked env operand realm = Some channel ->
      stream_recipient_id channel <> None) ->
  is_spectator_compatible narrow = true ->
  forall q ops st,
    add_terms_loop env (mkNarrowBuilder None col realm true) narrow q ops st
    <> Err AssertionError.
Proof.
  intros Hz Hrid. induction narrow as [| t narrow IH]; intros Hcompat q ops st.
  - discriminate.
  - cbn [is_spectator_compatible] in Hcompat. cbn [add_terms_loop].
    assert (Hterm : (String.eqb (operator t) "is" && operand_eq_str (operand t) "resolved"
                     = true
                     \/ str_in (operator t) supported_operators = true)
                    /\ is_spectator_compatible narrow = true).
    { destruct (String.eqb (operator t) "is" && operand_eq_str (operand t) "resolved");
        [split; [left; reflexivity | exact Hcompat] |].
      destruct (str_in (operator t) supported_operators); cbn [negb] in Hcompat;
        [split; [right; reflexivity | exact Hcompat] | discriminate Hcompat]. }
    destruct Hterm as [Hterm Hrest].
    destruct (String.eqb (operator t) "search"); [apply IH, Hrest |].
    unfold bind.
    pose proof (add_term_spectator env col realm t q st Hz Hrid Hterm) as Hno.
    destruct (add_term env _ q t st) as [[q1 st1] | e]; [apply IH, Hrest |].
    congruence.
Qed.

(** X14.  [is_spectator_compatible] and the asserts of the handlers.
    Outside a Zephyr realm whose channels all have a recipient, a
    narrow that [is_spectator_compatible] accepts never fails an
    assertion when compiled for an anonymous web-public request
    (whether it compiles or raises another error is not said).  A
    narrow that [is_spectator_compatible] refuses never compiles for
    an anonymous requester. *)
Theorem spectator_compatible_asserts (env : Collaborators) (col : string) (q : Select)
        (narrow : list NarrowParameter) (realm : Realm) :
  is_zephyr_mirror_realm realm = false ->
  (forall operand channel,
      get_stream_by_narrow_operand_access_unchecked env operand realm = Some channel ->
      stream_recipient_id channel <> None) ->
  (is_spectator_compatible narrow = true ->
   add_narrow_conditions env None col q (Some narrow) true realm <> Err AssertionError)
  /\ (is_spectator_compatible narrow = false ->
      forall web, exists e,
        add_narrow_conditions env None col q (Some narrow) web realm = Err e).
Proof.
  intros Hz Hrid. split.
  - intros Hcompat. rewrite add_narrow_conditions_unfold. cbv zeta.
    pose proof (add_terms_loop_spectator env col realm narrow Hz Hrid Hcompat q []
                  (mkBuilderState false false)) as Hloop.
    destruct (add_terms_loop env _ narrow q [] _) as [[[q1 ops] st1] | e];
      [| congruence].
    unfold search_phase. destruct ops as [| o ops]; [discriminate |].
    destruct (strings_of_operands (o :: ops)) as [strs |]; [| discriminate].
    unfold bind.
    destruct (add_term_search env (mkNarrowBuilder None col realm true)
                (add_columns q1 ["escaped_topic_name"; "rendered_content"])
                (join " " strs) st1) as (q2 & -> & _).
    discriminate.
  - intros Hcompat web.
    assert (Hbad : exists t, In t narrow
                             /\ (has_no_handler t = true \/ needs_user t = true)).
    { induction narrow as [| t narrow IH]; [discriminate Hcompat |].
      cbn [is_spectator_compatible] in Hcompat.
      destruct (String.eqb (operator t) "is" && operand_eq_str (operand t) "resolved")
        eqn:His.
      - destruct (IH Hcompat) as (t' & Hin & Ht'). exists t'. split; [right |]; assumption.
      - destruct (str_in (operator t) supported_operators) eqn:Hsup; cbn [negb] in Hcompat.
        + destruct (IH Hcompat) as (t' & Hin & Ht'). exists t'.
          split; [right |]; assumption.
        + exists t. split; [left; reflexivity |]. apply not_spectator_term; assumption. }
    destruct Hbad as (t & Hin & Ht).
    rewrite add_narrow_conditions_unfold. cbv zeta.
    set (self := mkNarrowBuilder None col realm web).
    assert (Hfail : is_search_term t = false
                    /\ forall q0 st0, exists e, add_term env self q0 t st0 = Err e).
    { destruct Ht as [Hno | Hneeds].
      - apply no_handler_fails, Hno.
      - destruct (needs_user_fails env self t Hneeds (or_introl eq_refl)) as [Hns Herr].
        split; [exact Hns |]. intros q0 st0. exists AssertionError. apply Herr. }
    destruct Hfail as [Hns Hfail].
    destruct (add_terms_loop_fails env self narrow t Hin Hns Hfail q []
                (mkBuilderState false false)) as [e ->].
    exists e. reflexivity.
Qed.

(* ================================================================== *)
(** ** Properties: the [id] operator *)
(* ================================================================== *)






(* ================================================================== *)
(** ** Properties: windows of a sorted list of ids *)
(* ================================================================== *)

Section Slices.
Context {A : Type}.

Lemma last_n_all (n : nat) (l : list A) :
  (List.length l <= n)%nat -> last_n n l = l.
Proof.
  intros H. unfold last_n. replace (List.length l - n)%nat with 0%nat by lia. reflexivity.
Qed.

Lemma last_n_length (n : nat) (l : list A) :
  List.length (last_n n l) = Nat.min n (List.length l).
Proof. unfold last_n. rewrite length_skipn. lia. Qed.

(** The last [n] entries of [front ++ back] when [back] is short. *)
Lemma last_n_app_short (n : nat) (front back : list A) :
  (List.length back <= n)%nat ->
  last_n n (front ++ back) = last_n (n - List.length back) front ++ back.
Proof.
  intros H. unfold last_n. rewrite length_app, skipn_app.
  replace (List.length front + List.length back - n - List.length front)%nat
    with 0%nat by lia.
  replace (List.length front + List.length back - n)%nat
    with (List.length front - (n - List.length back))%nat by lia.
  reflexivity.
Qed.

(** The last [n] entries of [front ++ back] when [back] is long. *)
Lemma last_n_app_long (n : nat) (front back : list A) :
  (n <= List.length back)%nat -> last_n n (front ++ back) = last_n n back.
Proof.
  intros H. unfold last_n. rewrite length_app, skipn_app.
  rewrite skipn_all2 by lia. cbn [app]. f_equal. lia.
Qed.

Lemma last_n_last_n (n k : nat) (l : list A) :
  (n <= k)%nat -> last_n n (last_n k l) = last_n n l.
Proof.
  intros H. unfold last_n. rewrite length_skipn, skipn_skipn. f_equal. lia.
Qed.

Lemma last_n_zero (l : list A) : last_n 0 l = [].
Proof. unfold last_n. apply skipn_all2. lia. Qed.

Lemma In_last_n (n : nat) (l : list A) (x : A) : In x (last_n n l) -> In x l.
Proof. unfold last_n. apply In_skipn. Qed.

Lemma filter_filter_and (p1 p2 : A -> bool) (l : list A) :
  filter p2 (filter p1 l) = filter (fun x => p1 x && p2 x) l.
Proof.
  induction l as [| a l IH]; simpl; [reflexivity |].
  destruct (p1 a); simpl; [destruct (p2 a); rewrite IH; reflexivity | exact IH].
Qed.
End Slices.

Section SortedIds.
Variable up : Z -> bool.
Hypothesis up_closed : forall x y, up x = true -> x <= y -> up y = true.

(** A sorted list is its entries below an upward-closed set followed
    by its entries in the set. *)
Lemma sorted_split_up (ids : list Z) :
  StronglySorted Z.le ids ->
  ids = filter (fun i => negb (up i)) ids ++ filter up ids.
Proof.
  induction 1 as [| a l Hs IH Hall]; [reflexivity |].
  rewrite Forall_forall in Hall. cbn [filter].
  destruct (up a) eqn:Ha; cbn [negb].
  - rewrite (filter_none (fun i => negb (up i)) l), (filter_all up l); [reflexivity | |].
    + intros x Hx. apply (up_closed a x Ha), Hall, Hx.
    + intros x Hx. rewrite (up_closed a x Ha (Hall x Hx)). reflexivity.
  - cbn [app]. f_equal. exact IH.
Qed.

(** Cutting a sorted list to its last [k] entries before selecting
    the entries of an upward-closed set does not change the last
    [n <= k] of the selection. *)
Lemma last_n_filter_up (n k : nat) (ids : list Z) :
  StronglySorted Z.le ids -> (n <= k)%nat ->
  last_n n (filter up (last_n k ids)) = last_n n (filter up ids).
Proof.
  intros Hs Hnk.
  set (low := filter (fun i => negb (up i)) ids).
  set (high := filter up ids).
  assert (Hsplit : ids = low ++ high) by (apply sorted_split_up, Hs).
  assert (Hhigh : filter up high = high) by (apply filter_idem).
  assert (Hlow : forall m, filter up (last_n m low) = []).
  { intros m. apply filter_none. intros x Hx. apply In_last_n in Hx.
    apply filter_In in Hx as [_ Hx]. apply negb_true_iff in Hx. exact Hx. }
  destruct (Nat.le_gt_cases (List.length high) k) as [Hshort | Hlong].
  - rewrite Hsplit at 1. rewrite (last_n_app_short k low high Hshort).
    rewrite filter_app, Hlow, Hhigh. reflexivity.
  - rewrite Hsplit at 1. rewrite (last_n_app_long k low high) by lia.
    rewrite (filter_all up (last_n k high)).
    + apply last_n_last_n, Hnk.
    + intros x Hx. apply In_last_n in Hx. apply filter_In in Hx. apply Hx.
Qed.
End SortedIds.

(** A sorted list is its entries below, at and above an anchor. *)
Lemma sorted_split_anchor (a : Z) (ids : list Z) :
  StronglySorted Z.le ids ->
  ids = filter (fun i => i <? a) ids ++ filter (fun i => i =? a) ids
        ++ filter (fun i => i >? a) ids.
Proof.
  intros Hs.
  rewrite (sorted_split_up (fun i => i >=? a)
             ltac:(intros x y Hx Hxy; apply Z.geb_le in Hx; apply Z.geb_le; lia) ids Hs)
    at 1.
  assert (Hge : StronglySorted Z.le (filter (fun i => i >=? a) ids))
    by (apply StronglySorted_filter, Hs).
  rewrite (sorted_split_up (fun i => i >? a)
             ltac:(intros x y Hx Hxy; apply Z.gtb_lt in Hx; apply Z.gtb_lt; lia) _ Hge)
    at 1.
  rewrite !filter_filter_and. f_equal; [| f_equal]; apply filter_ext; intros i.
  - destruct (Z.geb_spec i a), (Z.ltb_spec i a); try lia; reflexivity.
  - destruct (Z.geb_spec i a), (Z.gtb_spec i a), (Z.eqb_spec i a); try lia; reflexivity.
  - destruct (Z.geb_spec i a), (Z.gtb_spec i a); try lia; reflexivity.
Qed.

Lemma sorted_rev (ids : list Z) :
  StronglySorted (key_order Asc) ids -> StronglySorted (key_order Desc) (rev ids).
Proof.
  induction 1 as [| a l Hs IH Hall]; simpl; [constructor |].
  apply StronglySorted_app.
  - exact IH.
  - constructor; [constructor | constructor].
  - intros x y Hx [<- | []]. rewrite Forall_forall in Hall.
    apply in_rev in Hx. specialize (Hall x Hx). simpl in *. lia.
Qed.

(** Sorting in descending order is reversing the ascending sort. *)
Lemma sort_keys_desc (ids : list Z) : sort_keys Desc ids = rev (sort_keys Asc ids).
Proof.
  apply (sorted_perm_unique Desc).
  - apply sort_keys_sorted.
  - apply sorted_rev, sort_keys_sorted.
  - eapply perm_trans; [apply sort_keys_perm |].
    eapply perm_trans; [apply Permutation_sym, (sort_keys_perm Asc) | apply Permutation_rev].
Qed.

(** Selecting commutes with sorting. *)
Lemma sort_keys_filter (keep : Z -> bool) (ids : list Z) :
  sort_keys Asc (filter keep ids) = filter keep (sort_keys Asc ids).
Proof.
  apply (sorted_perm_unique Asc).
  - apply sort_keys_sorted.
  - apply StronglySorted_filter, (sort_keys_sorted Asc).
  - eapply perm_trans; [apply sort_keys_perm |].
    apply filter_perm, Permutation_sym, sort_keys_perm.
Qed.

(** Sorting an already sorted list, given in any order. *)
Lemma sort_keys_sorted_id (ids sorted : list Z) :
  StronglySorted Z.le sorted -> Permutation ids sorted -> sort_keys Asc ids = sorted.
Proof.
  intros Hs Hp. apply (sorted_perm_unique Asc); [apply sort_keys_sorted | exact Hs |].
  eapply perm_trans; [apply sort_keys_perm | exact Hp].
Qed.

(** The ids an ordered, limited descending select returns, read
    against the ascending ids of the query. *)
Lemma before_query_ids (keep : Z -> bool) (k : nat) (ids : list Z) :
  firstn k (sort_keys Desc (filter keep ids))
  = rev (last_n k (filter keep (sort_keys Asc ids))).
Proof.
  rewrite sort_keys_desc, sort_keys_filter. unfold last_n. apply firstn_rev.
Qed.

(* ================================================================== *)
(** ** Properties: the window of a fetch, step by step *)
(* ================================================================== *)

Lemma visible_id_closed (fv x y : Z) :
  visible_id fv x = true -> x <= y -> visible_id fv y = true.
Proof.
  unfold visible_id. destruct (fv >? 0); cbn [negb orb]; [| reflexivity].
  intros Hx Hxy. apply Z.geb_le in Hx. apply Z.geb_le. lia.
Qed.

Lemma visible_rows_of_keys (fv : Z) (ids : list Z) :
  visible_rows_of (fun i => i) ids fv = filter (visible_id fv) ids.
Proof.
  unfold visible_rows_of, visible_id. destruct (fv >? 0); cbn [negb orb]; [reflexivity |].
  symmetry. apply filter_all. reflexivity.
Qed.

Section PostProcessKeys.
Context {MessageRowT : Type}.
Variable row0 : MessageRowT -> Z.

Lemma py_slice_from_map (start : Z) (l : list MessageRowT) :
  map row0 (py_slice_from start l) = py_slice_from start (map row0 l).
Proof. unfold py_slice_from. rewrite length_map, skipn_map. reflexivity. Qed.

Lemma py_slice_to_map (stop : Z) (l : list MessageRowT) :
  map row0 (py_slice_to stop l) = py_slice_to stop (map row0 l).
Proof. unfold py_slice_to. rewrite length_map, firstn_map. reflexivity. Qed.

Lemma len_map (l : list MessageRowT) : len (map row0 l) = len l.
Proof. unfold len. rewrite length_map. reflexivity. Qed.

(** Post-processing rows is post-processing their ids. *)
Lemma post_process_keys (fetched : list MessageRowT) (num_before num_after anchor : Z)
      (left right : bool) (fv : Z) :
  let r := post_process_limited_query row0 fetched num_before num_after anchor
                                      left right fv in
  let k := post_process_limited_query (fun i => i) (map row0 fetched)
                                      num_before num_after anchor left right fv in
  map row0 (rows r) = rows k
  /\ found_anchor r = found_anchor k
  /\ found_oldest r = found_oldest k
  /\ found_newest r = found_newest k.
Proof.
  assert (Hvis : visible_rows_of (fun i => i) (map row0 fetched) fv
                 = map row0 (visible_rows_of row0 fetched fv)).
  { unfold visible_rows_of. destruct (fv >? 0); [| reflexivity].
    symmetry. apply (map_filter_key row0 (fun i => i >=? fv)). }
  intros r k. unfold r, k, post_process_limited_query. rewrite Hvis.
  set (vis := visible_rows_of row0 fetched fv).
  unfold partition_rows. destruct right.
  - cbn [rows found_anchor found_oldest found_newest].
    destruct (negb (num_before =? 0)); cbn [negb Z.eqb map app];
      rewrite ?app_nil_r, <- ?py_slice_from_map, ?len_map; repeat split; reflexivity.
  - cbv beta.
    rewrite <- (map_filter_key row0 (fun i => i <? anchor)),
      <- (map_filter_key row0 (fun i => i =? anchor)),
      <- (map_filter_key row0 (fun i => i >? anchor)).
    cbn [rows found_anchor found_oldest found_newest].
    destruct (negb (num_before =? 0)), (negb (num_after =? 0));
      rewrite !map_app, <- ?py_slice_from_map, <- ?py_slice_to_map, ?len_map;
      repeat split; reflexivity.
Qed.
End PostProcessKeys.

(** The ids the executed window fetches, read against the ascending
    ids of the query, when the fetch is anchored to neither end. *)
Lemma window_fetched_ids (db : Database) (query : Select) (id_col : string)
      (num_before num_after anchor : Z) (include_anchor : bool) (fv : Z) :
  is_id_column id_col ->
  let ids := narrow_ids db query in
  map message_id
      (execute db
         (sb_ordered_subquery
            (limit_query_to_range query num_before num_after anchor include_anchor
                                  false false id_col fv)
            ("message_id", Asc)))
  = if (num_before >? 0) && (num_after >? 0) then
      last_n (Z.to_nat num_before) (filter (fun i => i <=? anchor - 1) ids)
      ++ firstn (Z.to_nat (num_after + 1)) (filter (fun i => i >=? Z.max anchor fv) ids)
    else if num_before >? 0 then
      last_n (Z.to_nat (num_before + int_of_bool include_anchor))
             (filter (fun i => i <=? anchor - int_of_bool (negb include_anchor)) ids)
    else if num_after >? 0 then
      firstn (Z.to_nat (num_after + int_of_bool include_anchor))
             (filter (fun i => i >=? Z.max (anchor + int_of_bool (negb include_anchor)) fv)
                     ids)
    else filter (fun i => i =? anchor) ids.
Proof.
  intros Hid ids. rewrite execute_ordered_ids. unfold limit_query_to_range.
  cbn [negb andb].
  assert (Hle : forall b r, eval_cond db (int_column_le id_col b) r = (message_id r <=? b))
    by (intros b r; simpl; rewrite (int_column_id _ _ Hid); reflexivity).
  assert (Hge : forall b r, eval_cond db (int_column_ge id_col b) r = (message_id r >=? b))
    by (intros b r; simpl; rewrite (int_column_id _ _ Hid); reflexivity).
  assert (Hsorted : StronglySorted Z.le ids) by apply (sort_keys_sorted Asc).
  destruct (num_before >? 0), (num_after >? 0); cbn [andb]; cbv zeta.
  - rewrite execute_union_ids.
    rewrite (execute_ids db query _ (fun i => i <=? anchor - 1) id_col Desc _ Hid (Hle _)).
    rewrite (execute_ids db query _ (fun i => i >=? Z.max anchor fv) id_col Asc _ Hid
               (Hge _)).
    rewrite before_query_ids, sort_keys_filter. fold (narrow_ids db query). fold ids.
    apply sort_keys_sorted_id.
    + apply StronglySorted_app.
      * unfold last_n. apply StronglySorted_skipn, StronglySorted_filter, Hsorted.
      * apply StronglySorted_firstn, StronglySorted_filter, Hsorted.
      * intros x y Hx Hy. apply In_last_n in Hx. apply filter_In in Hx as [_ Hx].
        apply In_firstn_all in Hy. apply filter_In in Hy as [_ Hy].
        apply Z.leb_le in Hx. apply Z.geb_le in Hy. lia.
    + apply Permutation_app_tail, Permutation_sym, Permutation_rev.
  - rewrite (execute_ids db query _
               (fun i => i <=? anchor - int_of_bool (negb include_anchor))
               id_col Desc _ Hid (Hle _)).
    rewrite before_query_ids. fold (narrow_ids db query). fold ids.
    apply sort_keys_sorted_id.
    + unfold last_n. apply StronglySorted_skipn, StronglySorted_filter, Hsorted.
    + apply Permutation_sym, Permutation_rev.
  - rewrite (execute_ids db query _
               (fun i => i >=? Z.max (anchor + int_of_bool (negb include_anchor)) fv)
               id_col Asc _ Hid (Hge _)).
    rewrite sort_keys_filter. fold (narrow_ids db query). fold ids.
    apply sort_keys_sorted_id; [| apply Permutation_refl].
    apply StronglySorted_firstn, StronglySorted_filter, Hsorted.
  - cbn [execute apply_order apply_limit]. rewrite run_select_where.
    rewrite (filter_ext (eval_cond db (int_column_eq id_col anchor))
                        (fun r => message_id r =? anchor))
      by (intros r; simpl; rewrite (int_column_id _ _ Hid); reflexivity).
    rewrite (map_filter_key message_id (fun i => i =? anchor)).
    apply sort_keys_filter.
Qed.

(** Post-processing, on ids, of a fetch made of ids below the anchor,
    ids equal to it and ids above it. *)
Lemma post_process_pieces (below at_anchor above : list Z)
      (num_before num_after anchor fv : Z) :
  (forall x, In x below -> x < anchor) ->
  (forall x, In x at_anchor -> x = anchor) ->
  (forall x, In x above -> anchor < x) ->
  0 <= num_before -> 0 <= num_after ->
  let visible := filter (visible_id fv) in
  let r := post_process_limited_query (fun i => i) (below ++ at_anchor ++ above)
                                      num_before num_after anchor false false fv in
  rows r
  = (if num_before =? 0 then visible below
     else last_n (Z.to_nat num_before) (visible below))
    ++ visible at_anchor
    ++ (if num_after =? 0 then visible above
        else firstn (Z.to_nat num_after) (visible above))
  /\ found_anchor r = (len (visible at_anchor) =? 1)
  /\ found_oldest r = (len (visible below) <? num_before)
  /\ found_newest r = (len (visible above) <? num_after).
Proof.
  intros Hbelow Hat Habove Hnb Hna visible r.
  assert (Hb : filter (fun i => i <? anchor) (visible (below ++ at_anchor ++ above))
               = visible below).
  { unfold visible. rewrite !filter_app.
    rewrite (filter_all (fun i => i <? anchor) (filter _ below)),
      (filter_none (fun i => i <? anchor) (filter _ at_anchor)),
      (filter_none (fun i => i <? anchor) (filter _ above)).
    - rewrite !app_nil_r. reflexivity.
    - intros x Hx. apply filter_In in Hx as [Hx _]. specialize (Habove x Hx).
      apply Z.ltb_ge. lia.
    - intros x Hx. apply filter_In in Hx as [Hx _]. specialize (Hat x Hx).
      apply Z.ltb_ge. lia.
    - intros x Hx. apply filter_In in Hx as [Hx _]. specialize (Hbelow x Hx).
      apply Z.ltb_lt. lia. }
  assert (He : filter (fun i => i =? anchor) (visible (below ++ at_anchor ++ above))
               = visible at_anchor).
  { unfold visible. rewrite !filter_app.
    rewrite (filter_none (fun i => i =? anchor) (filter _ below)),
      (filter_all (fun i => i =? anchor) (filter _ at_anchor)),
      (filter_none (fun i => i =? anchor) (filter _ above)).
    - rewrite !app_nil_r. reflexivity.
    - intros x Hx. apply filter_In in Hx as [Hx _]. specialize (Habove x Hx).
      apply Z.eqb_neq. lia.
    - intros x Hx. apply filter_In in Hx as [Hx _]. specialize (Hat x Hx).
      apply Z.eqb_eq. lia.
    - intros x Hx. apply filter_In in Hx as [Hx _]. specialize (Hbelow x Hx).
      apply Z.eqb_neq. lia. }
  assert (Hg : filter (fun i => i >? anchor) (visible (below ++ at_anchor ++ above))
               = visible above).
  { unfold visible. rewrite !filter_app.
    rewrite (filter_none (fun i => i >? anchor) (filter _ below)),
      (filter_none (fun i => i >? anchor) (filter _ at_anchor)),
      (filter_all (fun i => i >? anchor) (filter _ above)).
    - reflexivity.
    - intros x Hx. apply filter_In in Hx as [Hx _]. specialize (Habove x Hx).
      apply Z.gtb_lt. lia.
    - intros x Hx. apply filter_In in Hx as [Hx _]. specialize (Hat x Hx).
      destruct (Z.gtb_spec x anchor); [lia | reflexivity].
    - intros x Hx. apply filter_In in Hx as [Hx _]. specialize (Hbelow x Hx).
      destruct (Z.gtb_spec x anchor); [lia | reflexivity]. }
  unfold r, post_process_limited_query, partition_rows.
  rewrite visible_rows_of_keys. fold (visible (below ++ at_anchor ++ above)).
  cbv beta. rewrite Hb, He, Hg.
  cbn [rows found_anchor found_oldest found_newest orb].
  destruct (Z.eqb_spec num_before 0) as [-> | Hnb0];
    destruct (Z.eqb_spec num_after 0) as [-> | Hna0]; cbn [negb].
  - repeat split; reflexivity.
  - rewrite py_slice_to_first by lia. split; [reflexivity |]. split; [reflexivity |].
    split; [reflexivity |].
    unfold len. rewrite length_firstn.
    destruct (Z.ltb_spec (Z.of_nat (Nat.min (Z.to_nat num_after)
                                            (List.length (visible above)))) num_after),
      (Z.ltb_spec (Z.of_nat (List.length (visible above))) num_after); try lia; reflexivity.
  - rewrite py_slice_from_last by lia. fold (last_n (Z.to_nat num_before) (visible below)).
    split; [reflexivity |]. split; [reflexivity |]. split; [| reflexivity].
    unfold len. rewrite last_n_length.
    destruct (Z.ltb_spec (Z.of_nat (Nat.min (Z.to_nat num_before)
                                            (List.length (visible below)))) num_before),
      (Z.ltb_spec (Z.of_nat (List.length (visible below))) num_before); try lia; reflexivity.
  - rewrite py_slice_from_last, py_slice_to_first by lia.
    fold (last_n (Z.to_nat num_before) (visible below)).
    split; [reflexivity |]. split; [reflexivity |]. split.
    + unfold len. rewrite last_n_length.
      destruct (Z.ltb_spec (Z.of_nat (Nat.min (Z.to_nat num_before)
                                              (List.length (visible below)))) num_before),
        (Z.ltb_spec (Z.of_nat (List.length (visible below))) num_before); try lia;
        reflexivity.
    + unfold len. rewrite length_firstn.
      destruct (Z.ltb_spec (Z.of_nat (Nat.min (Z.to_nat num_after)
                                              (List.length (visible above)))) num_after),
        (Z.ltb_spec (Z.of_nat (List.length (visible above))) num_after); try lia;
        reflexivity.
Qed.

(* ================================================================== *)
(** ** Properties: the window of a fetch, end to end *)
(* ================================================================== *)

(** The ids a before-query takes below or at the anchor: enough of the
    ids below the anchor, then the anchor when it was taken. *)
Lemma before_piece (ids : list Z) (a b fv : Z) (k n : nat) :
  StronglySorted Z.le ids ->
  a - 1 <= b <= a ->
  let taken := filter (fun i => i <=? b) ids in
  let at_anchor := filter (fun i => i =? a) taken in
  (List.length at_anchor <= k)%nat ->
  (n <= k - List.length at_anchor)%nat ->
  exists below,
    last_n k taken = below ++ at_anchor
    /\ (forall x, In x below -> x < a)
    /\ last_n n (filter (visible_id fv) below) = last_n n (ids_before fv a ids).
Proof.
  intros Hs Hb taken at_anchor Hk Hn.
  assert (Hts : StronglySorted Z.le taken) by (apply StronglySorted_filter, Hs).
  assert (Hsplit : taken = filter (fun i => i <? a) taken ++ at_anchor).
  { rewrite (sorted_split_anchor a taken Hts) at 1. fold at_anchor.
    rewrite (filter_none (fun i => i >? a) taken), app_nil_r; [reflexivity |].
    intros x Hx. apply filter_In in Hx as [_ Hx]. apply Z.leb_le in Hx.
    destruct (Z.gtb_spec x a); [lia | reflexivity]. }
  exists (last_n (k - List.length at_anchor) (filter (fun i => i <? a) taken)).
  split; [| split].
  - rewrite Hsplit at 1. apply last_n_app_short, Hk.
  - intros x Hx. apply In_last_n in Hx. apply filter_In in Hx as [_ Hx].
    apply Z.ltb_lt, Hx.
  - rewrite (last_n_filter_up (visible_id fv) (visible_id_closed fv)) by
      (try apply StronglySorted_filter; assumption).
    f_equal. unfold taken, ids_before. rewrite !filter_filter_and.
    apply filter_ext. intros i.
    destruct (Z.leb_spec i b), (Z.ltb_spec i a); cbn [andb];
      rewrite ?andb_true_r, ?andb_false_r; try reflexivity; lia.
Qed.

(** The ids an after-query takes at or above the anchor: the anchor
    when it was taken, then ids above it. *)
Lemma after_piece (ids : list Z) (a c : Z) (k : nat) :
  StronglySorted Z.le ids ->
  a <= c ->
  let taken := filter (fun i => i >=? c) ids in
  let at_anchor := filter (fun i => i =? a) taken in
  (List.length at_anchor <= k)%nat ->
  firstn k taken
  = at_anchor ++ firstn (k - List.length at_anchor) (filter (fun i => i >? a) taken).
Proof.
  intros Hs Hc taken at_anchor Hk.
  assert (Hts : StronglySorted Z.le taken) by (apply StronglySorted_filter, Hs).
  rewrite (sorted_split_anchor a taken Hts) at 1. fold at_anchor.
  rewrite (filter_none (fun i => i <? a) taken).
  - cbn [app]. rewrite firstn_app, (firstn_all2 at_anchor) by exact Hk. reflexivity.
  - intros x Hx. apply filter_In in Hx as [_ Hx]. apply Z.geb_le in Hx.
    apply Z.ltb_ge. lia.
Qed.

Lemma visible_ids_at (fv a : Z) (ids : list Z) :
  filter (visible_id fv) (filter (fun i => i =? a) ids) = ids_at fv a ids.
Proof.
  unfold ids_at. rewrite filter_filter_and. apply filter_ext. intros i. apply andb_comm.
Qed.

Lemma visible_ids_at_idem (fv a : Z) (ids : list Z) :
  filter (visible_id fv) (ids_at fv a ids) = ids_at fv a ids.
Proof.
  apply filter_all. intros x Hx. apply filter_In in Hx as [_ Hx].
  apply andb_true_iff in Hx. apply Hx.
Qed.

Lemma at_after_taken (fv a : Z) (ids : list Z) :
  0 < a ->
  filter (fun i => i =? a) (filter (fun i => i >=? Z.max a fv) ids) = ids_at fv a ids.
Proof.
  intros Ha. unfold ids_at, visible_id. rewrite filter_filter_and. apply filter_ext.
  intros i.
  destruct (Z.geb_spec i (Z.max a fv)), (Z.eqb_spec i a), (Z.gtb_spec fv 0),
    (Z.geb_spec i fv); cbn [negb andb orb]; try reflexivity; lia.
Qed.

Lemma at_after_skipped (fv a : Z) (ids : list Z) :
  filter (fun i => i =? a) (filter (fun i => i >=? Z.max (a + 1) fv) ids) = [].
Proof.
  apply filter_none. intros x Hx. apply filter_In in Hx as [_ Hx]. apply Z.geb_le in Hx.
  apply Z.eqb_neq. lia.
Qed.

Lemma at_before_taken (a : Z) (ids : list Z) :
  filter (fun i => i =? a) (filter (fun i => i <=? a) ids) = filter (fun i => i =? a) ids.
Proof.
  rewrite filter_filter_and. apply filter_ext. intros i.
  destruct (Z.leb_spec i a), (Z.eqb_spec i a); cbn [andb]; try reflexivity; lia.
Qed.

Lemma at_before_skipped (a : Z) (ids : list Z) :
  filter (fun i => i =? a) (filter (fun i => i <=? a - 1) ids) = [].
Proof.
  apply filter_none. intros x Hx. apply filter_In in Hx as [_ Hx]. apply Z.leb_le in Hx.
  apply Z.eqb_neq. lia.
Qed.

Lemma above_taken (fv a d : Z) (ids : list Z) :
  0 < a -> 0 <= d <= 1 ->
  filter (fun i => i >? a) (filter (fun i => i >=? Z.max (a + d) fv) ids)
  = ids_after fv a ids.
Proof.
  intros Ha Hd. unfold ids_after, visible_id. rewrite filter_filter_and. apply filter_ext.
  intros i.
  destruct (Z.geb_spec i (Z.max (a + d) fv)), (Z.gtb_spec i a), (Z.gtb_spec fv 0),
    (Z.geb_spec i fv); cbn [negb andb orb]; try reflexivity; lia.
Qed.

Lemma visible_firstn_after (fv a : Z) (m : nat) (ids : list Z) :
  filter (visible_id fv) (firstn m (ids_after fv a ids)) = firstn m (ids_after fv a ids).
Proof.
  apply filter_all. intros x Hx. apply In_firstn_all in Hx.
  apply filter_In in Hx as [_ Hx]. apply andb_true_iff in Hx. apply Hx.
Qed.

Lemma anchor_ids_short (a : Z) (ids : list Z) :
  NoDup ids -> (List.length (filter (fun i => Z.eqb i a) ids) <= 1)%nat.
Proof.
  intros Hnd. apply (filter_key_unique (fun i => i) a ids). rewrite map_id. exact Hnd.
Qed.

Lemma last_n_same_short {A} (n : nat) (l1 l2 : list A) (count : Z) :
  count = Z.of_nat n ->
  last_n n l1 = last_n n l2 -> (len l1 <? count) = (len l2 <? count).
Proof.
  intros -> H. apply (f_equal (@List.length A)) in H. rewrite !last_n_length in H.
  unfold len. destruct (Z.ltb_spec (Z.of_nat (List.length l1)) (Z.of_nat n)),
    (Z.ltb_spec (Z.of_nat (List.length l2)) (Z.of_nat n)); try reflexivity; lia.
Qed.

Lemma firstn_short {A} (n m : nat) (l : list A) (count : Z) :
  count = Z.of_nat n -> (n <= m)%nat ->
  firstn n (firstn m l) = firstn n l
  /\ (len (firstn m l) <? count) = (len l <? count).
Proof.
  intros -> Hnm. split.
  - rewrite firstn_firstn. f_equal. lia.
  - unfold len. rewrite length_firstn.
    destruct (Z.ltb_spec (Z.of_nat (Nat.min m (List.length l))) (Z.of_nat n)),
      (Z.ltb_spec (Z.of_nat (List.length l)) (Z.of_nat n)); try reflexivity; lia.
Qed.

(** The window on ids: the four plans of [limit_query_to_range] for an
    anchor between the ends, followed by post-processing. *)
Lemma window_on_ids (ids : list Z) (num_before num_after a : Z) (include_anchor : bool)
      (fv : Z) :
  StronglySorted Z.le ids -> NoDup ids ->
  0 < a -> 0 <= num_before -> 0 <= num_after ->
  let fetched :=
    if (num_before >? 0) && (num_after >? 0) then
      last_n (Z.to_nat num_before) (filter (fun i => i <=? a - 1) ids)
      ++ firstn (Z.to_nat (num_after + 1)) (filter (fun i => i >=? Z.max a fv) ids)
    else if num_before >? 0 then
      last_n (Z.to_nat (num_before + int_of_bool include_anchor))
             (filter (fun i => i <=? a - int_of_bool (negb include_anchor)) ids)
    else if num_after >? 0 then
      firstn (Z.to_nat (num_after + int_of_bool include_anchor))
             (filter (fun i => i >=? Z.max (a + int_of_bool (negb include_anchor)) fv) ids)
    else filter (fun i => i =? a) ids in
  let r := post_process_limited_query (fun i => i) fetched num_before num_after a
                                      false false fv in
  rows r
  = last_n (Z.to_nat num_before) (ids_before fv a ids)
    ++ (if anchor_returned include_anchor num_before num_after
        then ids_at fv a ids else [])
    ++ firstn (Z.to_nat num_after) (ids_after fv a ids)
  /\ found_anchor r
     = anchor_returned include_anchor num_before num_after
       && (len (ids_at fv a ids) =? 1)
  /\ found_oldest r = (len (ids_before fv a ids) <? num_before)
  /\ found_newest r = (len (ids_after fv a ids) <? num_after).
Proof.
  intros Hs Hnd Ha Hnb Hna fetched r.
  pose proof (anchor_ids_short a ids Hnd) as Hone.
  assert (Hat_short : (List.length (ids_at fv a ids) <= 1)%nat).
  { rewrite <- visible_ids_at. eapply Nat.le_trans; [apply filter_length_le | exact Hone]. }
  unfold anchor_returned.
  destruct (Z.gtb_spec num_before 0) as [Hb | Hb];
    destruct (Z.gtb_spec num_after 0) as [Haf | Haf]; cbn [andb] in fetched.
  - (* both sides *)
    destruct (Z.eqb_spec num_before 0) as [E | _]; [lia |].
    destruct (Z.eqb_spec num_after 0) as [E | _]; [lia |].
    rewrite orb_true_r. cbn [orb andb].
    destruct (before_piece ids a (a - 1) fv (Z.to_nat num_before) (Z.to_nat num_before)
                Hs ltac:(lia)) as (below & Hlast & Hbelow & Hvis).
    { rewrite at_before_skipped. cbn. lia. }
    { rewrite at_before_skipped. cbn. lia. }
    rewrite at_before_skipped, app_nil_r in Hlast.
    pose proof (after_piece ids a (Z.max a fv) (Z.to_nat (num_after + 1)) Hs ltac:(lia))
      as Hfirst.
    cbv zeta in Hfirst. rewrite (at_after_taken fv a ids Ha) in Hfirst.
    pose proof (above_taken fv a 0 ids Ha ltac:(lia)) as Habove.
    rewrite Z.add_0_r in Habove. rewrite Habove in Hfirst.
    specialize (Hfirst ltac:(lia)).
    set (m := (Z.to_nat (num_after + 1) - List.length (ids_at fv a ids))%nat) in Hfirst.
    assert (Hfetched : fetched = below ++ ids_at fv a ids ++ firstn m (ids_after fv a ids)).
    { unfold fetched. rewrite Hlast, Hfirst. reflexivity. }
    unfold r. rewrite Hfetched.
    destruct (post_process_pieces below (ids_at fv a ids) (firstn m (ids_after fv a ids))
                num_before num_after a fv Hbelow) as (Hrows & Hanchor & Hold & Hnew);
      try assumption.
    { intros x Hx. apply filter_In in Hx as [_ Hx]. apply andb_true_iff in Hx as [_ Hx].
      apply Z.eqb_eq, Hx. }
    { intros x Hx. apply In_firstn_all in Hx. apply filter_In in Hx as [_ Hx].
      apply andb_true_iff in Hx as [_ Hx]. apply Z.gtb_lt, Hx. }
    cbv zeta in Hrows, Hanchor, Hold, Hnew.
    destruct (Z.eqb_spec num_before 0) as [E | _]; [lia |].
    destruct (Z.eqb_spec num_after 0) as [E | _]; [lia |].
    rewrite visible_ids_at_idem in Hrows, Hanchor.
    rewrite visible_firstn_after in Hrows, Hnew.
    destruct (firstn_short (Z.to_nat num_after) m (ids_after fv a ids) num_after
                ltac:(lia) ltac:(unfold m; lia)) as [Hcut Hlen].
    rewrite Hvis, Hcut in Hrows. rewrite Hlen in Hnew.
    rewrite (last_n_same_short (Z.to_nat num_before) _ _ num_before ltac:(lia) Hvis) in Hold.
    repeat split; assumption.
  - (* before only *)
    assert (Hna0 : num_after = 0) by lia. subst num_after.
    destruct (Z.eqb_spec num_before 0) as [E | _]; [lia |].
    cbn [andb Z.eqb]. rewrite !orb_false_r.
    change (Z.to_nat 0) with 0%nat. cbn [firstn]. rewrite app_nil_r.
    assert (Hpiece : exists below,
               fetched
               = below ++ (if include_anchor then filter (fun i => i =? a) ids else [])
               /\ (forall x, In x below -> x < a)
               /\ last_n (Z.to_nat num_before) (filter (visible_id fv) below)
                  = last_n (Z.to_nat num_before) (ids_before fv a ids)).
    { unfold fetched. destruct include_anchor; cbn [negb int_of_bool].
      - destruct (before_piece ids a (a - 0) fv (Z.to_nat (num_before + 1))
                    (Z.to_nat num_before) Hs ltac:(lia))
          as (below & Hlast & Hbelow & Hvis).
        { rewrite Z.sub_0_r, at_before_taken. lia. }
        { rewrite Z.sub_0_r, at_before_taken. lia. }
        rewrite Z.sub_0_r, at_before_taken in Hlast. rewrite Z.sub_0_r.
        exists below. split; [exact Hlast |]. split; assumption.
      - destruct (before_piece ids a (a - 1) fv (Z.to_nat (num_before + 0))
                    (Z.to_nat num_before) Hs ltac:(lia))
          as (below & Hlast & Hbelow & Hvis).
        { rewrite at_before_skipped. cbn. lia. }
        { rewrite at_before_skipped. cbn. lia. }
        rewrite at_before_skipped in Hlast.
        exists below. split; [exact Hlast |]. split; assumption. }
    destruct Hpiece as (below & Hfetched & Hbelow & Hvis).
    set (taken := if include_anchor then filter (fun i => i =? a) ids else []) in *.
    unfold r. rewrite Hfetched.
    assert (Hpieces := post_process_pieces below taken [] num_before 0 a fv Hbelow).
    cbv zeta in Hpieces. cbn [Z.eqb filter] in Hpieces. rewrite !app_nil_r in Hpieces.
    destruct Hpieces as (Hrows & Hanchor & Hold & Hnew); try assumption; try lia.
    { intros x Hx. unfold taken in Hx. destruct include_anchor; [| destruct Hx].
      apply filter_In in Hx as [_ Hx]. apply Z.eqb_eq, Hx. }
    { intros x []. }
    destruct (Z.eqb_spec num_before 0) as [E | _]; [lia |].
    assert (Htaken : filter (visible_id fv) taken
                     = if include_anchor then ids_at fv a ids else []).
    { unfold taken. destruct include_anchor; [apply visible_ids_at | reflexivity]. }
    rewrite Htaken in Hrows, Hanchor. rewrite Hvis in Hrows.
    rewrite (last_n_same_short (Z.to_nat num_before) _ _ num_before ltac:(lia) Hvis) in Hold.
    split; [exact Hrows |]. split; [| split; [exact Hold |]].
    + rewrite Hanchor. destruct include_anchor; reflexivity.
    + rewrite Hnew. cbn. unfold len.
      destruct (Z.ltb_spec (Z.of_nat (List.length (ids_after fv a ids))) 0);
        [lia | reflexivity].
  - (* after only *)
    assert (Hnb0 : num_before = 0) by lia. subst num_before.
    destruct (Z.eqb_spec num_after 0) as [E | _]; [lia |].
    cbn [andb Z.eqb Z.gtb Z.compare]. rewrite !orb_false_r.
    change (Z.to_nat 0) with 0%nat. rewrite last_n_zero. cbn [app].
    assert (Hpiece : exists m,
               fetched
               = (if include_anchor then ids_at fv a ids else [])
                 ++ firstn m (ids_after fv a ids)
               /\ (Z.to_nat num_after <= m)%nat).
    { unfold fetched. destruct include_anchor; cbn [negb int_of_bool].
      - pose proof (after_piece ids a (Z.max (a + 0) fv) (Z.to_nat (num_after + 1)) Hs
                      ltac:(lia)) as Hfirst.
        cbv zeta in Hfirst. rewrite (above_taken fv a 0 ids Ha ltac:(lia)) in Hfirst.
        rewrite Z.add_0_r in Hfirst. rewrite (at_after_taken fv a ids Ha) in Hfirst.
        specialize (Hfirst ltac:(lia)). rewrite Z.add_0_r.
        eexists. split; [exact Hfirst | lia].
      - pose proof (after_piece ids a (Z.max (a + 1) fv) (Z.to_nat (num_after + 0)) Hs
                      ltac:(lia)) as Hfirst.
        cbv zeta in Hfirst. rewrite (above_taken fv a 1 ids Ha ltac:(lia)) in Hfirst.
        rewrite at_after_skipped in Hfirst. specialize (Hfirst ltac:(cbn; lia)).
        cbn [app List.length] in Hfirst. eexists. split; [exact Hfirst | lia]. }
    destruct Hpiece as (m & Hfetched & Hm).
    set (taken := if include_anchor then ids_at fv a ids else []) in *.
    unfold r. rewrite Hfetched.
    change (taken ++ firstn m (ids_after fv a ids))
      with ([] ++ taken ++ firstn m (ids_after fv a ids)).
    destruct (post_process_pieces [] taken (firstn m (ids_after fv a ids)) 0 num_after a fv)
      as (Hrows & Hanchor & Hold & Hnew); try assumption; try lia.
    { intros x []. }
    { intros x Hx. unfold taken in Hx. destruct include_anchor; [| destruct Hx].
      apply filter_In in Hx as [_ Hx]. apply andb_true_iff in Hx as [_ Hx].
      apply Z.eqb_eq, Hx. }
    { intros x Hx. apply In_firstn_all in Hx. apply filter_In in Hx as [_ Hx].
      apply andb_true_iff in Hx as [_ Hx]. apply Z.gtb_lt, Hx. }
    cbv zeta in Hrows, Hanchor, Hold, Hnew.
    destruct (Z.eqb_spec num_after 0) as [E | _]; [lia |].
    cbn [Z.eqb filter app] in Hrows.
    assert (Htaken : filter (visible_id fv) taken = taken).
    { unfold taken. destruct include_anchor; [apply visible_ids_at_idem | reflexivity]. }
    rewrite Htaken in Hrows, Hanchor. rewrite visible_firstn_after in Hrows, Hnew.
    destruct (firstn_short (Z.to_nat num_after) m (ids_after fv a ids) num_after
                ltac:(lia) Hm) as [Hcut Hlen].
    rewrite Hcut in Hrows. rewrite Hlen in Hnew.
    split; [exact Hrows |]. split; [| split; [| exact Hnew]].
    + rewrite Hanchor. unfold taken. destruct include_anchor; reflexivity.
    + rewrite Hold. cbn. unfold len.
      destruct (Z.ltb_spec (Z.of_nat (List.length (ids_before fv a ids))) 0);
        [lia | reflexivity].
  - (* neither side *)
    assert (Hnb0 : num_before = 0) by lia. assert (Hna0 : num_after = 0) by lia.
    subst num_before num_after. cbn [Z.eqb andb]. rewrite orb_true_r. cbn [andb].
    change (Z.to_nat 0) with 0%nat. rewrite last_n_zero. cbn [firstn app].
    rewrite app_nil_r.
    unfold r, fetched.
    assert (Hpieces := post_process_pieces [] (filter (fun i => i =? a) ids) [] 0 0 a fv).
    cbv zeta in Hpieces. cbn [Z.eqb filter app] in Hpieces.
    rewrite !app_nil_r in Hpieces.
    destruct Hpieces as (Hrows & Hanchor & Hold & Hnew); try lia.
    { intros x []. }
    { intros x Hx. apply filter_In in Hx as [_ Hx]. apply Z.eqb_eq, Hx. }
    { intros x []. }
    rewrite visible_ids_at in Hrows, Hanchor.
    split; [exact Hrows |]. split; [exact Hanchor |]. split.
    + rewrite Hold. cbn. unfold len.
      destruct (Z.ltb_spec (Z.of_nat (List.length (ids_before fv a ids))) 0);
        [lia | reflexivity].
    + rewrite Hnew. cbn. unfold len.
      destruct (Z.ltb_spec (Z.of_nat (List.length (ids_after fv a ids))) 0);
        [lia | reflexivity].
Qed.

(** X16.  The window of a fetch, end to end.  Take a query whose rows
    have distinct message ids, an anchor strictly between [0] and
    [LARGER_THAN_MAX_MESSAGE_ID] and non-negative counts.  Planning the
    window, executing it in ascending order of id and post-processing
    it returns exactly: the last [num_before] of the visible ids of the
    query below the anchor, then the anchor's id if the query has it
    and it is visible, then the first [num_after] of the visible ids
    above the anchor, the visible ids being all ids without a positive
    floor and the ids at or above it otherwise.  The anchor row is
    returned when [include_anchor] is set, and also, whatever
    [include_anchor] says, when both counts are positive or both are
    zero.  [found_oldest] ([found_newest]) holds exactly when the query
    has fewer than [num_before] ([num_after]) visible ids below (above)
    the anchor, and [found_anchor] exactly when the anchor row is
    returned. *)
Theorem fetch_window_exact (db : Database) (query : Select) (id_col : string)
        (num_before num_after anchor : Z) (include_anchor : bool) (fv : Z) :
  is_id_column id_col ->
  NoDup (map message_id (run_select db query)) ->
  0 < anchor < LARGER_THAN_MAX_MESSAGE_ID ->
  0 <= num_before -> 0 <= num_after ->
  let ids := narrow_ids db query in
  let result := fetch_window db query id_col num_before num_after anchor
                             include_anchor fv in
  map message_id (rows result)
  = last_n (Z.to_nat num_before) (ids_before fv anchor ids)
    ++ (if anchor_returned include_anchor num_before num_after
        then ids_at fv anchor ids else [])
    ++ firstn (Z.to_nat num_after) (ids_after fv anchor ids)
  /\ found_anchor result
     = anchor_returned include_anchor num_before num_after
       && (len (ids_at fv anchor ids) =? 1)
  /\ found_oldest result = (len (ids_before fv anchor ids) <? num_before)
  /\ found_newest result = (len (ids_after fv anchor ids) <? num_after).
Proof.
  intros Hid Hnd Hanchor Hnb Hna ids result.
  assert (Hleft : (anchor =? 0) = false) by (apply Z.eqb_neq; lia).
  assert (Hright : fetch_anchored_to_right anchor = false).
  { unfold fetch_anchored_to_right. destruct (Z.geb_spec anchor LARGER_THAN_MAX_MESSAGE_ID);
      [lia | reflexivity]. }
  unfold result, fetch_window. cbv zeta. rewrite Hleft, Hright.
  match goal with
  | |- context [post_process_limited_query message_id ?fetched _ _ _ _ _ _] =>
      destruct (post_process_keys message_id fetched num_before num_after anchor
                  false false fv) as (Hrows & Hfa & Hfo & Hfn)
  end.
  cbv zeta in Hrows, Hfa, Hfo, Hfn. rewrite Hrows, Hfa, Hfo, Hfn.
  rewrite (window_fetched_ids db query id_col num_before num_after anchor include_anchor
             fv Hid).
  apply window_on_ids; try assumption; try lia.
  - apply (sort_keys_sorted Asc).
  - eapply Permutation_NoDup; [apply Permutation_sym, sort_keys_perm | exact Hnd].
Qed.

(* ================================================================== *)
(** ** Properties: the order of the terms of a narrow *)
(* ================================================================== *)

Lemma forallb_perm {A} (p : A -> bool) (l l' : list A) :
  Permutation l l' -> forallb p l = forallb p l'.
Proof.
  induction 1 as [| x l l' _ IH | x y l | l l' l'' _ IH1 _ IH2]; simpl.
  - reflexivity.
  - rewrite IH. reflexivity.
  - destruct (p x), (p y); reflexivity.
  - rewrite IH1. exact IH2.
Qed.

Lemma same_clauses_refl (q : Select) : same_clauses q q.
Proof. split; [reflexivity | apply Permutation_refl]. Qed.

Lemma same_clauses_trans (q1 q2 q3 : Select) :
  same_clauses q1 q2 -> same_clauses q2 q3 -> same_clauses q1 q3.
Proof.
  intros [Hf1 Hp1] [Hf2 Hp2]. split; [congruence | eapply perm_trans; eassumption].
Qed.

(** Queries with the same clauses find the same rows, in the same
    order. *)
Lemma run_select_same_clauses (db : Database) (q q' : Select) :
  same_clauses q q' -> run_select db q = run_select db q'.
Proof.
  intros [Hfrom Hperm]. unfold run_select. rewrite Hfrom.
  apply filter_ext. intros r. apply forallb_perm, Hperm.
Qed.

(** What the search handler appends does not depend on the query. *)
Lemma by_search_where (env : Collaborators) (q : Select) (operand : Operand)
      (mn : ConditionTransform) (st st0 st' : BuilderState) (q' : Select) :
  by_search env q operand mn st = Ok (q', st') ->
  from_rows q' = from_rows q
  /\ whereclause q'
     = whereclause q
       ++ match by_search env empty_select operand mn st0 with
          | Ok (query, _) => whereclause query
          | Err _ => []
          end.
Proof.
  unfold by_search, ret, raise. destruct operand as [s | n | l]; try discriminate.
  destruct (USING_PGROONGA env); intros H; injection H as <- <-.
  - split; reflexivity.
  - unfold _by_search_tsearch. cbn [where_ from_rows whereclause].
    pose proof (extends_tsearch_loop env mn (re_findall_terms s)
                  (add_columns q ["content_matches"; "topic_matches"])) as (Hfrom & _ & _).
    split; [exact Hfrom |].
    rewrite (whereclause_tsearch_loop env mn _ (add_columns q _)).
    rewrite (whereclause_tsearch_loop env mn _ (add_columns empty_select _)).
    cbn [add_columns whereclause empty_select app]. rewrite app_assoc. reflexivity.
Qed.

Ltac finish_where :=
  cbn [is_channel_narrow is_dm_narrow is_not_ negb orb andb] in *;
  rewrite ?orb_false_r, ?orb_true_r, ?andb_false_r, ?andb_true_r in *;
  use_bools; cbn [is_channel_narrow is_dm_narrow is_not_ negb orb andb str_in existsb] in *;
  rewrite ?orb_false_r, ?orb_true_r, ?andb_false_r, ?andb_true_r in *;
  solve [ intros Hrun; try discriminate Hrun; injection Hrun as <- <-;
          cbn [where_ from_rows whereclause empty_select app];
          rewrite ?app_nil_r; split; reflexivity ].

(** A term's handler appends [term_where] to whatever query it is
    given, over the same FROM relation. *)
Lemma add_term_where (env : Collaborators) (self : NarrowBuilder)
      (q : Select) (t : NarrowParameter) (st : BuilderState)
      (q' : Select) (st' : BuilderState) :
  add_term env self q t st = Ok (q', st') ->
  from_rows q' = from_rows q
  /\ whereclause q' = whereclause q ++ term_where env self t.
Proof.
  unfold term_where, add_term.
  destruct (lookup (operator t) by_method_map) as [m |]; [| discriminate].
  destruct st as [ch dm], t as [op opnd neg]. cbn [negated operand operator] in *.
  destruct m; cbn [call_method]; try apply by_search_where.
  all: unfold by_has, by_in, by_is, by_channel, by_channels, by_topic, by_sender, by_near,
    by_id, by_dm, by_dm_including, by_group_pm_with, by_dm_except, by_dm_recipient,
    assert_user, assert_,
    check_not_both_channel_and_dm_narrow, bind, raise, ret, is_dm_operand, operand_eq_str,
    mutual_exclusion_error.
  all: crunch.
  all: finish_where.
Qed.

(** A term that compiled compiles from any query and any markers the
    check lets through, and advances the markers in the same way. *)
Lemma add_term_anywhere (env : Collaborators) (self : NarrowBuilder)
      (q : Select) (t : NarrowParameter) (st : BuilderState)
      (q' : Select) (st' : BuilderState) (q2 : Select) (st2 : BuilderState) :
  add_term env self q t st = Ok (q', st') ->
  (sets_marker t = true ->
   is_channel_narrow (mark st2 t) && is_dm_narrow (mark st2 t) = false) ->
  exists q2', add_term env self q2 t st2 = Ok (q2', mark st2 t).
Proof.
  intros Hrun Hclear. pose proof (add_term_transfer env self q t st q' st' Hrun q2 st2) as H.
  destruct (sets_marker t); cbn [andb] in H; [| exact H].
  rewrite (Hclear eq_refl) in H. exact H.
Qed.

Lemma add_term_marks (env : Collaborators) (self : NarrowBuilder)
      (q : Select) (t : NarrowParameter) (st : BuilderState)
      (q' : Select) (st' : BuilderState) :
  add_term env self q t st = Ok (q', st') ->
  st' = mark st t
  /\ (sets_marker t = true ->
      is_channel_narrow (mark st t) && is_dm_narrow (mark st t) = false).
Proof.
  intros Hrun. pose proof (add_term_outcome env self q t st) as H.
  unfold add_term_post in H. rewrite Hrun in H. destruct H as (_ & -> & Hnb).
  split; [reflexivity | exact Hnb].
Qed.

Lemma same_clauses_step (q q2 qa q2a : Select) (conds : list Cond) :
  same_clauses q q2 ->
  from_rows qa = from_rows q -> whereclause qa = whereclause q ++ conds ->
  from_rows q2a = from_rows q2 -> whereclause q2a = whereclause q2 ++ conds ->
  same_clauses qa q2a.
Proof.
  intros [Hf Hp] Hfa Hwa Hf2 Hw2. split; [congruence |].
  rewrite Hwa, Hw2. apply Permutation_app_tail, Hp.
Qed.

(** One term from two queries with the same clauses. *)
Lemma add_term_same_clauses (env : Collaborators) (self : NarrowBuilder)
      (q q2 : Select) (t : NarrowParameter) (st : BuilderState)
      (qa : Select) (sa : BuilderState) :
  add_term env self q t st = Ok (qa, sa) -> same_clauses q q2 ->
  exists q2a, add_term env self q2 t st = Ok (q2a, sa) /\ same_clauses qa q2a.
Proof.
  intros Hrun Hsame.
  destruct (add_term_marks env self q t st qa sa Hrun) as [-> Hclear].
  destruct (add_term_anywhere env self q t st qa _ q2 st Hrun Hclear) as [q2a Hrun2].
  exists q2a. split; [exact Hrun2 |].
  destruct (add_term_where env self q t st qa _ Hrun) as [Hf Hw].
  destruct (add_term_where env self q2 t st q2a _ Hrun2) as [Hf2 Hw2].
  eapply same_clauses_step; eassumption.
Qed.

Lemma mark_comm (st : BuilderState) (x y : NarrowParameter) :
  mark (mark st x) y = mark (mark st y) x.
Proof.
  unfold mark. cbn [is_channel_narrow is_dm_narrow]. f_equal.
  - rewrite <- !orb_assoc. f_equal. apply orb_comm.
  - rewrite <- !orb_assoc. f_equal. apply orb_comm.
Qed.

(** Two adjacent terms in the other order. *)
Lemma add_term_swap (env : Collaborators) (self : NarrowBuilder)
      (q q2 : Select) (x y : NarrowParameter) (st : BuilderState)
      (qa qb : Select) (sa sb : BuilderState) :
  add_term env self q y st = Ok (qa, sa) ->
  add_term env self qa x sa = Ok (qb, sb) ->
  same_clauses q q2 ->
  exists q2a s2a q2b,
    add_term env self q2 x st = Ok (q2a, s2a)
    /\ add_term env self q2a y s2a = Ok (q2b, sb)
    /\ same_clauses qb q2b.
Proof.
  intros Hy Hx Hsame.
  destruct (add_term_marks env self q y st qa sa Hy) as [-> Hcy].
  destruct (add_term_marks env self qa x _ qb sb Hx) as [-> Hcx].
  assert (Hx_clear : sets_marker x = true ->
                     is_channel_narrow (mark st x) && is_dm_narrow (mark st x) = false).
  { intros Hm. specialize (Hcx Hm). revert Hcx. unfold mark.
    cbn [is_channel_narrow is_dm_narrow].
    destruct (is_channel_narrow st), (is_dm_narrow st), (sets_channel_marker x),
      (sets_dm_marker x), (sets_channel_marker y), (sets_dm_marker y);
      cbn; congruence. }
  destruct (add_term_anywhere env self qa x _ qb _ q2 st Hx Hx_clear) as [q2a Hx2].
  assert (Hy_clear : sets_marker y = true ->
                     is_channel_narrow (mark (mark st x) y)
                     && is_dm_narrow (mark (mark st x) y) = false).
  { intros Hm. specialize (Hcy Hm). rewrite mark_comm.
    destruct (sets_marker x) eqn:Hmx; [apply Hcx; reflexivity |].
    unfold sets_marker in Hmx. apply orb_false_iff in Hmx as [Hc Hd].
    rewrite (mark_unmarked _ x Hc Hd). exact Hcy. }
  destruct (add_term_anywhere env self q y st qa _ q2a (mark st x) Hy Hy_clear)
    as [q2b Hy2].
  exists q2a, (mark st x), q2b. split; [exact Hx2 |]. split.
  - rewrite Hy2, mark_comm. reflexivity.
  - destruct Hsame as [Hf Hp].
    destruct (add_term_where env self q y st qa _ Hy) as [Hfa Hwa].
    destruct (add_term_where env self qa x _ qb _ Hx) as [Hfb Hwb].
    destruct (add_term_where env self q2 x st q2a _ Hx2) as [Hf2a Hw2a].
    destruct (add_term_where env self q2a y _ q2b _ Hy2) as [Hf2b Hw2b].
    split; [congruence |].
    rewrite Hwb, Hwa, Hw2b, Hw2a, <- !app_assoc.
    apply Permutation_app; [exact Hp | apply Permutation_app_comm].
Qed.

(** The loop over terms other than [search] from two queries with the
    same clauses. *)
Lemma add_terms_loop_same_clauses (env : Collaborators) (self : NarrowBuilder)
      (narrow : list NarrowParameter) :
  forall q q2 ops st q1 ops1 st1,
    same_clauses q q2 ->
    add_terms_loop env self narrow q ops st = Ok (q1, ops1, st1) ->
    exists q3, add_terms_loop env self narrow q2 ops st = Ok (q3, ops1, st1)
               /\ same_clauses q1 q3.
Proof.
  induction narrow as [| t narrow IH]; intros q q2 ops st q1 ops1 st1 Hsame Hrun.
  - cbn [add_terms_loop] in *. unfold ret in *. injection Hrun as <- <- <-.
    exists q2. split; [reflexivity | exact Hsame].
  - cbn [add_terms_loop] in *. destruct (String.eqb (operator t) "search").
    + eapply IH; eassumption.
    + unfold bind in *.
      destruct (add_term env self q t st) as [[qa sa] | e] eqn:Hterm; [| discriminate Hrun].
      destruct (add_term_same_clauses env self q q2 t st qa sa Hterm Hsame)
        as (q2a & Hterm2 & Hsame2).
      rewrite Hterm2. eapply IH; eassumption.
Qed.

(** The loop over the same terms other than [search] in another
    order. *)
Lemma add_terms_loop_perm (env : Collaborators) (self : NarrowBuilder)
      (n1 n2 : list NarrowParameter) :
  Permutation n1 n2 ->
  (forall t, In t n1 -> is_search_term t = false) ->
  forall q q2 ops st q1 ops1 st1,
    same_clauses q q2 ->
    add_terms_loop env self n1 q ops st = Ok (q1, ops1, st1) ->
    exists q3, add_terms_loop env self n2 q2 ops st = Ok (q3, ops1, st1)
               /\ same_clauses q1 q3.
Proof.
  induction 1 as [| x l l' Hperm IH | x y l | l l' l'' Hp1 IH1 Hp2 IH2];
    intros Hplain q q2 ops st q1 ops1 st1 Hsame Hrun.
  - eapply add_terms_loop_same_clauses; eassumption.
  - cbn [add_terms_loop] in *.
    assert (Hx : String.eqb (operator x) "search" = false)
      by (apply (Hplain x); left; reflexivity).
    rewrite Hx in *. unfold bind in *.
    destruct (add_term env self q x st) as [[qa sa] | e] eqn:Hterm; [| discriminate Hrun].
    destruct (add_term_same_clauses env self q q2 x st qa sa Hterm Hsame)
      as (q2a & Hterm2 & Hsame2).
    rewrite Hterm2. eapply IH; try eassumption.
    intros t Ht. apply Hplain. right. exact Ht.
  - cbn [add_terms_loop] in *.
    assert (Hx : String.eqb (operator x) "search" = false)
      by (apply (Hplain x); right; left; reflexivity).
    assert (Hy : String.eqb (operator y) "search" = false)
      by (apply (Hplain y); left; reflexivity).
    rewrite Hx, Hy in *. unfold bind in *.
    destruct (add_term env self q y st) as [[qa sa] | e] eqn:Hty; [| discriminate Hrun].
    destruct (add_term env self qa x sa) as [[qb sb] | e] eqn:Htx; [| discriminate Hrun].
    destruct (add_term_swap env self q q2 x y st qa qb sa sb Hty Htx Hsame)
      as (q2a & s2a & q2b & Hx2 & Hy2 & Hsame2).
    rewrite Hx2, Hy2. eapply add_terms_loop_same_clauses; eassumption.
  - destruct (IH1 Hplain q q ops st q1 ops1 st1 (same_clauses_refl q) Hrun)
      as (qm & Hrunm & Hsamem).
    assert (Hplain' : forall t, In t l' -> is_search_term t = false).
    { intros t Ht. apply Hplain. eapply Permutation_in; [apply Permutation_sym, Hp1 | exact Ht]. }
    destruct (IH2 Hplain' q q2 ops st qm ops1 st1 Hsame Hrunm) as (q3 & Hrun3 & Hsame3).
    exists q3. split; [exact Hrun3 |]. eapply same_clauses_trans; eassumption.
Qed.

(** The part after the loop from two queries with the same clauses. *)
Lemma search_phase_same_clauses (env : Collaborators) (self : NarrowBuilder)
      (q q2 : Select) (ops : list Operand) (st : BuilderState)
      (q1 : Select) (searching : bool) (st1 : BuilderState) :
  same_clauses q q2 ->
  search_phase env self q ops st = Ok (q1, searching, st1) ->
  exists q3, search_phase env self q2 ops st = Ok (q3, searching, st1)
             /\ same_clauses q1 q3.
Proof.
  intros Hsame. unfold search_phase. destruct ops as [| o ops].
  - unfold ret. intros H. injection H as <- <- <-.
    exists q2. split; [reflexivity | exact Hsame].
  - destruct (strings_of_operands (o :: ops)) as [strs |]; [| discriminate].
    unfold bind, ret.
    destruct (add_term_search env self
                (add_columns q ["escaped_topic_name"; "rendered_content"])
                (join " " strs) st) as (qa & Hrun & Hfa & Hwa).
    destruct (add_term_search env self
                (add_columns q2 ["escaped_topic_name"; "rendered_content"])
                (join " " strs) st) as (q2a & Hrun2 & Hf2a & Hw2a).
    rewrite Hrun, Hrun2. intros H. injection H as <- <- <-.
    exists q2a. split; [reflexivity |].
    eapply same_clauses_step; [exact Hsame | exact Hfa | exact Hwa | exact Hf2a | exact Hw2a].
Qed.

(** X17.  The order of the terms of a narrow does not matter.  Take two
    narrows with the same terms in any two orders, their [search]
    operands in the same order.  If [add_narrow_conditions] compiles
    the first, it compiles the second, with the same [is_search] and
    direct-message flags, into a query over the same FROM relation
    whose WHERE clauses are those of the first up to order: on every
    database the two queries find the same rows.  (By symmetry, if one
    order raises, so does every other; which error is raised may
    depend on the order.) *)
Theorem add_narrow_conditions_any_order (env : Collaborators)
        (user : option UserProfile) (col : string) (q : Select) (web : bool)
        (realm : Realm) (n1 n2 : list NarrowParameter)
        (q1 : Select) (searching dm : bool) :
  Permutation n1 n2 ->
  search_operands_of n1 = search_operands_of n2 ->
  add_narrow_conditions env user col q (Some n1) web realm = Ok (q1, searching, dm) ->
  exists q2,
    add_narrow_conditions env user col q (Some n2) web realm = Ok (q2, searching, dm)
    /\ same_clauses q1 q2
    /\ forall db, run_select db q2 = run_select db q1.
Proof.
  intros Hperm Hops. rewrite !add_narrow_conditions_unfold. cbv zeta.
  set (self := mkNarrowBuilder user col realm web).
  rewrite (add_terms_loop_split env self n1), (add_terms_loop_split env self n2).
  rewrite <- Hops. cbn [app].
  set (plain := fun t => negb (is_search_term t)).
  destruct (add_terms_loop env self (filter plain n1) q [] (mkBuilderState false false))
    as [[[qa opsa] sa] | e] eqn:Hloop; [| discriminate].
  destruct (add_terms_loop_perm env self (filter plain n1) (filter plain n2)
              (filter_perm plain n1 n2 Hperm)
              ltac:(intros t Ht; apply filter_In in Ht as [_ Ht];
                    apply negb_true_iff in Ht; exact Ht)
              q q [] (mkBuilderState false false) qa opsa sa
              (same_clauses_refl q) Hloop) as (q2a & Hloop2 & Hsame).
  rewrite Hloop2.
  destruct (search_phase env self qa (search_operands_of n1) sa)
    as [[[qb sb] stb] | e] eqn:Hphase; [| discriminate].
  destruct (search_phase_same_clauses env self qa q2a _ sa qb sb stb Hsame Hphase)
    as (q2b & Hphase2 & Hsame2).
  rewrite Hphase2. intros H. injection H as <- <- <-.
  exists q2b. split; [reflexivity |]. split; [exact Hsame2 |].
  intros db. symmetry. apply run_select_same_clauses, Hsame2.
Qed.

(* ================================================================== *)
(** ** Properties: escaping for PostgreSQL regular expressions *)
(* ================================================================== *)

Lemma alnum_table :
  forallb (fun n => Bool.eqb (is_alnum (Z.of_nat n)) (in_alnum_ranges (Z.of_nat n)))
          (seq 0 128) = true.
Proof. vm_compute. reflexivity. Qed.

Lemma alnum_below_128 (c : Z) : is_alnum c = true -> 0 <= c < 128.
Proof.
  unfold is_alnum. intros H. apply existsb_exists in H as (x & Hx & Hc).
  apply Z.eqb_eq in Hc. subst x.
  assert (Hall : forallb (fun x => (0 <=? x) && (x <? 128)) _alphanum = true)
    by (vm_compute; reflexivity).
  rewrite forallb_forall in Hall. specialize (Hall c Hx). lia.
Qed.

Lemma alnum_ranges (c : Z) :
  is_alnum c = true <-> 48 <= c <= 57 \/ 65 <= c <= 90 \/ 97 <= c <= 122.
Proof.
  assert (Htable : 0 <= c < 128 -> is_alnum c = in_alnum_ranges c).
  { intros Hc. pose proof alnum_table as H. rewrite forallb_forall in H.
    specialize (H (Z.to_nat c)). rewrite Z2Nat.id in H by lia.
    apply eqb_prop, H, in_seq. lia. }
  split.
  - intros H. pose proof (alnum_below_128 c H) as Hc. rewrite (Htable Hc) in H.
    unfold in_alnum_ranges in H. lia.
  - intros H. rewrite Htable by lia. unfold in_alnum_ranges. lia.
Qed.

Lemma hex_digit_alnum (d : Z) : 0 <= d < 16 -> is_alnum (hex_digit d) = true.
Proof.
  intros H. apply alnum_ranges. unfold hex_digit. destruct (Z.ltb_spec d 10); lia.
Qed.

Lemma hex_value_digit (d : Z) : 0 <= d < 16 -> hex_value (hex_digit d) = d.
Proof.
  intros H. unfold hex_value, hex_digit.
  destruct (Z.ltb_spec d 10); [destruct (Z.ltb_spec (48 + d) 58) | destruct (Z.ltb_spec (87 + d) 58)];
    lia.
Qed.

(** With enough fuel a number of four digits is written with its four
    digits. *)
Lemma hex_fuel_four (fuel : nat) (n : Z) :
  4096 <= n < 65536 ->
  hex_fuel (4 + fuel) n
  = [hex_digit (n / 16 / 16 / 16); hex_digit (n / 16 / 16 mod 16);
     hex_digit (n / 16 mod 16); hex_digit (n mod 16)].
Proof.
  intros H. cbn [hex_fuel Nat.add].
  assert (H1 : 256 <= n / 16 < 4096) by (split; [apply Z.div_le_lower_bound | apply Z.div_lt_upper_bound]; lia).
  assert (H2 : 16 <= n / 16 / 16 < 256) by (split; [apply Z.div_le_lower_bound | apply Z.div_lt_upper_bound]; lia).
  assert (H3 : 1 <= n / 16 / 16 / 16 < 16) by (split; [apply Z.div_le_lower_bound | apply Z.div_lt_upper_bound]; lia).
  destruct (Z.ltb_spec n 16); [lia |].
  destruct (Z.ltb_spec (n / 16) 16); [lia |].
  destruct (Z.ltb_spec (n / 16 / 16) 16); [lia |].
  destruct (Z.ltb_spec (n / 16 / 16 / 16) 16); [| lia].
  reflexivity.
Qed.

(** The field of four digits of a character outside ASCII and inside
    the Basic Multilingual Plane. *)
Lemma format_0_4x_bmp (n : Z) :
  128 <= n < 65536 ->
  format_0_4x n
  = [hex_digit (n / 16 / 16 / 16); hex_digit (n / 16 / 16 mod 16);
     hex_digit (n / 16 mod 16); hex_digit (n mod 16)].
Proof.
  intros H. unfold format_0_4x, format_x. cbv zeta.
  destruct (Z.lt_ge_cases n 4096) as [Hsmall | Hbig].
  - assert (H1 : 8 <= n / 16 < 256) by (split; [apply Z.div_le_lower_bound | apply Z.div_lt_upper_bound]; lia).
    assert (H2 : 0 <= n / 16 / 16 < 16) by (split; [apply Z.div_le_lower_bound | apply Z.div_lt_upper_bound]; lia).
    assert (H3 : n / 16 / 16 / 16 = 0) by (apply Z.div_small; lia).
    rewrite H3. cbn [hex_fuel].
    destruct (Z.ltb_spec n 16); [lia |].
    destruct (Z.ltb_spec (n / 16) 16) as [Hd | Hd].
    + assert (H4 : n / 16 / 16 = 0) by (apply Z.div_small; lia).
      rewrite H4. rewrite (Z.mod_small (n / 16) 16) by lia. reflexivity.
    + destruct (Z.ltb_spec (n / 16 / 16) 16); [| lia].
      rewrite (Z.mod_small (n / 16 / 16) 16) by lia. reflexivity.
  - change (hex_fuel 6 n) with (hex_fuel (4 + 2) n).
    rewrite (hex_fuel_four 2 n) by lia. reflexivity.
Qed.

Lemma four_digits_value (n : Z) :
  0 <= n < 65536 ->
  ((n / 16 / 16 / 16 * 16 + n / 16 / 16 mod 16) * 16 + n / 16 mod 16) * 16 + n mod 16 = n.
Proof.
  intros H.
  pose proof (Z.div_mod n 16 ltac:(lia)).
  pose proof (Z.div_mod (n / 16) 16 ltac:(lia)).
  pose proof (Z.div_mod (n / 16 / 16) 16 ltac:(lia)).
  lia.
Qed.

Lemma hex_fuel_ascii (fuel : nat) (n : Z) :
  0 <= n -> Forall (fun c => 0 <= c < 128) (hex_fuel fuel n).
Proof.
  revert n. induction fuel as [| fuel IH]; intros n Hn; cbn [hex_fuel]; [constructor |].
  destruct (Z.ltb_spec n 16).
  - constructor; [| constructor]. unfold hex_digit. destruct (Z.ltb_spec n 10); lia.
  - apply Forall_app. split; [apply IH, Z.div_pos; lia |].
    constructor; [| constructor].
    pose proof (Z.mod_pos_bound n 16 ltac:(lia)).
    unfold hex_digit. destruct (Z.ltb_spec (n mod 16) 10); lia.
Qed.

Lemma escape_char_ascii (c : Z) : 0 <= c -> Forall (fun x => 0 <= x < 128) (escape_char c).
Proof.
  intros Hc. unfold escape_char.
  destruct (is_alnum c) eqn:Ha; cbn [negb].
  - apply alnum_ranges in Ha. constructor; [lia | constructor].
  - destruct (Z.geb_spec c 128).
    + cbn [app]. constructor; [lia |]. constructor; [lia |].
      unfold format_0_4x, format_x. cbv zeta. apply Forall_app. split.
      * apply Forall_forall. intros x Hx. apply repeat_spec in Hx. lia.
      * apply hex_fuel_ascii, Hc.
    + constructor; [lia |]. constructor; [lia | constructor].
Qed.

(** Reading back what one character of the plane was escaped to. *)
Lemma unescape_char (c : Z) (rest : list Z) :
  is_bmp c ->
  pg_re_unescape (escape_char c ++ rest) = c :: pg_re_unescape rest.
Proof.
  unfold is_bmp. intros Hc. unfold escape_char.
  destruct (is_alnum c) eqn:Ha; cbn [negb].
  - apply alnum_ranges in Ha. cbn [app pg_re_unescape].
    destruct (Z.eqb_spec c 92); [lia | reflexivity].
  - assert (Hna : ~ (48 <= c <= 57 \/ 65 <= c <= 90 \/ 97 <= c <= 122)).
    { intros H. apply alnum_ranges in H. congruence. }
    destruct (Z.geb_spec c 128).
    + rewrite format_0_4x_bmp by lia. cbn [app pg_re_unescape Z.eqb Pos.eqb].
      pose proof (Z.mod_pos_bound c 16 ltac:(lia)).
      pose proof (Z.mod_pos_bound (c / 16) 16 ltac:(lia)).
      pose proof (Z.mod_pos_bound (c / 16 / 16) 16 ltac:(lia)).
      assert (H3 : 0 <= c / 16 / 16 / 16 < 16).
      { split; [repeat apply Z.div_pos; lia |].
        repeat (apply Z.div_lt_upper_bound; [lia |]). lia. }
      rewrite !hex_value_digit by lia. rewrite four_digits_value by lia. reflexivity.
    + cbn [app pg_re_unescape Z.eqb Pos.eqb].
      destruct (Z.eqb_spec c 117); [lia | reflexivity].
Qed.

Lemma pg_re_escape_round_trip (s : list Z) :
  Forall is_bmp s -> pg_re_unescape (_pg_re_escape s) = s.
Proof.
  unfold _pg_re_escape. induction 1 as [| c s Hc _ IH]; [reflexivity |].
  cbn [map List.concat]. rewrite unescape_char by exact Hc. rewrite IH. reflexivity.
Qed.

(** X18.  [_pg_re_escape] on characters of the Basic Multilingual Plane:
    the escaped pattern is pure ASCII, and two different strings are
    never escaped to the same pattern. *)
Theorem pg_re_escape_injective (s t : list Z) :
  Forall is_bmp s -> Forall is_bmp t ->
  Forall (fun c => 0 <= c < 128) (_pg_re_escape s)
  /\ (_pg_re_escape s = _pg_re_escape t -> s = t).
Proof.
  intros Hs Ht. split.
  - unfold _pg_re_escape. induction Hs as [| c s Hc _ IH]; [constructor |].
    cbn [map List.concat]. apply Forall_app. split; [| exact IH].
    apply escape_char_ascii. unfold is_bmp in Hc. lia.
  - intros Heq. rewrite <- (pg_re_escape_round_trip s Hs), <- (pg_re_escape_round_trip t Ht).
    rewrite Heq. reflexivity.
Qed.

Lemma escape_char_hex_digit (d : Z) : 0 <= d < 16 -> escape_char (hex_digit d) = [hex_digit d].
Proof. intros H. unfold escape_char. rewrite (hex_digit_alnum d H). reflexivity. Qed.

Lemma escape_char_high (c : Z) : 128 <= c -> escape_char c = [92; 117] ++ format_0_4x c.
Proof.
  intros H. unfold escape_char.
  destruct (is_alnum c) eqn:Ha; [apply alnum_below_128 in Ha; lia |].
  cbn [negb]. destruct (Z.geb_spec c 128); [reflexivity | lia].
Qed.

(** A number of five digits is written as the four digits of its
    sixteenth and its last digit. *)
Lemma format_five_digits (c : Z) :
  65536 <= c < 1048576 ->
  format_0_4x c = format_0_4x (c / 16) ++ [hex_digit (c mod 16)].
Proof.
  intros H.
  assert (H1 : 4096 <= c / 16 < 65536)
    by (split; [apply Z.div_le_lower_bound | apply Z.div_lt_upper_bound]; lia).
  rewrite (format_0_4x_bmp (c / 16)) by lia.
  unfold format_0_4x, format_x. cbv zeta.
  change (hex_fuel 6 c) with (hex_fuel (S (4 + 1)) c). cbn [hex_fuel].
  destruct (Z.ltb_spec c 16); [lia |].
  change (hex_fuel 5 (c / 16)) with (hex_fuel (4 + 1) (c / 16)).
  rewrite (hex_fuel_four 1 (c / 16)) by lia. reflexivity.
Qed.

(** A number of six digits, likewise. *)
Lemma format_six_digits (c : Z) :
  1048576 <= c <= 1114111 ->
  format_0_4x c
  = format_0_4x (c / 16 / 16) ++ [hex_digit (c / 16 mod 16); hex_digit (c mod 16)].
Proof.
  intros H.
  assert (H1 : 65536 <= c / 16 < 1048576)
    by (split; [apply Z.div_le_lower_bound | apply Z.div_lt_upper_bound]; lia).
  assert (H2 : 4096 <= c / 16 / 16 < 65536)
    by (split; [apply Z.div_le_lower_bound | apply Z.div_lt_upper_bound]; lia).
  rewrite (format_0_4x_bmp (c / 16 / 16)) by lia.
  unfold format_0_4x, format_x. cbv zeta.
  change (hex_fuel 6 c) with (hex_fuel (S (S (4 + 0))) c). cbn [hex_fuel].
  destruct (Z.ltb_spec c 16); [lia |].
  destruct (Z.ltb_spec (c / 16) 16); [lia |].
  change (hex_fuel 4 (c / 16 / 16)) with (hex_fuel (4 + 0) (c / 16 / 16)).
  rewrite (hex_fuel_four 0 (c / 16 / 16)) by lia. reflexivity.
Qed.

(** X19.  [_pg_re_escape] beyond the Basic Multilingual Plane.  A
    character above [U+FFFF] is written as a backslash, [u] and five or
    six hexadecimal digits, which is also the escaped form of another
    string: the character whose code is the first four digits followed
    by the remaining digits as letters or digits.  So every such
    character shares its pattern with a different string of the plane. *)
Theorem pg_re_escape_astral_collision (c : Z) :
  65536 <= c <= 1114111 ->
  exists t,
    Forall is_bmp t /\ t <> [c] /\ _pg_re_escape t = _pg_re_escape [c].
Proof.
  intros H. unfold _pg_re_escape.
  pose proof (Z.mod_pos_bound c 16 ltac:(lia)) as Hd0.
  pose proof (Z.mod_pos_bound (c / 16) 16 ltac:(lia)) as Hd1.
  assert (Hdigit : forall d, 0 <= d < 16 -> is_bmp (hex_digit d)).
  { intros d Hd. unfold is_bmp, hex_digit. destruct (Z.ltb_spec d 10); lia. }
  destruct (Z.lt_ge_cases c 1048576) as [Hfive | Hsix].
  - assert (H1 : 4096 <= c / 16 < 65536)
      by (split; [apply Z.div_le_lower_bound | apply Z.div_lt_upper_bound]; lia).
    exists [c / 16; hex_digit (c mod 16)]. split; [| split].
    + constructor; [unfold is_bmp; lia |]. constructor; [apply Hdigit, Hd0 | constructor].
    + discriminate.
    + cbn [map List.concat].
      rewrite (escape_char_high c), (escape_char_high (c / 16)) by lia.
      rewrite (escape_char_hex_digit _ Hd0), (format_five_digits c) by lia.
      rewrite !app_nil_r, <- !app_assoc. reflexivity.
  - assert (H1 : 65536 <= c / 16 < 1048576)
      by (split; [apply Z.div_le_lower_bound | apply Z.div_lt_upper_bound]; lia).
    assert (H2 : 4096 <= c / 16 / 16 < 65536)
      by (split; [apply Z.div_le_lower_bound | apply Z.div_lt_upper_bound]; lia).
    exists [c / 16 / 16; hex_digit (c / 16 mod 16); hex_digit (c mod 16)].
    split; [| split].
    + constructor; [unfold is_bmp; lia |].
      constructor; [apply Hdigit, Hd1 |]. constructor; [apply Hdigit, Hd0 | constructor].
    + discriminate.
    + cbn [map List.concat].
      rewrite (escape_char_high c), (escape_char_high (c / 16 / 16)) by lia.
      rewrite (escape_char_hex_digit _ Hd0), (escape_char_hex_digit _ Hd1).
      rewrite (format_six_digits c) by lia.
      rewrite !app_nil_r, <- !app_assoc. reflexivity.
Qed.

(* ================================================================== *)
(** ** Properties: the window anchored to the oldest message *)
(* ================================================================== *)

(** The ids an ordered, limited select over the query itself returns. *)
Lemma execute_plain_ids (db : Database) (query : Select) (name : string)
      (dir : Direction) (n : Z) :
  is_id_column name ->
  map message_id (execute db (sb_select query (Some (name, dir)) (Some n)))
  = firstn (Z.to_nat n) (sort_keys dir (map message_id (run_select db query))).
Proof.
  intros Hid. simpl. rewrite <- firstn_map. f_equal.
  rewrite <- (map_int_column_id name _ Hid), map_sort_rows.
  rewrite (map_int_column_id name _ Hid). reflexivity.
Qed.

Lemma post_process_keys_history {MessageRowT : Type} (row0 : MessageRowT -> Z)
      (fetched : list MessageRowT) (num_before num_after anchor : Z)
      (left right : bool) (fv : Z) :
  history_limited (post_process_limited_query row0 fetched num_before num_after anchor
                                              left right fv)
  = negb (len (filter (visible_id fv) (map row0 fetched)) =? len (map row0 fetched))
    && found_oldest (post_process_limited_query row0 fetched num_before num_after anchor
                                                left right fv).
Proof.
  assert (Hvis : len (visible_rows_of row0 fetched fv)
                 = len (filter (visible_id fv) (map row0 fetched))).
  { rewrite <- visible_rows_of_keys. unfold visible_rows_of.
    destruct (fv >? 0); [| symmetry; apply len_map].
    rewrite <- (map_filter_key row0 (fun i => i >=? fv)). symmetry. apply len_map. }
  unfold post_process_limited_query. rewrite Hvis, (len_map row0 fetched).
  destruct (partition_rows row0 (visible_rows_of row0 fetched fv) anchor right)
    as [[before_rows anchor_rows] after_rows].
  reflexivity.
Qed.

(** The window planner fetches the first ids of the query when the
    fetch is anchored to the left. *)
Lemma window_fetched_oldest (db : Database) (query : Select) (id_col : string)
      (num_before num_after anchor : Z) (include_anchor : bool) (fv : Z) :
  is_id_column id_col -> 0 < num_after ->
  map message_id
      (execute db
         (sb_ordered_subquery
            (limit_query_to_range query num_before num_after anchor include_anchor
                                  true false id_col fv)
            ("message_id", Asc)))
  = firstn (Z.to_nat (num_after + int_of_bool include_anchor)) (narrow_ids db query).
Proof.
  intros Hid Hna. rewrite execute_ordered_ids. unfold limit_query_to_range.
  assert (Hpos : (num_after >? 0) = true) by (apply Z.gtb_lt; lia).
  rewrite Hpos. cbn [negb andb]. cbv zeta.
  rewrite (execute_plain_ids db query id_col Asc _ Hid). fold (narrow_ids db query).
  apply sort_keys_sorted_id; [| apply Permutation_refl].
  apply StronglySorted_firstn, (sort_keys_sorted Asc).
Qed.

(** X20.  The window anchored to the oldest message ([anchor = 0]) over
    a query with positive ids and [num_after > 0].  The planner takes
    the first [num_after] ids of the query in ascending order (one more
    with [include_anchor]) without regard to the visibility floor, and
    post-processing then drops the ids below the floor.  So the rows
    returned are the visible ids among the first ids of the query, not
    the first visible ids: [found_newest] is reported whenever fewer
    than [num_after] of the fetched ids are visible, [found_oldest]
    always, never [found_anchor], and [history_limited] exactly when
    one of the fetched ids is below the floor. *)
Theorem fetch_window_oldest (db : Database) (query : Select) (id_col : string)
        (num_before num_after : Z) (include_anchor : bool) (fv : Z) :
  is_id_column id_col ->
  Forall (fun i => 0 < i) (narrow_ids db query) ->
  0 < num_after ->
  let ids := narrow_ids db query in
  let fetched := firstn (Z.to_nat (num_after + int_of_bool include_anchor)) ids in
  let result := fetch_window db query id_col num_before num_after 0 include_anchor fv in
  map message_id (rows result)
  = firstn (Z.to_nat num_after) (filter (visible_id fv) fetched)
  /\ found_anchor result = false
  /\ found_oldest result = true
  /\ found_newest result = (len (filter (visible_id fv) fetched) <? num_after)
  /\ history_limited result
     = negb (len (filter (visible_id fv) fetched) =? len fetched).
Proof.
  intros Hid Hpos Hna ids fetched result.
  assert (Hfetched : map message_id
                       (execute db
                          (sb_ordered_subquery
                             (limit_query_to_range query num_before num_after 0
                                include_anchor true false id_col fv)
                             ("message_id", Asc))) = fetched)
    by (apply window_fetched_oldest; assumption).
  assert (Hresult : result
                    = post_process_limited_query message_id
                        (execute db
                           (sb_ordered_subquery
                              (limit_query_to_range query num_before num_after 0
                                 include_anchor true false id_col fv)
                              ("message_id", Asc)))
                        num_before num_after 0 true false fv) by reflexivity.
  rewrite Hresult. clear Hresult.
  match goal with
  | |- context [post_process_limited_query message_id ?rows0 _ _ _ _ _ _] =>
      set (fetched_rows := rows0) in *
  end.
  rewrite (post_process_keys_history message_id fetched_rows).
  destruct (post_process_keys message_id fetched_rows num_before num_after 0 true false fv)
    as (Hrows & Hfa & Hfo & Hfn).
  cbv zeta in Hrows, Hfa, Hfo, Hfn. rewrite Hrows, Hfa, Hfo, Hfn, Hfetched.
  clear Hrows Hfa Hfo Hfn.
  set (visible := filter (visible_id fv) fetched).
  assert (Hin : forall x, In x visible -> 0 < x).
  { intros x Hx. apply filter_In in Hx as [Hx _]. apply In_firstn_all in Hx.
    rewrite Forall_forall in Hpos. apply Hpos, Hx. }
  unfold post_process_limited_query, partition_rows.
  rewrite visible_rows_of_keys. fold visible.
  rewrite (filter_none (fun r => r <? 0) visible)
    by (intros x Hx; apply Z.ltb_ge; specialize (Hin x Hx); lia).
  rewrite (filter_none (fun r => r =? 0) visible)
    by (intros x Hx; apply Z.eqb_neq; specialize (Hin x Hx); lia).
  rewrite (filter_all (fun r => r >? 0) visible)
    by (intros x Hx; apply Z.gtb_lt, Hin, Hx).
  assert (Hna0 : (num_after =? 0) = false) by (apply Z.eqb_neq; lia).
  rewrite Hna0. cbn [negb orb andb app rows found_anchor found_oldest found_newest].
  assert (Hnil : (if negb (num_before =? 0)
                  then py_slice_from (-1 * num_before) (@nil Z) else []) = []).
  { destruct (negb (num_before =? 0)); [| reflexivity].
    unfold py_slice_from. apply skipn_nil. }
  rewrite Hnil. cbn [app]. rewrite (py_slice_to_first num_after visible Hna).
  split; [reflexivity |]. split; [reflexivity |]. split; [reflexivity |].
  split; [| rewrite andb_true_r; reflexivity].
  rewrite <- (py_slice_to_first num_after visible Hna).
  pose proof (len_py_slice_to num_after visible ltac:(lia)) as Hiff.
  destruct (Z.ltb_spec (len (py_slice_to num_after visible)) num_after),
    (Z.ltb_spec (len visible) num_after); try reflexivity; lia.
Qed.

(* ================================================================== *)
(** ** Properties: the rows of the direct-message operators *)
(* ================================================================== *)

Lemma term_method_not_search (t : NarrowParameter) (m : Method) :
  term_method t = Some m -> m <> m_by_search -> is_search_term t = false.
Proof.
  unfold term_method, is_search_term. intros Hm Hne.
  destruct (String.eqb_spec (operator t) "search") as [E | _]; [| reflexivity].
  rewrite E in Hm. cbn in Hm. congruence.
Qed.

Lemma shared_group_recipients (env : Collaborators) (me other : UserProfile) (rid : Z) :
  existsb (Z.eqb rid) (_get_direct_message_group_recipients env me other) = true ->
  In rid (direct_message_group_subscriptions env me)
  /\ In rid (direct_message_group_subscriptions env other).
Proof.
  unfold _get_direct_message_group_recipients. intros H.
  apply existsb_exists in H as (x & Hx & Hrid). apply Z.eqb_eq in Hrid. subst x.
  apply filter_In in Hx as [Hme Hother]. split; [exact Hme |].
  apply existsb_exists in Hother as (y & Hy & Heq). apply Z.eqb_eq in Heq. subst y. exact Hy.
Qed.

(** What a non-negated [dm-including] term that compiled added. *)
Lemma dm_including_clause (env : Collaborators) (self : NarrowBuilder)
      (t : NarrowParameter) (q0 q1 : Select) (st0 st1 : BuilderState) :
  term_method t = Some m_by_dm_including -> negated t = false ->
  add_term env self q0 t st0 = Ok (q1, st1) ->
  exists me other,
    user_profile self = Some me
    /\ lookup_user env self (operand t) = Some other
    /\ forall db r,
        (forall c, In c (whereclause q1) -> eval_cond db c r = true) ->
        is_private_row env r = true
        /\ (user_pk other <> user_pk me ->
            realm_id r = realm_pk (realm self)
            /\ (one_to_one_between me other r \/ in_shared_group env me other r)).
Proof.
  unfold term_method. intros Hm Hneg. destruct t as [op opnd neg].
  cbn [operator negated operand] in *. subst neg.
  unfold add_term. cbn [operator negated operand]. rewrite Hm. cbn [call_method].
  unfold by_dm_including, assert_user, assert_, raise, ret,
    check_not_both_channel_and_dm_narrow, bind.
  cbn [is_not_]. cbv zeta.
  destruct (negb (is_web_public_query self)); [| discriminate].
  destruct (user_profile self) as [me |]; [| discriminate].
  cbn [is_channel_narrow is_dm_narrow].
  destruct (is_channel_narrow st0 && true); [discriminate |].
  destruct (lookup_user env self opnd) as [other |]; [| discriminate].
  intros Hrun. exists me, other. split; [reflexivity |]. split; [reflexivity |].
  intros db r Hall.
  destruct (Z.eqb_spec (user_pk other) (user_pk me)) as [Hsame | Hother];
    injection Hrun as <- _.
  - specialize (Hall (is_private_cond env)
                  ltac:(cbn; apply in_or_app; right; left; reflexivity)).
    split; [exact Hall | intros Hne; contradiction].
  - match type of Hall with
    | forall c, In c (whereclause (where_ _ ?cond)) -> _ =>
        specialize (Hall cond ltac:(cbn; apply in_or_app; right; left; reflexivity))
    end.
    cbn [apply_transform eval_cond forallb existsb] in Hall.
    rewrite !andb_true_r, !orb_false_r in Hall.
    apply andb_true_iff in Hall as [Hprivate Hall].
    apply andb_true_iff in Hall as [Hrealm Hwho].
    split; [exact Hprivate |]. intros _. split; [apply Z.eqb_eq, Hrealm |].
    apply orb_true_iff in Hwho as [Hin | Hwho].
    + apply andb_true_iff in Hin as [Hs Hr]. left. left.
      split; [apply Z.eqb_eq, Hs | apply Z.eqb_eq, Hr].
    + apply orb_true_iff in Hwho as [Hout | Hgroup].
      * apply andb_true_iff in Hout as [Hs Hr]. left. right.
        split; [apply Z.eqb_eq, Hs | apply Z.eqb_eq, Hr].
      * right. apply (shared_group_recipients env me other), Hgroup.
Qed.

(** What a non-negated [group-pm-with] term that compiled added. *)
Lemma group_pm_with_clause (env : Collaborators) (self : NarrowBuilder)
      (t : NarrowParameter) (q0 q1 : Select) (st0 st1 : BuilderState) :
  term_method t = Some m_by_group_pm_with -> negated t = false ->
  add_term env self q0 t st0 = Ok (q1, st1) ->
  exists me other,
    user_profile self = Some me
    /\ lookup_user env self (operand t) = Some other
    /\ forall db r,
        (forall c, In c (whereclause q1) -> eval_cond db c r = true) ->
        is_private_row env r = true
        /\ realm_id r = realm_pk (realm self)
        /\ in_shared_group env me other r.
Proof.
  unfold term_method. intros Hm Hneg. destruct t as [op opnd neg].
  cbn [operator negated operand] in *. subst neg.
  unfold add_term. cbn [operator negated operand]. rewrite Hm. cbn [call_method].
  unfold by_group_pm_with, assert_user, assert_, raise, ret,
    check_not_both_channel_and_dm_narrow, bind.
  cbn [is_not_]. cbv zeta. cbv zeta.
  destruct (negb (is_web_public_query self)); [| discriminate].
  destruct (user_profile self) as [me |]; [| discriminate].
  cbn [is_channel_narrow is_dm_narrow].
  destruct (is_channel_narrow st0 && true); [discriminate |].
  destruct (lookup_user env self opnd) as [other |]; [| discriminate].
  intros Hrun. exists me, other. split; [reflexivity |]. split; [reflexivity |].
  intros db r Hall. injection Hrun as <- _.
  match type of Hall with
  | forall c, In c (whereclause (where_ _ ?cond)) -> _ =>
      specialize (Hall cond ltac:(cbn; apply in_or_app; right; left; reflexivity))
  end.
  cbn [apply_transform eval_cond forallb] in Hall. rewrite andb_true_r in Hall.
  apply andb_true_iff in Hall as [Hprivate Hall].
  apply andb_true_iff in Hall as [Hrealm Hgroup].
  split; [exact Hprivate |]. split; [apply Z.eqb_eq, Hrealm |].
  apply (shared_group_recipients env me other), Hgroup.
Qed.

(** X21.  The rows of [dm-including] and [group-pm-with].  When
    [fetch_messages] returns for a narrow with a non-negated
    [dm-including] or [group-pm-with] term, the request has a user, the
    operand names a user, and every returned row has the [is_private]
    flag.  For [group-pm-with] every row also belongs to the realm and
    is addressed to a direct-message group both the requester and the
    named user subscribe to; for [dm-including] with another user it
    belongs to the realm and is either addressed to such a group or is
    a message of the one-to-one conversation of the two. *)
Theorem fetch_messages_dm_scope (env : Collaborators) (db : Database)
        (narrow : list NarrowParameter) (user : option UserProfile)
        (realm : Realm) (web : bool) (anchor_arg : option Z)
        (include_anchor : bool) (num_before num_after : Z)
        (ids : option (list Z)) (r : FetchedMessages) (t : NarrowParameter) :
  fetch_messages env db (Some narrow) user realm web anchor_arg include_anchor
                 num_before num_after ids = Ok r ->
  In t narrow -> negated t = false ->
  term_method t = Some m_by_dm_including \/ term_method t = Some m_by_group_pm_with ->
  exists me other,
    user = Some me
    /\ user_of_operand env realm (operand t) = Some other
    /\ forall row,
        In row (rows (limited r)) ->
        is_private_row env row = true
        /\ (term_method t = Some m_by_group_pm_with \/ user_pk other <> user_pk me ->
            realm_id row = realm_pk realm
            /\ (in_shared_group env me other row
                \/ (term_method t = Some m_by_dm_including
                    /\ one_to_one_between me other row))).
Proof.
  intros Hfetch Hin Hneg Hmethod.
  destruct (fetch_messages_steps _ _ _ _ _ _ _ _ _ _ _ _ Hfetch)
    as (base & id_col & compiled & dm & _ & _ & Hcompile & Hlim).
  cbv zeta in Hlim.
  assert (Hrows : forall row, In row (rows (limited r)) -> In row (run_select db compiled)).
  { intros row Hrow.
    apply (fetch_messages_rows_compiled env db compiled id_col anchor_arg include_anchor
             num_before num_after ids (get_first_visible_message_id env realm)
             (limited r)); [| exact Hrow].
    destruct ids as [l |]; [apply Hlim |].
    destruct Hlim as (a & _ & _ & Hlim). exists a. exact Hlim. }
  assert (Hns : is_search_term t = false)
    by (destruct Hmethod as [H | H]; apply (term_method_not_search t _ H); discriminate).
  destruct (add_narrow_conditions_term _ _ _ _ _ _ _ t _ _ _ Hcompile Hin Hns)
    as (q0 & st0 & q1 & st1 & Hterm & Hext).
  assert (Hall : forall row, In row (rows (limited r)) ->
                             forall c, In c (whereclause q1) -> eval_cond db c row = true).
  { intros row Hrow c Hc.
    apply (run_select_clause db compiled c row); [| apply Hrows, Hrow].
    apply (extends_clause _ _ _ Hext Hc). }
  destruct Hmethod as [Hm | Hm].
  - destruct (dm_including_clause _ _ _ _ _ _ _ Hm Hneg Hterm)
      as (me & other & Hme & Hother & Hclause).
    exists me, other. split; [exact Hme |]. split.
    { rewrite <- Hother. destruct (operand t); reflexivity. }
    intros row Hrow. destruct (Hclause db row (Hall row Hrow)) as [Hprivate Hwho].
    split; [exact Hprivate |]. intros [Hgroup | Hne]; [congruence |].
    destruct (Hwho Hne) as [Hrealm [Hone | Hshared]].
    + split; [exact Hrealm |]. right. split; [exact Hm | exact Hone].
    + split; [exact Hrealm |]. left. exact Hshared.
  - destruct (group_pm_with_clause _ _ _ _ _ _ _ Hm Hneg Hterm)
      as (me & other & Hme & Hother & Hclause).
    exists me, other. split; [exact Hme |]. split.
    { rewrite <- Hother. destruct (operand t); reflexivity. }
    intros row Hrow. destruct (Hclause db row (Hall row Hrow)) as (Hprivate & Hrealm & Hshared).
    split; [exact Hprivate |]. intros _. split; [exact Hrealm |]. left. exact Hshared.
Qed.

(* ================================================================== *)
(** ** The further statements at sample inputs *)
(* ================================================================== *)

Ltac distinct_ids :=
  repeat (constructor;
          [ let H := fresh "H" in
            cbn [In]; intros H;
            repeat (destruct H as [H | H]; [discriminate H |]); exact H
          | ]);
  constructor.

Lemma five_messages_distinct : NoDup (map message_id five_messages).
Proof. cbv [map five_messages message message_id]. distinct_ids. Defined.

Lemma example_channels_have_recipients (using_pgroonga : bool) (operand : Operand)
      (channel : Stream) :
  get_stream_by_narrow_operand_access_unchecked (example_env using_pgroonga) operand
    example_realm = Some channel ->
  stream_recipient_id channel <> None.
Proof.
  destruct operand as [s | n | l]; cbn; intros H; try discriminate H.
  - destruct (String.eqb s "Verona"); [| discriminate H]. injection H as <-. discriminate.
  - destruct (n =? 3); [| discriminate H]. injection H as <-. discriminate.
Defined.

Lemma fetch_messages_rows_authorized_witness :
  exists r,
    fetch_messages (example_env_floor 25) (example_db five_messages) (Some [])
                   (Some hamlet) example_realm false (Some 30) true 2 2 None = Ok r
    /\ forall row,
         In row (rows (limited r)) ->
         (if include_history r
          then In row (db_zerver_message (example_db five_messages))
               /\ realm_id row = realm_pk example_realm
          else exists u,
                 Some hamlet = Some u
                 /\ In row (db_usermessage_join (example_db five_messages) (user_pk u)))
         /\ (0 < get_first_visible_message_id (example_env_floor 25) example_realm ->
             get_first_visible_message_id (example_env_floor 25) example_realm
             <= message_id row).
Proof.
  eexists. split; [vm_compute; reflexivity |].
  apply (fetch_messages_rows_authorized (example_env_floor 25) (example_db five_messages)
           (Some []) (Some hamlet) example_realm false (Some 30) true 2 2 None).
  vm_compute. reflexivity.
Defined.

Lemma fetch_messages_ascending_witness :
  exists r,
    fetch_example [channel_verona] (Some 30) 1 1 None = Ok r
    /\ map message_id (rows (limited r)) = [20; 30; 40]
    /\ ascending message_id (rows (limited r)).
Proof.
  eexists. split; [vm_compute; reflexivity |]. split; [reflexivity |].
  apply (fetch_messages_ascending (example_env false) (example_db five_messages)
           (Some [channel_verona]) (Some hamlet) example_realm false (Some 30) true 1 1).
  vm_compute. reflexivity.
Defined.

Lemma fetch_messages_page_size_witness :
  exists r,
    fetch_example [] (Some 30) 1 1 None = Ok r
    /\ len (rows (limited r)) <= 1 + 1 + 1.
Proof.
  eexists. split; [vm_compute; reflexivity |].
  apply (fetch_messages_page_size (example_env false) (example_db five_messages)
           (Some []) (Some hamlet) example_realm false (Some 30) true 1 1).
  - vm_compute. reflexivity.
  - lia.
  - lia.
  - exact five_messages_distinct.
  - intros u. exact five_messages_distinct.
Defined.

Lemma fetch_messages_by_ids_witness :
  exists r,
    fetch_example [] None 1 1 (Some [10; 50; 70]) = Ok r
    /\ map message_id (rows (limited r)) = [10; 50]
    /\ fetch_example [] (Some 30) 0 7 (Some [10; 50; 70]) = Ok r
    /\ anchor r = None.
Proof.
  eexists. split; [vm_compute; reflexivity |]. split; [reflexivity |].
  match goal with
  | |- _ = Ok ?r /\ _ =>
      destruct (fetch_messages_by_ids (example_env false) (example_db five_messages)
                  (Some []) (Some hamlet) example_realm false None true 1 1
                  [10; 50; 70] r) as (Hsame & Hanchor & _)
  end.
  - vm_compute. reflexivity.
  - split; [exact (Hsame (Some 30) true 0 7) | exact Hanchor].
Defined.

Lemma fetch_messages_history_scope_witness :
  exists r,
    fetch_example [channel_verona] (Some 30) 1 1 None = Ok r
    /\ include_history r = true
    /\ exists terms t,
         Some [channel_verona] = Some terms /\ In t terms
         /\ grants_history_term (example_env false) hamlet t = true
         /\ forall row, In row (rows (limited r)) ->
                        in_channel_of (example_env false) example_realm t row.
Proof.
  eexists. split; [vm_compute; reflexivity |]. split; [reflexivity |].
  apply (fetch_messages_history_scope (example_env false) (example_db five_messages)
           (Some [channel_verona]) hamlet example_realm (Some 30) true 1 1 None).
  - reflexivity.
  - vm_compute. reflexivity.
  - reflexivity.
Defined.

Lemma fetch_messages_web_public_scope_witness :
  exists r,
    fetch_messages (example_env_floor 25) (example_db five_messages)
                   (Some [channels_web_public]) None example_realm true (Some 30)
                   true 2 2 None = Ok r
    /\ map message_id (rows (limited r)) = [30; 40; 50]
    /\ forall row,
         In row (rows (limited r)) ->
         In (recipient_id row)
            (get_web_public_streams_recipient_ids (example_env_floor 25) example_realm).
Proof.
  eexists. split; [vm_compute; reflexivity |]. split; [reflexivity |].
  apply (fetch_messages_web_public_scope (example_env_floor 25)
           (example_db five_messages) (Some [channels_web_public]) None example_realm
           true (Some 30) true 2 2 None).
  - reflexivity.
  - vm_compute. reflexivity.
Defined.

Lemma find_first_unread_anchor_least_witness :
  exists compiled searching dm,
    add_narrow_conditions (example_env false) (Some hamlet) "message_id"
      (add_columns
         (mkSelect (db_usermessage_join (example_db five_messages) (user_pk hamlet)) [] [])
         ["flags"])
      (Some []) false (user_realm hamlet)
    = Ok (compiled, searching, dm)
    /\ let candidates :=
         first_unread_candidates (example_env false) (example_db five_messages) hamlet
                                 (Some []) compiled dm in
       (candidates = [] /\ 10 = LARGER_THAN_MAX_MESSAGE_ID)
       \/ (exists row,
              In row candidates /\ message_id row = 10
              /\ forall row', In row' candidates -> 10 <= message_id row').
Proof.
  apply (find_first_unread_anchor_least (example_env false) (example_db five_messages)
           (Some hamlet) (Some []) 10).
  vm_compute. reflexivity.
Defined.

Lemma search_terms_are_merged_witness :
  compile_example false (base_of two_messages)
    ([channel_verona] ++ map (fun s => NarrowParameter_ "search" (OStr s)) ["foo"; "bar"])
  = compile_example false (base_of two_messages)
      ([channel_verona] ++ [NarrowParameter_ "search" (OStr (join " " ["foo"; "bar"]))]).
Proof.
  destruct (search_terms_are_merged (example_env false) (Some hamlet) "message_id"
              (base_of two_messages) false example_realm) as (_ & _ & Hjoin).
  apply Hjoin.
  - intros t [<- | []]. reflexivity.
  - discriminate.
Defined.

Lemma add_narrow_conditions_flags_witness :
  exists query',
    compile_example false (base_of two_messages)
      [not_dm_othello; mkTerm "search" (OStr "foo") true]
    = Ok (query', true, false)
    /\ true = existsb is_search_term [not_dm_othello; mkTerm "search" (OStr "foo") true]
    /\ false = existsb sets_dm_marker [not_dm_othello; mkTerm "search" (OStr "foo") true].
Proof.
  assert (Hrun : exists query',
             compile_example false (base_of two_messages)
               [not_dm_othello; mkTerm "search" (OStr "foo") true]
             = Ok (query', true, false))
    by (eexists; vm_compute; reflexivity).
  destruct Hrun as [query' Hrun]. exists query'. split; [exact Hrun |].
  exact (add_narrow_conditions_flags (example_env false) (Some hamlet) "message_id"
           (base_of two_messages)
           (Some [not_dm_othello; mkTerm "search" (OStr "foo") true])
           false example_realm query' true false Hrun).
Defined.

Lemma with_operator_rewrite_edges_witness :
  update_narrow_terms_containing_with_operator (example_env true) example_realm
    (Authenticated hamlet) (Some [with_100; channel_verona; with_999])
  = Err (InvalidOperatorCombinationError "Duplicate 'with' operators.")
  /\ exists narrow',
       Some [NarrowParameter_ "channel" (OInt 3); NarrowParameter_ "topic" (OStr "lunch")]
       = Some narrow'
       /\ existsb is_with_term narrow' = false
       /\ can_narrow_define_conversation narrow' = true.
Proof.
  destruct (with_operator_rewrite_edges (example_env true) example_realm
              (Authenticated hamlet)) as (_ & _ & Hdup & Hpost).
  split.
  - apply Hdup. cbn. lia.
  - apply (Hpost [with_100; mkTerm "topic" (OStr "old") false]); reflexivity.
Defined.

Lemma empty_topic_rename_first_only_witness :
  update_narrow_terms_containing_empty_topic_fallback_name (example_env true)
    (Some ([channel_verona] ++ mkTerm "topic" (OStr "a") false
                            :: [mkTerm "topic" (OStr "b") true]))
  = Some ([channel_verona]
          ++ mkTerm "topic"
               (maybe_rename_general_chat_to_empty_topic (example_env true) (OStr "a")) false
          :: [mkTerm "topic" (OStr "b") true]).
Proof.
  destruct (empty_topic_rename_first_only (example_env true)) as (_ & _ & Hfirst).
  apply (Hfirst [channel_verona] (mkTerm "topic" (OStr "a") false)); reflexivity.
Defined.

Lemma add_narrow_conditions_rejects_witness :
  exists e, compile_example false (base_of two_messages) [channel_verona; with_100] = Err e.
Proof.
  apply (add_narrow_conditions_rejects (example_env false) (Some hamlet) "message_id"
           (base_of two_messages) [channel_verona; with_100] false example_realm with_100).
  - right. left. reflexivity.
  - left. reflexivity.
Defined.

Lemma spectator_compatible_asserts_witness :
  (is_spectator_compatible [channel_verona] = true ->
   add_narrow_conditions (example_env false) None "zerver_message.id"
     (base_of two_messages) (Some [channel_verona]) true example_realm
   <> Err AssertionError)
  /\ (is_spectator_compatible [channel_verona] = false ->
      forall web, exists e,
        add_narrow_conditions (example_env false) None "zerver_message.id"
          (base_of two_messages) (Some [channel_verona]) web example_realm = Err e).
Proof.
  apply (spectator_compatible_asserts (example_env false) "zerver_message.id"
           (base_of two_messages) [channel_verona] example_realm).
  - reflexivity.
  - exact (example_channels_have_recipients false).
Defined.


Lemma fetch_window_exact_witness :
  let result := fetch_window (example_db five_messages) (base_of five_messages)
                             "message_id" 1 1 30 false 25 in
  map message_id (rows result) = [30; 40]
  /\ found_anchor result = true
  /\ found_oldest result = true
  /\ found_newest result = false.
Proof.
  assert (Hid : is_id_column "message_id") by (left; reflexivity).
  assert (Hdistinct : NoDup (map message_id
                               (run_select (example_db five_messages)
                                           (base_of five_messages))))
    by exact five_messages_distinct.
  assert (Hanchor : 0 < 30 < LARGER_THAN_MAX_MESSAGE_ID)
    by (unfold LARGER_THAN_MAX_MESSAGE_ID; lia).
  pose proof (fetch_window_exact (example_db five_messages) (base_of five_messages)
                "message_id" 1 1 30 false 25 Hid Hdistinct Hanchor
                ltac:(lia) ltac:(lia)) as Hwindow.
  vm_compute in Hwindow. vm_compute. exact Hwindow.
Defined.

Lemma add_narrow_conditions_any_order_witness :
  exists q1 q2 searching dm,
    compile_example false (base_of five_messages) [channel_verona; not_is_dm]
    = Ok (q1, searching, dm)
    /\ compile_example false (base_of five_messages) [not_is_dm; channel_verona]
       = Ok (q2, searching, dm)
    /\ forall db, run_select db q2 = run_select db q1.
Proof.
  assert (Hrun : exists q1 searching dm,
             compile_example false (base_of five_messages) [channel_verona; not_is_dm]
             = Ok (q1, searching, dm))
    by (do 3 eexists; vm_compute; reflexivity).
  destruct Hrun as (q1 & searching & dm & Hrun).
  destruct (add_narrow_conditions_any_order (example_env false) (Some hamlet) "message_id"
              (base_of five_messages) false example_realm
              [channel_verona; not_is_dm] [not_is_dm; channel_verona]
              q1 searching dm (perm_swap _ _ _) eq_refl Hrun)
    as (q2 & Hrun2 & _ & Hrows).
  exists q1, q2, searching, dm. split; [exact Hrun |]. split; [exact Hrun2 | exact Hrows].
Defined.

Lemma pg_re_escape_injective_witness :
  Forall (fun c => 0 <= c < 128) (_pg_re_escape [955; 46])
  /\ (_pg_re_escape [955; 46] = _pg_re_escape [46; 955] -> [955; 46] = [46; 955]).
Proof.
  apply pg_re_escape_injective;
    repeat (apply Forall_cons; [unfold is_bmp; lia |]); apply Forall_nil.
Defined.

Lemma pg_re_escape_astral_collision_witness :
  exists t, Forall is_bmp t /\ t <> [128512] /\ _pg_re_escape t = _pg_re_escape [128512].
Proof. apply pg_re_escape_astral_collision. lia. Defined.

Lemma fetch_window_oldest_witness :
  let result := fetch_window (example_db five_messages) (base_of five_messages)
                             "message_id" 0 2 0 false 25 in
  map message_id (rows result) = []
  /\ found_anchor result = false
  /\ found_oldest result = true
  /\ found_newest result = true
  /\ history_limited result = true.
Proof.
  assert (Hid : is_id_column "message_id") by (left; reflexivity).
  assert (Hpositive : Forall (fun i => 0 < i)
                             (narrow_ids (example_db five_messages) (base_of five_messages))).
  { vm_compute. repeat (apply Forall_cons; [reflexivity |]). apply Forall_nil. }
  pose proof (fetch_window_oldest (example_db five_messages) (base_of five_messages)
                "message_id" 0 2 false 25 Hid Hpositive ltac:(lia)) as Hwindow.
  vm_compute in Hwindow. vm_compute. exact Hwindow.
Defined.

Lemma fetch_messages_dm_scope_witness :
  exists r,
    fetch_messages (example_env false) (example_db (private_message :: five_messages))
                   (Some [dm_including_othello]) (Some hamlet) example_realm false
                   (Some 60) true 1 1 None = Ok r
    /\ map message_id (rows (limited r)) = [60]
    /\ exists me other,
        Some hamlet = Some me
        /\ user_of_operand (example_env false) example_realm (operand dm_including_othello)
           = Some other
        /\ forall row,
            In row (rows (limited r)) ->
            is_private_row (example_env false) row = true
            /\ (term_method dm_including_othello = Some m_by_group_pm_with
                \/ user_pk other <> user_pk me ->
                realm_id row = realm_pk example_realm
                /\ (in_shared_group (example_env false) me other row
                    \/ (term_method dm_including_othello = Some m_by_dm_including
                        /\ one_to_one_between me other row))).
Proof.
  eexists. split; [vm_compute; reflexivity |]. split; [vm_compute; reflexivity |].
  apply (fetch_messages_dm_scope (example_env false)
           (example_db (private_message :: five_messages))
           [dm_including_othello] (Some hamlet) example_realm false (Some 60) true 1 1 None
           _ dm_including_othello).
  - vm_compute. reflexivity.
  - left. reflexivity.
  - reflexivity.
  - left. reflexivity.
Defined.
